(** * qxl.dialog.MForm: the form builder of the dialog library

    A shallow embedding of [source/class/qxl/dialog/MForm.js] and of the
    two form element classes of the sources ([formElement/TextArea.js],
    [formElement/GroupHeader.js]).

    The mixin is imperative code over the widget toolkit.  Its own state
    (statics, members, properties) is a record; every call into the
    toolkit is recorded, in order, in a log; code that fails throws, and
    the state reached at the throw is kept, as [try]/[catch] needs it.

    The toolkit is not interpreted: a call of one of its methods is an
    entry of the log and returns.  What throws is what the code of the
    mixin makes throw: its two [throw] statements, a property read on
    [null] or [undefined], a call of what is not a function,
    [new RegExp] on a text that does not compile, and the functions it
    calls (handlers of form elements, functions given by the user, the
    statics of [qx.util.Validate] that a validator names).  These
    functions are given by name; what a call of one does is taken from
    the environment.  The tables of the mixin are plain objects: a key
    is looked up among what was assigned and among what a plain object
    inherits from [Object.prototype].

    Besides the form data, the development covers the content of the
    dialog ([_createWidgetContent]) and its label column
    ([_applyLabelColumnWidth]), with the methods of the dialog class
    that the mixin calls taken as they come, and the renderer of mobile
    forms that formElement/TextArea.js carries along. *)

From Stdlib Require Import String Ascii List ZArith Lia Bool.
From stdpp Require Import base option gmap strings list fin_maps.

Local Open Scope string_scope.
Local Open Scope list_scope.

(** ** JavaScript values *)

Definition ObjId := nat.
Definition FnId := string.

(** The values the mixin handles: primitives, functions (by name),
    toolkit objects (class name and identity) and plain maps, whose
    entries are kept in the order of [Object.getOwnPropertyNames]. *)
#[warnings="-register-all"]
Inductive JsVal : Type :=
| JUndefined
| JNull
| JBool (b : bool)
| JNum (n : Z)
| JNaN
| JStr (s : string)
| JFun (f : FnId)
| JObj (cls : string) (o : ObjId)
| JMap (props : list (string * JsVal)).

Definition JsObject := list (string * JsVal).

Inductive Exn : Type :=
| Error (msg : string)
| TypeError (msg : string)
| SyntaxError (msg : string).

Definition truthy (v : JsVal) : bool :=
  match v with
  | JUndefined | JNull | JNaN => false
  | JBool b => b
  | JNum n => negb (n =? 0)%Z
  | JStr s => negb (String.eqb s "")
  | JFun _ | JObj _ _ | JMap _ => true
  end.

Definition js_typeof (v : JsVal) : string :=
  match v with
  | JUndefined => "undefined"
  | JNull | JObj _ _ | JMap _ => "object"
  | JBool _ => "boolean"
  | JNum _ | JNaN => "number"
  | JStr _ => "string"
  | JFun _ => "function"
  end.

Definition is_undefined (v : JsVal) : bool :=
  match v with JUndefined => true | _ => false end.

(** [qx.lang.Type.isString], [qx.lang.Type.isObject]: the latter looks
    at the class of the value, "Object" for a plain object and for an
    object of the toolkit alike. *)
Definition isString (v : JsVal) : bool :=
  match v with JStr _ => true | _ => false end.

Definition isObject (v : JsVal) : bool :=
  match v with JMap _ | JObj _ _ => true | _ => false end.

(** [v instanceof cls], on the class the object was made with. *)
Definition instanceof (v : JsVal) (cls : string) : bool :=
  match v with JObj c _ => String.eqb c cls | _ => false end.

Module Obj.
(** Plain objects used as maps: own properties, in creation order. *)

Fixpoint lookup (o : JsObject) (k : string) : option JsVal :=
  match o with
  | [] => None
  | (k', v) :: o' => if String.eqb k' k then Some v else lookup o' k
  end.

(** [o[k]] *)
Definition get (o : JsObject) (k : string) : JsVal :=
  match lookup o k with Some v => v | None => JUndefined end.

(** [k in o], own properties only *)
Definition has (o : JsObject) (k : string) : bool :=
  match lookup o k with Some _ => true | None => false end.

(** [o[k] = v]: an existing property keeps its place *)
Fixpoint set (o : JsObject) (k : string) (v : JsVal) : JsObject :=
  match o with
  | [] => [(k, v)]
  | (k', v') :: o' =>
      if String.eqb k' k then (k', v) :: o' else (k', v') :: set o' k v
  end.

(** [Object.getOwnPropertyNames(o)], [Object.keys(o)], [for (k in o)] *)
Definition keys (o : JsObject) : list string := map fst o.

(** A JavaScript object has each property once. *)
Definition wf (o : JsObject) : Prop := NoDup (keys o).
End Obj.

(** ** String operations of the source

    A string is a sequence of characters with codes below 256, the
    characters of ISO 8859-1, one code unit each. *)

(** The lower case of a character: of the letters A to Z, and of the
    letters from U+00C0 to U+00DE, among which U+00D7 is the
    multiplication sign. *)
Definition lower_char (c : ascii) : ascii :=
  let n := nat_of_ascii c in
  if ((65 <=? n)%nat && (n <=? 90)%nat)
     || ((192 <=? n)%nat && (n <=? 222)%nat && negb (n =? 215)%nat)
  then ascii_of_nat (n + 32) else c.

(** [s.toLowerCase()] *)
Fixpoint toLowerCase (s : string) : string :=
  match s with
  | EmptyString => EmptyString
  | String c r => String (lower_char c) (toLowerCase r)
  end.

(** [s.charAt(0)] *)
Definition charAt0 (s : string) : string :=
  match s with
  | EmptyString => EmptyString
  | String c _ => String c EmptyString
  end.

(** [s.substr(1, s.length - 2)]; a negative length gives the empty string. *)
Definition substr_1_len_minus_2 (s : string) : string :=
  String.substring 1 (String.length s - 2) s.

(** [s.replace(/;\n/g, "")] *)
Fixpoint remove_semicolon_newline (s : string) : string :=
  match s with
  | EmptyString => EmptyString
  | String c r =>
      match r with
      | String d r' =>
          if Ascii.eqb c ";" && Ascii.eqb d "010"
          then remove_semicolon_newline r'
          else String c (remove_semicolon_newline r)
      | EmptyString => String c EmptyString
      end
  end.

(** ** The toolkit, as the mixin sees it *)

(** The receiver of a toolkit call: the dialog, an object, or what a
    getter of a receiver returns ([form.getValidationManager()]). *)
Inductive Recv : Type :=
| RThis
| RObj (o : ObjId)
| RSub (r : Recv) (getter : string).

(** What [_applyFormData] hands to [form.add] as the validator. *)
Inductive ValidatorVal : Type :=
| VRaw (v : JsVal)
    (* the local [validator] as it stands: [null], the member itself, or
       what [qx.util.Validate[name]()] returned *)
| VRegExp (pattern : string) (errorMessage : JsVal)
    (* [qx.util.Validate.regExp(new RegExp(pattern), errorMessage)] *)
| VAsync (proxy : FnId) (method : string) (message : JsVal).
    (* [new qx.ui.form.validation.AsyncValidator(validationFunc)] *)

Inductive Event : Type :=
| ENew (o : ObjId) (cls : string) (args : list JsVal)
    (* [o = new cls(args)] *)
| ECall (r : Recv) (method : string) (args : list JsVal)
    (* [r.method(args)] *)
| ECreateModel (o : ObjId) (modelData : JsObject)
    (* [o = qx.data.marshal.Json.createModel(modelData)] *)
| EFormAdd (form : ObjId) (item : JsVal) (label : JsVal) (v : ValidatorVal)
    (* [form.add(item, label, v)] *)
| EInvoke (f : FnId) (this : JsVal) (args : list JsVal)
    (result : Exn + JsVal).
    (* [f.call(this, args)], a handler or a function of the user, and what
       the call returned or threw; the toolkit calls it made follow *)

(** A form element class: [register()] hands the field type it was
    written for and its [_registration] map to
    [registerFormElementHandlers]. *)
Record ElementClass : Type := {
  cls_fieldType : string;
  cls_registration : JsVal
}.

Record St : Type := {
  (* statics of qxl.dialog.MForm *)
  _registeredFormElements : gmap string JsVal;
  _internalFormElements : option (list (string * ElementClass));
  (* members *)
  _formContainer : option ObjId;
  _form : option ObjId;
  _formController : option ObjId;
  _formElements : option (gmap string JsVal);
  _okButton : JsVal;
  (* properties of the mixin and of the dialog it is mixed into *)
  model : option ObjId;
  context : JsVal;
  callback : JsVal;
  formReadyFunction : JsVal;
  setupFormRendererFunction : JsVal;
  finalizeFunction : JsVal;
  labelColumnWidth : Z;
  (* the toolkit: objects owned by id, the next fresh object, the calls *)
  ownedQxObjects : gmap string ObjId;
  next_id : nat;
  log : list Event
}.

(** The dialog itself, as an argument of handlers and user functions. *)
Definition this_val : JsVal := JObj "qxl.dialog.MForm" 0.

(** What a function called by the mixin (a handler of a form element, a
    function property of the user) does: toolkit calls, objects created,
    and a result or an exception.  It reads the state, it does not assign
    the members or statics of the mixin. *)
Record Outcome : Type := {
  out_events : list Event;
  out_created : nat;
  out_result : Exn + JsVal
}.

(** What the mixin takes from its surroundings. *)
Record Env : Type := {
  (* [qx.core.Environment.get("module.objectid") === true] *)
  module_objectid : bool;
  (* [qx.util.Validate[name]] *)
  qx_util_Validate : string -> JsVal;
  (* whether [new RegExp(pattern)] returns; it throws a SyntaxError otherwise *)
  RegExp_compiles : string -> bool;
  (* [eval(text)]: the value the text evaluates to, or the exception *)
  js_eval : string -> Exn + JsVal;
  (* the functions that can be called, by name *)
  js_call : FnId -> JsVal -> list JsVal -> St -> Outcome;
  (* [qx.util.Serializer.toNativeObject(model)] *)
  toNativeObject : St -> option ObjId -> JsVal;
  (* the members of a toolkit object that [for (k in o)] walks, in its
     order, with their values *)
  members_of : string -> ObjId -> JsObject
}.

(** ** State and exceptions *)

Inductive Res (A : Type) : Type :=
| Ok (a : A) (s : St)
| Throw (e : Exn) (s : St).
Arguments Ok {A} a s.
Arguments Throw {A} e s.

Definition final {A} (r : Res A) : St :=
  match r with Ok _ s => s | Throw _ s => s end.

Definition M (A : Type) : Type := St -> Res A.

#[global] Instance M_ret : MRet M := fun A a s => Ok a s.
#[global] Instance M_bind : MBind M := fun A B f m s =>
  match m s with
  | Ok a s' => f a s'
  | Throw e s' => Throw e s'
  end.

Definition throw {A} (e : Exn) : M A := fun s => Throw e s.

(** [try { m } catch (e) { h e }] *)
Definition try_catch {A} (m : M A) (h : Exn -> M A) : M A := fun s =>
  match m s with
  | Ok a s' => Ok a s'
  | Throw e s' => h e s'
  end.

Definition gets {A} (f : St -> A) : M A := fun s => Ok (f s) s.
Definition modify (f : St -> St) : M unit := fun s => Ok tt (f s).

Definition when (b : bool) (m : M unit) : M unit :=
  if b then m else mret tt.

(** [for (x of l) { f x }] *)
Fixpoint for_each {A} (l : list A) (f : A -> M unit) : M unit :=
  match l with
  | [] => mret tt
  | x :: l' => f x ;; for_each l' f
  end.

(** Assignments to the fields that the mixin writes. *)

Definition set_registeredFormElements (x : gmap string JsVal) (s : St) : St :=
  {| _registeredFormElements := x;
     _internalFormElements := _internalFormElements s;
     _formContainer := _formContainer s;
     _form := _form s;
     _formController := _formController s;
     _formElements := _formElements s;
     _okButton := _okButton s;
     model := model s;
     context := context s;
     callback := callback s;
     formReadyFunction := formReadyFunction s;
     setupFormRendererFunction := setupFormRendererFunction s;
     finalizeFunction := finalizeFunction s;
     labelColumnWidth := labelColumnWidth s;
     ownedQxObjects := ownedQxObjects s;
     next_id := next_id s;
     log := log s |}.

Definition set_internalFormElements (x : option (list (string * ElementClass))) (s : St) : St :=
  {| _registeredFormElements := _registeredFormElements s;
     _internalFormElements := x;
     _formContainer := _formContainer s;
     _form := _form s;
     _formController := _formController s;
     _formElements := _formElements s;
     _okButton := _okButton s;
     model := model s;
     context := context s;
     callback := callback s;
     formReadyFunction := formReadyFunction s;
     setupFormRendererFunction := setupFormRendererFunction s;
     finalizeFunction := finalizeFunction s;
     labelColumnWidth := labelColumnWidth s;
     ownedQxObjects := ownedQxObjects s;
     next_id := next_id s;
     log := log s |}.

Definition set_form (x : option ObjId) (s : St) : St :=
  {| _registeredFormElements := _registeredFormElements s;
     _internalFormElements := _internalFormElements s;
     _formContainer := _formContainer s;
     _form := x;
     _formController := _formController s;
     _formElements := _formElements s;
     _okButton := _okButton s;
     model := model s;
     context := context s;
     callback := callback s;
     formReadyFunction := formReadyFunction s;
     setupFormRendererFunction := setupFormRendererFunction s;
     finalizeFunction := finalizeFunction s;
     labelColumnWidth := labelColumnWidth s;
     ownedQxObjects := ownedQxObjects s;
     next_id := next_id s;
     log := log s |}.

Definition set_formController (x : option ObjId) (s : St) : St :=
  {| _registeredFormElements := _registeredFormElements s;
     _internalFormElements := _internalFormElements s;
     _formContainer := _formContainer s;
     _form := _form s;
     _formController := x;
     _formElements := _formElements s;
     _okButton := _okButton s;
     model := model s;
     context := context s;
     callback := callback s;
     formReadyFunction := formReadyFunction s;
     setupFormRendererFunction := setupFormRendererFunction s;
     finalizeFunction := finalizeFunction s;
     labelColumnWidth := labelColumnWidth s;
     ownedQxObjects := ownedQxObjects s;
     next_id := next_id s;
     log := log s |}.

Definition set_formElements (x : option (gmap string JsVal)) (s : St) : St :=
  {| _registeredFormElements := _registeredFormElements s;
     _internalFormElements := _internalFormElements s;
     _formContainer := _formContainer s;
     _form := _form s;
     _formController := _formController s;
     _formElements := x;
     _okButton := _okButton s;
     model := model s;
     context := context s;
     callback := callback s;
     formReadyFunction := formReadyFunction s;
     setupFormRendererFunction := setupFormRendererFunction s;
     finalizeFunction := finalizeFunction s;
     labelColumnWidth := labelColumnWidth s;
     ownedQxObjects := ownedQxObjects s;
     next_id := next_id s;
     log := log s |}.

Definition set_model (x : option ObjId) (s : St) : St :=
  {| _registeredFormElements := _registeredFormElements s;
     _internalFormElements := _internalFormElements s;
     _formContainer := _formContainer s;
     _form := _form s;
     _formController := _formController s;
     _formElements := _formElements s;
     _okButton := _okButton s;
     model := x;
     context := context s;
     callback := callback s;
     formReadyFunction := formReadyFunction s;
     setupFormRendererFunction := setupFormRendererFunction s;
     finalizeFunction := finalizeFunction s;
     labelColumnWidth := labelColumnWidth s;
     ownedQxObjects := ownedQxObjects s;
     next_id := next_id s;
     log := log s |}.

Definition set_callback (x : JsVal) (s : St) : St :=
  {| _registeredFormElements := _registeredFormElements s;
     _internalFormElements := _internalFormElements s;
     _formContainer := _formContainer s;
     _form := _form s;
     _formController := _formController s;
     _formElements := _formElements s;
     _okButton := _okButton s;
     model := model s;
     context := context s;
     callback := x;
     formReadyFunction := formReadyFunction s;
     setupFormRendererFunction := setupFormRendererFunction s;
     finalizeFunction := finalizeFunction s;
     labelColumnWidth := labelColumnWidth s;
     ownedQxObjects := ownedQxObjects s;
     next_id := next_id s;
     log := log s |}.

Definition set_ownedQxObjects (x : gmap string ObjId) (s : St) : St :=
  {| _registeredFormElements := _registeredFormElements s;
     _internalFormElements := _internalFormElements s;
     _formContainer := _formContainer s;
     _form := _form s;
     _formController := _formController s;
     _formElements := _formElements s;
     _okButton := _okButton s;
     model := model s;
     context := context s;
     callback := callback s;
     formReadyFunction := formReadyFunction s;
     setupFormRendererFunction := setupFormRendererFunction s;
     finalizeFunction := finalizeFunction s;
     labelColumnWidth := labelColumnWidth s;
     ownedQxObjects := x;
     next_id := next_id s;
     log := log s |}.

Definition set_next_id (x : nat) (s : St) : St :=
  {| _registeredFormElements := _registeredFormElements s;
     _internalFormElements := _internalFormElements s;
     _formContainer := _formContainer s;
     _form := _form s;
     _formController := _formController s;
     _formElements := _formElements s;
     _okButton := _okButton s;
     model := model s;
     context := context s;
     callback := callback s;
     formReadyFunction := formReadyFunction s;
     setupFormRendererFunction := setupFormRendererFunction s;
     finalizeFunction := finalizeFunction s;
     labelColumnWidth := labelColumnWidth s;
     ownedQxObjects := ownedQxObjects s;
     next_id := x;
     log := log s |}.

Definition set_log (x : list Event) (s : St) : St :=
  {| _registeredFormElements := _registeredFormElements s;
     _internalFormElements := _internalFormElements s;
     _formContainer := _formContainer s;
     _form := _form s;
     _formController := _formController s;
     _formElements := _formElements s;
     _okButton := _okButton s;
     model := model s;
     context := context s;
     callback := callback s;
     formReadyFunction := formReadyFunction s;
     setupFormRendererFunction := setupFormRendererFunction s;
     finalizeFunction := finalizeFunction s;
     labelColumnWidth := labelColumnWidth s;
     ownedQxObjects := ownedQxObjects s;
     next_id := next_id s;
     log := x |}.

(** ** Calls into the toolkit and into functions *)

Definition emit (e : Event) : M unit :=
  modify (fun s => set_log (log s ++ [e]) s).

Definition call (r : Recv) (method : string) (args : list JsVal) : M unit :=
  emit (ECall r method args).

(** The identity of a new object. *)
Definition fresh_id : M ObjId :=
  o ← gets next_id;
  modify (fun s => set_next_id (next_id s + 1) s) ;;
  mret o.

(** [new cls(args)] *)
Definition new (cls : string) (args : list JsVal) : M ObjId :=
  o ← fresh_id;
  emit (ENew o cls args) ;;
  mret o.

(** [o.x] where [o] may be [null] *)
Definition deref {A} (o : option A) : M A :=
  match o with
  | Some a => mret a
  | None => throw (TypeError "null has no properties")
  end.

(** [v.k] *)
Definition get_prop (v : JsVal) (k : string) : M JsVal :=
  match v with
  | JUndefined | JNull => throw (TypeError "undefined has no properties")
  | JMap o => mret (Obj.get o k)
  | _ => mret JUndefined
  end.

(** [k in v] *)
Definition has_prop (k : string) (v : JsVal) : M bool :=
  match v with
  | JMap o => mret (Obj.has o k)
  | JObj _ _ | JFun _ => mret false
  | _ => throw (TypeError "invalid 'in' operand")
  end.

(** [v.method(args)], [v] a widget *)
Definition call_on (v : JsVal) (method : string) (args : list JsVal) : M unit :=
  match v with
  | JObj _ o => call (RObj o) method args
  | JUndefined | JNull => throw (TypeError "undefined has no properties")
  | _ => throw (TypeError "is not a function")
  end.

(** [Object.prototype]: what every plain object has without owning
    it. *)
Definition Object_prototype : JsObject :=
  [("constructor", JFun "Object");
   ("__defineGetter__", JFun "Object.prototype.__defineGetter__");
   ("__defineSetter__", JFun "Object.prototype.__defineSetter__");
   ("hasOwnProperty", JFun "Object.prototype.hasOwnProperty");
   ("__lookupGetter__", JFun "Object.prototype.__lookupGetter__");
   ("__lookupSetter__", JFun "Object.prototype.__lookupSetter__");
   ("isPrototypeOf", JFun "Object.prototype.isPrototypeOf");
   ("propertyIsEnumerable", JFun "Object.prototype.propertyIsEnumerable");
   ("toString", JFun "Object.prototype.toString");
   ("valueOf", JFun "Object.prototype.valueOf");
   ("toLocaleString", JFun "Object.prototype.toLocaleString")].

(** What a plain object has under a key it does not own; [__proto__] is
    the prototype itself. *)
Definition inherited (k : string) : option JsVal :=
  if String.eqb k "__proto__" then Some (JMap Object_prototype)
  else Obj.lookup Object_prototype k.

(** [m[k]] for [k in m], [m] one of the tables of the mixin, a plain
    object: what was assigned under the key, or else what the object
    inherits under it. *)
Definition js_lookup (m : gmap string JsVal) (k : string) : option JsVal :=
  match m !! k with
  | Some v => Some v
  | None => inherited k
  end.

(** [k in m] *)
Definition js_in (k : string) (m : gmap string JsVal) : bool :=
  bool_decide (is_Some (js_lookup m k)).

(** The class [qx.util.Validate], the [this] of a call of one of its
    statics; a class is not made by [new] and has no identity of its
    own. *)
Definition qx_util_Validate_class : JsVal := JObj "qx.util.Validate" 0.

Section MForm.
Variable env : Env.

(** [f.call(this, args)] *)
Definition invoke (f : FnId) (this : JsVal) (args : list JsVal) : M JsVal :=
  s ← gets id;
  let o := js_call env f this args s in
  modify (fun s => set_next_id (next_id s + out_created o) s) ;;
  modify (fun s =>
    set_log (log s ++ EInvoke f this args (out_result o) :: out_events o) s) ;;
  match out_result o with
  | inl e => throw e
  | inr v => mret v
  end.

(** [v.call(this, args)] *)
Definition call_value (v : JsVal) (this : JsVal) (args : list JsVal)
  : M JsVal :=
  match v with
  | JFun f => invoke f this args
  | _ => throw (TypeError "is not a function")
  end.

(** *** Statics (lines 280-305) *)

Definition registerFormElementHandlers (fieldType : string)
    (handlers : JsVal) : M unit :=
  (* Downcase the field type as it is case-insensitive *)
  let fieldType := toLowerCase fieldType in
  (* Add the handlers for this field type *)
  modify (fun s =>
    set_registeredFormElements
      (<[fieldType := handlers]> (_registeredFormElements s)) s).

(** Modelled from the spec: [qxl.dialog.Dialog.registerFormElementHandlers],
    which the element classes call, is not among the sources.  The spec
    has one dispatch table, the registry of field-type handlers, so the
    call is taken to forward to the static of the mixin. *)
Definition Dialog_registerFormElementHandlers (fieldType : string)
    (handlers : JsVal) : M unit :=
  registerFormElementHandlers fieldType handlers.

(** [cls.register()], as in TextArea.js line 20 and GroupHeader.js
    line 30: no argument, the field type is the one of the class. *)
Definition register (cls : ElementClass) : M unit :=
  Dialog_registerFormElementHandlers (cls_fieldType cls)
    (cls_registration cls).

(** *** Members *)

(** lines 327-331: the body of the loop over the internal table *)
Definition register_internal (entry : string * ElementClass) : M unit :=
  let '(fieldType, cls) := entry in
  (* Register this internal type, but don't overwrite a
     user-provided registration *)
  registered ← gets _registeredFormElements;
  when (negb (js_in fieldType registered)) (register cls).

(** lines 314-337 *)
Definition _init : M unit :=
  modify (set_formElements (Some ∅)) ;;
  (* Register the internal form elements (once) *)
  internal ← gets _internalFormElements;
  match internal with
  | Some table =>
      for_each table register_internal ;;
      (* Prevent reinitializing this for the lifetime of this app *)
      modify (set_internalFormElements None)
  | None => mret tt
  end.

(** lines 343-345 *)
Definition getForm : M (option ObjId) := gets _form.

(** lines 727-733 *)
Definition _onFormReady (form : ObjId) : M unit :=
  okButton ← gets _okButton;
  call (RSub (RObj form) "getValidationManager") "bind"
    [JStr "valid"; okButton; JStr "enabled";
     JMap [("converter", JFun "value || false")]].

(** *** [_applyFormData], lines 418-700 *)

(** lines 425-439: the previous controller, form and rendered view *)
Definition dispose_previous : M unit :=
  fc ← gets _formController;
  match fc with
  | Some controller =>
      try_catch
        (m ← gets model; m ← deref m;
         call (RObj m) "removeAllBindings" [] ;;
         call (RObj controller) "dispose" [])
        (fun _ => mret tt)
  | None => mret tt
  end ;;
  f ← gets _form;
  match f with
  | Some form =>
      try_catch
        (call (RSub (RObj form) "getValidationManager")
           "removeAllBindings" [] ;;
         call (RObj form) "dispose" [])
        (fun _ => mret tt)
  | None => mret tt
  end ;;
  c ← gets _formContainer; c ← deref c;
  call (RObj c) "removeAll" [].

(** lines 447-452: a property per own key, [null] for a missing value *)
Fixpoint build_modelData (formData : JsObject) (keys : list string)
    (modelData : JsObject) : M JsObject :=
  match keys with
  | [] => mret modelData
  | key :: keys' =>
      value ← get_prop (Obj.get formData key) "value";
      build_modelData formData keys'
        (Obj.set modelData key
           (if negb (is_undefined value) then value else JNull))
  end.

(** lines 443-454 *)
Definition create_model (formData : JsObject) : M unit :=
  m ← gets model;
  match m with
  | Some old_model =>
      call (RObj old_model) "removeAllBindings" [] ;;
      call (RObj old_model) "dispose" []
  | None => mret tt
  end ;;
  modelData ← build_modelData formData (Obj.keys formData) [];
  m ← fresh_id;
  emit (ECreateModel m modelData) ;;
  modify (set_model (Some m)).

(** lines 470-483 *)
Definition call_formReadyFunction (form : ObjId) : M unit :=
  f ← gets formReadyFunction;
  if truthy f then
    ctx ← gets context;
    call_value f ctx [JObj "qx.ui.form.Form" form; this_val] ;;
    mret tt
  else
    ctx ← gets context;
    call RThis "addListenerOnce"
      [JStr "formReadyFunctionChanged";
       JFun "call the form ready function"; ctx].

(** lines 456-463: the form and the controller of the model *)
Definition create_form : M ObjId :=
  form ← new "qx.ui.form.Form" [];
  modify (set_form (Some form)) ;;
  when (module_objectid env)
    (owned ← gets ownedQxObjects;
     (* this.getQxObject("form") *)
     when (bool_decide (is_Some (owned !! "form")))
       (call RThis "removeOwnedQxObject" [JStr "form"] ;;
        modify (fun s =>
          set_ownedQxObjects (delete "form" (ownedQxObjects s)) s)) ;;
     call RThis "addOwnedQxObject"
       [JObj "qx.ui.form.Form" form; JStr "form"] ;;
     modify (fun s =>
       set_ownedQxObjects (<["form" := form]> (ownedQxObjects s)) s)) ;;
  m ← gets model;
  controller ← new "qx.data.controller.Object"
    [match m with Some m => JObj "qx.core.Object" m | None => JNull end];
  modify (set_formController (Some controller)) ;;
  mret form.

(** lines 464-483 *)
Definition form_ready (form : ObjId) : M unit :=
  _onFormReady form ;;
  (* hooks for subclasses or users to do something with the new form *)
  _onFormReady form ;;
  call_formReadyFunction form.

(** lines 530-540: a validator given as a string *)
Definition string_validator (validator : string) (validation : JsVal)
    : M ValidatorVal :=
  let member := qx_util_Validate env validator in
  if truthy member then
    made ← call_value member qx_util_Validate_class [];
    mret (VRaw made)
  else if String.eqb (charAt0 validator) "/" then
    let pattern := substr_1_len_minus_2 validator in
    (if RegExp_compiles env pattern then mret tt
     else throw (SyntaxError "Invalid regular expression")) ;;
    errorMessage ← get_prop validation "errorMessage";
    mret (VRegExp pattern errorMessage)
  else
    call RThis "error" [JStr "Invalid string validator."] ;;
    mret (VRaw (JStr validator)).

(** lines 527-544: sync validation *)
Definition sync_validator (validation : JsVal) : M ValidatorVal :=
  v ← get_prop validation "validator";
  if truthy v then
    match v with
    | JStr s => string_validator s validation
    | _ =>
        when (negb (instanceof v "qx.ui.form.validation.AsyncValidator")
              && negb (String.eqb (js_typeof v) "function"))
          (call RThis "error" [JStr "Invalid validator."]) ;;
        mret (VRaw v)
    end
  else mret (VRaw JNull).

(** lines 545-580: async validation, which replaces the sync validator *)
Definition async_validator (validation : JsVal) (validator : ValidatorVal)
    : M ValidatorVal :=
  proxy ← get_prop validation "proxy";
  method ← get_prop validation "method";
  match proxy, method with
  | JStr proxy, JStr method =>
      (* clean *)
      let proxy := remove_semicolon_newline proxy in
      proxy ← try_catch
        (match js_eval env ("proxy = " ++ proxy ++ ";") with
         | inr v => mret v
         | inl e => throw e
         end)
        (fun _ => call RThis "warn" [JStr "Invalid proxy name"] ;;
                  mret (JStr proxy));
      match proxy with
      | JFun proxy =>
          message ← get_prop validation "invalidMessage";
          mret (VAsync proxy method message)
      | _ => mret validator
      end
  | _, _ => mret validator
  end.

(** lines 521-581: the validator of a field *)
Definition field_validator (fieldData formElement : JsVal)
    : M ValidatorVal :=
  validation ← get_prop fieldData "validation";
  if truthy formElement && truthy validation then
    (* required field *)
    required ← get_prop validation "required";
    when (truthy required) (call_on formElement "setRequired" [JBool true]) ;;
    validator ← sync_validator validation;
    async_validator validation validator
  else mret (VRaw JNull).

(** [if (fieldData.k !== undefined) formElement.setter(fieldData.k)] *)
Definition set_if_defined (fieldData formElement : JsVal)
    (k setter : string) : M unit :=
  v ← get_prop fieldData k;
  when (negb (is_undefined v)) (call_on formElement setter [v]).

(** lines 587-610: other widget properties *)
Definition widget_properties (fieldData formElement : JsVal) : M unit :=
  set_if_defined fieldData formElement "width" "setWidth" ;;
  set_if_defined fieldData formElement "placeholder" "setPlaceholder" ;;
  set_if_defined fieldData formElement "toolTipText" "setToolTipText" ;;
  set_if_defined fieldData formElement "enabled" "setEnabled" ;;
  (* generic property setter *)
  properties ← get_prop fieldData "properties";
  when (String.eqb (js_typeof properties) "object")
    (call_on formElement "set" [properties]).

(** [Object.keys(v)] *)
Definition Object_keys (v : JsVal) : M (list string) :=
  match v with
  | JUndefined | JNull => throw (TypeError "Cannot convert to object")
  | JMap o => mret (Obj.keys o)
  | _ => mret []
  end.

(** lines 619-625: generic userdata settings *)
Definition userdata_settings (fieldData formElement : JsVal) : M unit :=
  userdata ← get_prop fieldData "userdata";
  when (String.eqb (js_typeof userdata) "object")
    (keys ← Object_keys userdata;
     for_each keys (fun key =>
       v ← get_prop userdata key;
       call_on formElement "setUserData" [JStr key; v])).

(** What [for (k in v)] walks, with the values [v[k]]: the properties of
    a plain object, the members of a toolkit object. *)
Definition for_in (v : JsVal) : JsObject :=
  match v with
  | JMap o => o
  | JObj cls o => members_of env cls o
  | _ => []
  end.

(** lines 630-652: events *)
Definition add_listeners (fieldData formElement : JsVal) (key : string)
    : M unit :=
  events ← get_prop fieldData "events";
  when (isObject events)
    (let handlers := for_in events in
     for_each (Obj.keys handlers) (fun type =>
       try_catch
         (let h := Obj.get handlers type in
          func ← match h with
                 | JStr code =>
                     (* A string allows transferring this handler via JSON. *)
                     match js_eval env ("(" ++ code ++ ")") with
                     | inr v => mret v
                     | inl e => throw e
                     end
                 | JFun _ => mret h
                 | _ => throw (Error "Event handler must be a string eval()'ed to a function (deprecated), or a function")
                 end;
          call_on formElement "addListener" [JStr type; func; formElement])
         (fun _ =>
            call RThis "warn"
              [JStr ("Invalid '" ++ type ++
                     "' event handler for form element '" ++ key ++ "'.")]))).

(** [a || b] *)
Definition js_or (a b : JsVal) : JsVal := if truthy a then a else b.

(** line 666: [this._formElements[key] = formElement] *)
Definition record_formElement (key : string) (formElement : JsVal)
    : M unit :=
  fe ← gets _formElements; elements ← deref fe;
  modify (set_formElements (Some (<[key := formElement]> elements))).

(** lines 654-666: putting it all together *)
Definition add_to_form (fieldData formElement : JsVal) (key : string)
    (validator : ValidatorVal) : M unit :=
  label ← get_prop fieldData "label";
  f ← gets _form; form ← deref f;
  emit (EFormAdd form formElement (js_or label (JStr "")) validator) ;;
  (* Add the form elements as objects owned by the form widget *)
  when (module_objectid env)
    (call_on formElement "setQxObjectId" [JStr key] ;;
     call (RObj form) "addOwnedQxObject" [formElement]) ;;
  (* add the form element to the map so the user has access to it later *)
  record_formElement key formElement.

(** lines 508-666: the body of the loop, once the handler has returned
    a form element *)
Definition configure_field (handlers : JsVal) (fieldType : string)
    (fieldData : JsVal) (key : string) (formElement : JsVal) : M unit :=
  (* Save the key *)
  call_on formElement "setUserData" [JStr "key"; JStr key] ;;
  (* Add the form element to the form controller, if needed *)
  addToFormController ← get_prop handlers "addToFormController";
  when (truthy addToFormController)
    (call_value addToFormController this_val
       [JStr fieldType; fieldData; JStr key; formElement] ;;
     mret tt) ;;
  validator ← field_validator fieldData formElement;
  widget_properties fieldData formElement ;;
  (* Do any required post-processing *)
  has_postProcess ← has_prop "postProcess" handlers;
  when has_postProcess
    (postProcess ← get_prop handlers "postProcess";
     call_value postProcess this_val
       [JStr fieldType; fieldData; JStr key; formElement] ;;
     mret tt) ;;
  userdata_settings fieldData formElement ;;
  add_listeners fieldData formElement key ;;
  add_to_form fieldData formElement key validator.

(** lines 486-666: the body of the loop over the own keys *)
Definition add_field (formData : JsObject) (key : string) : M unit :=
  let fieldData := Obj.get formData key in
  type ← get_prop fieldData "type";
  match type with
  | JStr type =>
      let fieldType := toLowerCase type in
      (* Ensure the field type is registered *)
      registered ← gets _registeredFormElements;
      match js_lookup registered fieldType with
      | None => throw (Error ("Field type " ++ fieldType ++ " is unknown"))
      | Some handlers =>
          (* Instantiate and initialize the form element *)
          initElement ← get_prop handlers "initElement";
          formElement ← call_value initElement this_val
                          [JStr fieldType; fieldData; JStr key];
          (* Headers don't return a form element *)
          if negb (truthy formElement) then mret tt
          else configure_field handlers fieldType fieldData key formElement
      end
  | _ => throw (Error "Missing type member {String}")
  end.

(** lines 485-667 *)
Definition add_fields (formData : JsObject) : M unit :=
  for_each (Obj.keys formData) (add_field formData).

(** [this._form], as an argument *)
Definition form_val (f : option ObjId) : JsVal :=
  match f with
  | Some form => JObj "qx.ui.form.Form" form
  | None => JNull
  end.

(** lines 677-688: the renderer used when the user gives none *)
Definition default_setupFormRenderer : M JsVal :=
  f ← gets _form;
  view ← new "qxl.dialog.FormRenderer" [form_val f];
  w ← gets labelColumnWidth;
  let layout := RSub (RObj view) "getLayout" in
  call layout "setColumnFlex" [JNum 0; JNum 0] ;;
  call layout "setColumnMaxWidth" [JNum 0; JNum w] ;;
  call layout "setColumnWidth" [JNum 0; JNum w] ;;
  call layout "setColumnFlex" [JNum 1; JNum 1] ;;
  call (RObj view) "setAllowGrowX" [JBool true] ;;
  mret (JObj "qxl.dialog.FormRenderer" view).

(** lines 670-699: render the form *)
Definition render_form : M unit :=
  setupFormRenderer ← gets setupFormRendererFunction;
  c ← gets _formContainer; c ← deref c;
  f ← gets _form;
  view ← (if negb (truthy setupFormRenderer)
          then default_setupFormRenderer
          else call_value setupFormRenderer this_val [form_val f]);
  call (RObj c) "add" [view] ;;
  f ← gets _form; form ← deref f;
  call (RSub (RObj form) "getValidationManager") "validate" [] ;;
  finalizeFunction ← gets finalizeFunction;
  when (truthy finalizeFunction)
    (ctx ← gets context;
     f ← gets _form;
     call_value finalizeFunction ctx [form_val f; this_val] ;;
     mret tt).

(** lines 418-700.  [formData] is the new value of the property: a map,
    or [null]. *)
Definition _applyFormData (formData : option JsObject) : M unit :=
  fe ← gets _formElements;
  when (negb (bool_decide (is_Some fe)))
    (* KLUDGE for issue #10068 *)
    _init ;;
  dispose_previous ;;
  match formData with
  | None => mret tt
  | Some formData =>
      create_model formData ;;
      form ← create_form;
      form_ready form ;;
      add_fields formData ;;
      render_form
  end.

(** lines 739-749.  The [callback] property is declared by the dialog
    class the mixin is used in, nullable and without an initial value:
    [resetCallback()] leaves it [null]. *)
Definition _handleOk : M unit :=
  call RThis "hide" [] ;;
  call RThis "fireEvent" [JStr "ok"] ;;
  cb ← gets callback;
  when (truthy cb)
    (ctx ← gets context;
     m ← gets model;
     s ← gets id;
     call_value cb ctx [toNativeObject env s m] ;; mret tt) ;;
  (* this.resetCallback() *)
  modify (set_callback JNull).
End MForm.

(** ** The validation function of the async validator (lines 569-577) *)

Module AsyncValidator.
(** The validator object, as far as the validation function uses it:
    its [__asyncInProgress] member and the calls of [setValid]. *)
Record t : Type := {
  asyncInProgress : bool;
  setValid_calls : list (JsVal * JsVal)
}.

(** A fresh validator: the member is [undefined]. *)
Definition fresh : t :=
  {| asyncInProgress := false; setValid_calls := [] |}.

(** [proxy(method, [value], callback)] *)
Inductive ProxyCall : Type :=
| proxy_call (proxy : FnId) (method : string) (params : list JsVal).

(** lines 569-577: the validator after the call, and the calls of the
    proxy that were made *)
Definition validationFunc (proxy : FnId) (method : string)
    (validatorObj : t) (value : JsVal) : t * list ProxyCall :=
  if negb (asyncInProgress validatorObj) then
    ({| asyncInProgress := true;
        setValid_calls := setValid_calls validatorObj |},
     [proxy_call proxy method [value]])
  else (validatorObj, []).

(** lines 572-575: the function handed to the proxy.  [this_tr] is the
    [tr] method of the object the proxy calls it on, when it has one. *)
Definition callback (message : JsVal) (this_tr : option (string -> string))
    (validatorObj : t) (valid : JsVal) : Exn + t :=
  let report msg :=
    {| asyncInProgress := false;
       setValid_calls := setValid_calls validatorObj ++ [(valid, msg)] |} in
  if truthy message then inr (report message)
  else
    match this_tr with
    | Some tr => inr (report (JStr (tr "Value is invalid")))
    | None => inl (TypeError "this.tr is not a function")
    end.

(** What happens to a validator: the form validates a value, or the
    proxy answers. *)
Inductive Action : Type :=
| Validate (value : JsVal)
| Answer (this_tr : option (string -> string)) (valid : JsVal).

Definition step (proxy : FnId) (method : string) (message : JsVal)
    (v : t) (a : Action) : t * list ProxyCall :=
  match a with
  | Validate value => validationFunc proxy method v value
  | Answer this_tr valid =>
      match callback message this_tr v valid with
      | inr v' => (v', [])
      | inl _ => (v, [])
      end
  end.

Fixpoint run (proxy : FnId) (method : string) (message : JsVal)
    (v : t) (actions : list Action) : t * list ProxyCall :=
  match actions with
  | [] => (v, [])
  | a :: actions' =>
      let '(v1, calls1) := step proxy method message v a in
      let '(v2, calls2) := run proxy method message v1 actions' in
      (v2, calls1 ++ calls2)
  end.


End AsyncValidator.

(** ** The form element classes of the sources *)

(** [a * 16]; strings are not converted to numbers. *)
Definition times_16 (a : JsVal) : JsVal :=
  match a with
  | JNum n => JNum (n * 16)
  | JNull | JBool false => JNum 0
  | JBool true => JNum 16
  | _ => JNaN
  end.

Module TextArea.
(** formElement/TextArea.js, lines 25-32 *)
Definition initElement (args : list JsVal) (s : St) : Outcome :=
  let fieldData := nth 1 args JUndefined in
  let o := next_id s in
  match fieldData with
  | JUndefined | JNull =>
      {| out_events := [ENew o "qx.ui.form.TextArea" []];
         out_created := 1;
         out_result := inl (TypeError "undefined has no properties") |}
  | _ =>
      let lines :=
        match fieldData with JMap m => Obj.get m "lines" | _ => JUndefined end in
      {| out_events :=
           [ENew o "qx.ui.form.TextArea" [];
            ECall (RObj o) "setHeight" [times_16 lines];
            ECall (RObj o) "setLiveUpdate" [JBool true]];
         out_created := 1;
         out_result := inr (JObj "qx.ui.form.TextArea" o) |}
  end.

(** lines 34-41 *)
Definition addToFormController (args : list JsVal) (s : St) : Outcome :=
  let key := nth 2 args JUndefined in
  let formElement := nth 3 args JUndefined in
  match _formController s with
  | Some controller =>
      {| out_events :=
           [ECall (RObj controller) "addTarget"
              [formElement; JStr "value"; key; JBool true; JNull;
               JMap [("converter", JFun "validate and return the value")]]];
         out_created := 0;
         out_result := inr JUndefined |}
  | None =>
      {| out_events := []; out_created := 0;
         out_result := inl (TypeError "null has no properties") |}
  end.

(** lines 24-42 *)
Definition _registration : JsVal :=
  JMap [("initElement", JFun "TextArea.initElement");
        ("addToFormController", JFun "TextArea.addToFormController")].

(** lines 20-22 *)
Definition class : ElementClass :=
  {| cls_fieldType := "textarea"; cls_registration := _registration |}.
End TextArea.

Module GroupHeader.
(** formElement/GroupHeader.js, lines 34-42.  The function is bound, by
    [.bind(this)], to the [this] of the file, which has no [_form]: the
    dummy field is made, and [this._form.addGroupHeader] throws. *)
Definition initElement (args : list JsVal) (s : St) : Outcome :=
  let o := next_id s in
  {| out_events :=
       [ENew o "qx.ui.form.TextField" [];
        ECall (RObj o) "setUserData" [JStr "excluded"; JBool true]];
     out_created := 1;
     out_result := inl (TypeError "undefined has no properties") |}.

(** lines 33-43 *)
Definition _registration : JsVal :=
  JMap [("initElement", JFun "GroupHeader.initElement")].

(** lines 30-32 *)
Definition class : ElementClass :=
  {| cls_fieldType := "groupheader"; cls_registration := _registration |}.
End GroupHeader.

(** MForm.js, lines 291-304: the table of the internal form elements, in
    the order of its keys.  Ten of the twelve classes are not among the
    sources; the table takes them as arguments. *)
Definition internalFormElements
    (CheckBox ComboBox DateField Label List PasswordField RadioGroup
     SelectBox Spinner TextField : ElementClass)
    : list (string * ElementClass) :=
  [("checkbox", CheckBox);
   ("combobox", ComboBox);
   ("datefield", DateField);
   ("groupheader", GroupHeader.class);
   ("label", Label);
   ("list", List);
   ("passwordfield", PasswordField);
   ("radiogroup", RadioGroup);
   ("selectbox", SelectBox);
   ("spiinner", Spinner);
   ("textarea", TextArea.class);
   ("textfield", TextField)].

(** ** An environment and a dialog for examples *)

Module Example.
(** A form element class written as the two of the sources are: its
    [register()] names its own field type. *)
Definition element_class (fieldType : string) : ElementClass :=
  {| cls_fieldType := fieldType;
     cls_registration :=
       JMap [("initElement", JFun (fieldType ++ ".initElement")%string)] |}.

(** The internal table, over a Spinner class. *)
Definition table (Spinner : ElementClass) : list (string * ElementClass) :=
  internalFormElements
    (element_class "checkbox") (element_class "combobox")
    (element_class "datefield") (element_class "label")
    (element_class "list") (element_class "passwordfield")
    (element_class "radiogroup") (element_class "selectbox")
    Spinner (element_class "textfield").

(** A widget of class [cls] is made and returned. *)
Definition make_widget (cls : string) (s : St) : Outcome :=
  {| out_events := [ENew (next_id s) cls []];
     out_created := 1;
     out_result := inr (JObj cls (next_id s)) |}.

Definition returns (v : JsVal) : Outcome :=
  {| out_events := []; out_created := 0; out_result := inr v |}.

Definition throws (e : Exn) : Outcome :=
  {| out_events := []; out_created := 0; out_result := inl e |}.

(** The statics of [qx.util.Validate]: the factories, which return a
    validator, and the checks, which throw when they are called with no
    value. *)
Definition factories : list string :=
  ["number"; "email"; "string"; "url"; "color"; "range"; "inArray"; "regExp"].

Definition checks : list string :=
  ["checkNumber"; "checkEmail"; "checkString"; "checkUrl"; "checkColor"].

Definition static_of_Validate (names : list string) (f : FnId) : bool :=
  existsb (fun name => String.eqb f ("qx.util.Validate." ++ name)%string)
    names.

Definition functions (f : FnId) (this : JsVal) (args : list JsVal) (s : St)
    : Outcome :=
  if String.eqb f "TextArea.initElement" then
    TextArea.initElement args s
  else if String.eqb f "TextArea.addToFormController" then
    TextArea.addToFormController args s
  else if String.eqb f "GroupHeader.initElement" then
    GroupHeader.initElement args s
  else if String.eqb f "spinner.initElement" then
    make_widget "qx.ui.form.Spinner" s
  else if String.eqb f "textfield.initElement" then
    make_widget "qx.ui.form.TextField" s
  else if String.eqb f "user.slider.initElement" then
    make_widget "qx.ui.form.Slider" s
  else if String.eqb f "user.header.initElement" then
    returns JNull
  else if String.eqb f "user.failing.callback" then
    throws (Error "The callback failed")
  else if static_of_Validate factories f then
    returns (JFun (f ++ "()")%string)
  else if static_of_Validate checks f then
    throws (Error "The value is not valid")
  else returns JUndefined.

Definition env : Env :=
  {| module_objectid := false;
     qx_util_Validate := fun name =>
       if existsb (String.eqb name) (factories ++ checks)
       then JFun ("qx.util.Validate." ++ name)%string
       else if String.eqb name "classname" then JStr "qx.util.Validate"
       else JUndefined;
     RegExp_compiles := fun _ => true;
     js_eval := fun text =>
       if String.eqb text "proxy = rpc.send;" then inr (JFun "rpc.send")
       else inl (SyntaxError "Unexpected token");
     js_call := functions;
     toNativeObject := fun _ m =>
       match m with
       | Some m => JObj "Object" m
       | None => JNull
       end;
     members_of := fun cls _ =>
       [("classname", JStr cls);
        ("dispose", JFun "qx.core.Object.dispose")] |}.

(** The dialog after [_createWidgetContent]: the form container and the
    buttons exist, nothing was registered, no form data was applied. *)
Definition start_with (Spinner : ElementClass) : St :=
  {| _registeredFormElements := ∅;
     _internalFormElements := Some (table Spinner);
     _formContainer := Some 1;
     _form := None;
     _formController := None;
     _formElements := None;
     _okButton := JObj "qx.ui.form.Button" 2;
     model := None;
     context := JNull;
     callback := JNull;
     formReadyFunction := JNull;
     setupFormRendererFunction := JNull;
     finalizeFunction := JNull;
     labelColumnWidth := 100;
     ownedQxObjects := ∅;
     next_id := 3;
     log := [] |}.

(** The Spinner class registers "spinner", as the classes of the sources
    register their names. *)
Definition start : St := start_with (element_class "spinner").

Definition text_area (label : string) (lines : Z) : JsVal :=
  JMap [("type", JStr "TextArea"); ("label", JStr label);
        ("lines", JNum lines)].
End Example.

(** [this._formElements[key]], as the user of the dialog reads it. *)
Definition element_of (s : St) (key : string) : option JsVal :=
  fe ← _formElements s; fe !! key.

(** ** The vocabulary of the statements *)

(** [preserves R m]: a run of [m], returning or throwing, takes a state
    to one related to it by [R]. *)
Definition preserves {A} (R : relation St) (m : M A) : Prop :=
  forall s, R s (final (m s)).

(** Relations that all toolkit calls respect: the log is extended, fresh
    identities are taken. *)
Class Frame (R : relation St) : Prop := {
  frame_pre :: PreOrder R;
  frame_log : forall s l, R s (set_log (log s ++ l) s);
  frame_next : forall s k, R s (set_next_id (next_id s + k) s)
}.

(** Relations that respect the assignment of a field. *)
Class Allows {A} (set : A -> St -> St) (R : relation St) : Prop :=
  allows : forall v s, R s (set v s).

(** Only toolkit calls were made: the log was extended and identities
    were taken, nothing else changed. *)
Definition calls_only : relation St := fun s s' =>
  exists l k, s' = set_log (log s ++ l) (set_next_id (next_id s + k) s).

(** The log was extended. *)
Definition log_ext : relation St := fun s s' =>
  exists l, log s' = log s ++ l.

(** A field was not assigned. *)
Definition same_on {A} (f : St -> A) : relation St := fun s s' => f s' = f s.

(** What the loop over the fields and the rendering leave as it is. *)
Definition built_kept : relation St := fun s s' =>
  model s' = model s /\
  _form s' = _form s /\
  _formController s' = _formController s /\
  _formContainer s' = _formContainer s /\
  _registeredFormElements s' = _registeredFormElements s /\
  next_id s <= next_id s' /\
  (is_Some (_formElements s) -> is_Some (_formElements s')) /\
  exists l, log s' = log s ++ l.

(** The elements recorded under keys other than those of [K] are as they
    were. *)
Definition kept_outside (K : list string) : relation St := fun s s' =>
  forall key, ~ In key K -> element_of s' key = element_of s key.

(** [v.k], for a value that has properties. *)
Definition prop (v : JsVal) (k : string) : JsVal :=
  match v with
  | JMap o => Obj.get o k
  | _ => JUndefined
  end.

(** The calls of lines 425-439 on the previous model [m], controller [c],
    form [f] and on the form container [k]. *)
Definition teardown_calls (m c f k : ObjId) : list Event :=
  [ECall (RObj m) "removeAllBindings" [];
   ECall (RObj c) "dispose" [];
   ECall (RSub (RObj f) "getValidationManager") "removeAllBindings" [];
   ECall (RObj f) "dispose" [];
   ECall (RObj k) "removeAll" []].

(** The table of registered handlers after the loop of [_init] over the
    internal table. *)
Fixpoint registered_after (table : list (string * ElementClass))
    (registered : gmap string JsVal) : gmap string JsVal :=
  match table with
  | [] => registered
  | (fieldType, cls) :: table' =>
      registered_after table'
        (if js_in fieldType registered then registered
         else <[toLowerCase (cls_fieldType cls) := cls_registration cls]>
                registered)
  end.

(** The state after the test of lines 419-423. *)
Definition initialised (s : St) : St :=
  match _formElements s with
  | Some _ => s
  | None => final (_init s)
  end.

(** Lines 419-483 of [_applyFormData], for a map: what runs before the
    loop over the fields. *)
Definition before_fields (env : Env) (formData : JsObject) : M unit :=
  fe ← gets _formElements;
  when (negb (bool_decide (is_Some fe))) _init ;;
  dispose_previous ;;
  create_model formData ;;
  form ← create_form env;
  form_ready env form.

(** [_applyFormData] on a map, after the test of lines 419-423. *)
Definition rebuild (env : Env) (formData : JsObject) : M unit :=
  dispose_previous ;;
  create_model formData ;;
  form ← create_form env;
  form_ready env form ;;
  add_fields env formData ;;
  render_form env.

(** The state once the previous model, if any, was disposed (lines
    443-446). *)
Definition previous_model_disposed (s : St) : St :=
  match model s with
  | Some old =>
      set_log (log s ++ [ECall (RObj old) "removeAllBindings" [];
                         ECall (RObj old) "dispose" []]) s
  | None => s
  end.

(** The value of the property of the model made for a field. *)
Definition initial_value (fieldData : JsVal) : JsVal :=
  match fieldData with
  | JMap props =>
      let value := Obj.get props "value" in
      if negb (is_undefined value) then value else JNull
  | _ => JNull
  end.

(** Lines 447-452 as a function: the model data, unless an entry of the
    form data is [null] or [undefined]. *)
Fixpoint modelData_from (formData : JsObject) (keys : list string)
    (modelData : JsObject) : option JsObject :=
  match keys with
  | [] => Some modelData
  | key :: keys' =>
      match Obj.get formData key with
      | JUndefined | JNull => None
      | fieldData =>
          modelData_from formData keys'
            (Obj.set modelData key (initial_value fieldData))
      end
  end.

(** The premise of the async validation of lines 546-566: [proxy] and
    [method] are strings and the cleaned proxy text evaluates to a
    function.  The function and the method, when it holds. *)
Definition proxy_function (env : Env) (validation : JsObject)
    : option (FnId * string) :=
  match Obj.get validation "proxy", Obj.get validation "method" with
  | JStr proxy, JStr method =>
      match js_eval env ("proxy = " ++ remove_semicolon_newline proxy ++ ";") with
      | inr (JFun f) => Some (f, method)
      | _ => None
      end
  | _, _ => None
  end.

(** The state after [f.call(this, args)] was evaluated in the state [s]:
    the call and what it did are in the log. *)
Definition after_call (env : Env) (f : FnId) (this : JsVal)
    (args : list JsVal) (s : St) : St :=
  let o := js_call env f this args s in
  set_log (log s ++ EInvoke f this args (out_result o) :: out_events o)
    (set_next_id (next_id s + out_created o) s).

(** The state after line 524: [setRequired(true)] was called on the
    element when [validation.required] holds. *)
Definition required_set (validation : JsObject) (o : ObjId) (s : St) : St :=
  if truthy (Obj.get validation "required")
  then set_log (log s ++ [ECall (RObj o) "setRequired" [JBool true]]) s
  else s.


(** The [form.add] calls of a log. *)
Definition form_adds (l : list Event) : list Event :=
  List.filter
    (fun e => match e with EFormAdd _ _ _ _ => true | _ => false end) l.

Module AV := AsyncValidator.

(** The premise of the async validation, for any value of
    [fieldData.validation]: only a map has a [proxy] and a [method]. *)
Definition async_of (env : Env) (validation : JsVal)
    : option (FnId * string) :=
  match validation with
  | JMap m => proxy_function env m
  | _ => None
  end.

(** What the sync validation of lines 527-544 leaves in the local
    [validator]; [l] is what the lines added to the log, which has the
    call of the function of [qx.util.Validate], when there was one, and
    what it returned. *)
Definition sync_validator_of (env : Env) (validation : JsVal)
    (l : list Event) (validator : ValidatorVal) : Prop :=
  let v := prop validation "validator" in
  if negb (truthy v) then validator = VRaw JNull
  else
    match v with
    | JStr name =>
        let member := qx_util_Validate env name in
        if truthy member then
          exists g made,
            member = JFun g /\
            In (EInvoke g qx_util_Validate_class [] (inr made)) l /\
            validator = VRaw made
        else if String.eqb (charAt0 name) "/" then
          validator = VRegExp (substr_1_len_minus_2 name)
                        (prop validation "errorMessage")
        else validator = VRaw (JStr name)
    | _ => validator = VRaw v
    end.

(** The validator of a field that has a form element, as lines 517-580
    resolve it: the async validator when its premise holds, what the
    sync validation left otherwise. *)
Definition validator_of (env : Env) (fieldData : JsVal) (l : list Event)
    (validator : ValidatorVal) : Prop :=
  let validation := prop fieldData "validation" in
  match async_of env validation with
  | Some (f, method) =>
      validator = VAsync f method (prop validation "invalidMessage")
  | None => sync_validator_of env validation l validator
  end.

(** What the body of the loop does for the key [key] when it completes,
    from the state [s] in which the loop reaches the key to the state
    [s1] in which it goes on.  [table] is the table of registered
    handlers and [form] the form of the dialog; [s_end] is the state in
    which [_applyFormData] ends. *)
Definition field_added (env : Env) (fd : JsObject)
    (table : gmap string JsVal) (form : ObjId) (s_end : St)
    (key : string) (s s1 : St) : Prop :=
  let fieldData := Obj.get fd key in
  add_field env fd key s = Ok tt s1 /\
  _registeredFormElements s = table /\
  _form s = Some form /\
  exists type handlers init result,
    prop fieldData "type" = JStr type /\
    js_lookup table (toLowerCase type) = Some handlers /\
    prop handlers "initElement" = JFun init /\
    let args := [JStr (toLowerCase type); fieldData; JStr key] in
    let made := after_call env init this_val args s in
    out_result (js_call env init this_val args s) = inr result /\
    if truthy result then
      exists cls o validator l1 l2,
        result = JObj cls o /\
        log s1 = log made
                 ++ ECall (RObj o) "setUserData" [JStr "key"; JStr key]
                 :: l1
                 ++ EFormAdd form result
                      (if truthy (prop fieldData "label")
                       then prop fieldData "label" else JStr "")
                      validator
                 :: l2 /\
        validator_of env fieldData l1 validator /\
        element_of s1 key = Some result /\
        element_of s_end key = Some result
    else s1 = made.

(** [steps P keys s s']: from [s] to [s'] through the keys, in order. *)
Inductive steps (P : string -> St -> St -> Prop)
    : list string -> St -> St -> Prop :=
| steps_nil s : steps P [] s s
| steps_cons key keys s s1 s2 :
    P key s s1 -> steps P keys s1 s2 -> steps P (key :: keys) s s2.

(** ** The widget content and the label column *)

Definition set_formContainer (x : option ObjId) (s : St) : St :=
  {| _registeredFormElements := _registeredFormElements s;
     _internalFormElements := _internalFormElements s;
     _formContainer := x;
     _form := _form s;
     _formController := _formController s;
     _formElements := _formElements s;
     _okButton := _okButton s;
     model := model s;
     context := context s;
     callback := callback s;
     formReadyFunction := formReadyFunction s;
     setupFormRendererFunction := setupFormRendererFunction s;
     finalizeFunction := finalizeFunction s;
     labelColumnWidth := labelColumnWidth s;
     ownedQxObjects := ownedQxObjects s;
     next_id := next_id s;
     log := log s |}.

Definition set_setupFormRendererFunction (x : JsVal) (s : St) : St :=
  {| _registeredFormElements := _registeredFormElements s;
     _internalFormElements := _internalFormElements s;
     _formContainer := _formContainer s;
     _form := _form s;
     _formController := _formController s;
     _formElements := _formElements s;
     _okButton := _okButton s;
     model := model s;
     context := context s;
     callback := callback s;
     formReadyFunction := formReadyFunction s;
     setupFormRendererFunction := x;
     finalizeFunction := finalizeFunction s;
     labelColumnWidth := labelColumnWidth s;
     ownedQxObjects := ownedQxObjects s;
     next_id := next_id s;
     log := log s |}.

Definition set_okButton (x : JsVal) (s : St) : St :=
  {| _registeredFormElements := _registeredFormElements s;
     _internalFormElements := _internalFormElements s;
     _formContainer := _formContainer s;
     _form := _form s;
     _formController := _formController s;
     _formElements := _formElements s;
     _okButton := x;
     model := model s;
     context := context s;
     callback := callback s;
     formReadyFunction := formReadyFunction s;
     setupFormRendererFunction := setupFormRendererFunction s;
     finalizeFunction := finalizeFunction s;
     labelColumnWidth := labelColumnWidth s;
     ownedQxObjects := ownedQxObjects s;
     next_id := next_id s;
     log := log s |}.

(** The methods that [_createWidgetContent] calls on the dialog and that
    the mixin does not define: the class the mixin is included in has
    them.  They are not among the sources, and are taken as they come. *)
Record DialogClass : Type := {
  _createButtonPane : M JsVal;
  _createOkButton : M JsVal;
  _createCancelButton : M JsVal
}.

(** [v.getter().method(args)], [v] a widget *)
Definition call_on_sub (v : JsVal) (getter method : string)
    (args : list JsVal) : M unit :=
  match v with
  | JObj _ o => call (RSub (RObj o) getter) method args
  | JUndefined | JNull => throw (TypeError "undefined has no properties")
  | _ => throw (TypeError "is not a function")
  end.

Section Content.
Variable env : Env.
Variable dialog : DialogClass.

(** lines 377-379, 391-393, 406-408:
    [if (typeof properties.k == "function")
       properties.k.bind(properties.context)(widget, this)] *)
Definition call_hook (properties : JsVal) (k : string) (widget : JsVal)
    : M unit :=
  f ← get_prop properties k;
  when (String.eqb (js_typeof f) "function")
    (ctx ← get_prop properties "context";
     call_value env f ctx [widget; this_val] ;;
     mret tt).

(** lines 359-372: the container of the content, and the label of the
    message in a box of its own.  The label is [this._message]. *)
Definition message_area : M (ObjId * ObjId) :=
  container ← new "qx.ui.container.Composite" [];
  vbox ← new "qx.ui.layout.VBox" [JNum 10];
  call (RObj container) "setLayout" [JObj "qx.ui.layout.VBox" vbox] ;;
  hbox ← new "qx.ui.container.Composite" [];
  layout ← new "qx.ui.layout.HBox" [JNum 10];
  call (RObj hbox) "setLayout" [JObj "qx.ui.layout.HBox" layout] ;;
  call (RObj container) "add" [JObj "qx.ui.container.Composite" hbox] ;;
  call (RObj container) "setUserData"
    [JStr "messageHBox"; JObj "qx.ui.container.Composite" hbox] ;;
  message ← new "qx.ui.basic.Label" [];
  call (RObj message) "setRich" [JBool true] ;;
  call (RObj message) "setMinWidth" [JNum 200] ;;
  call (RObj message) "setAllowStretchX" [JBool true] ;;
  call (RObj hbox) "add"
    [JObj "qx.ui.basic.Label" message; JMap [("flex", JNum 1)]] ;;
  mret (container, message).

(** lines 381-386: the form container, wrapped in a form tag *)
Definition form_area (container : ObjId) : M unit :=
  formTag ← new "qxl.dialog.FormTag" [];
  formContainer ← new "qx.ui.container.Composite" [];
  modify (set_formContainer (Some formContainer)) ;;
  grow ← new "qx.ui.layout.Grow" [];
  call (RObj formContainer) "setLayout" [JObj "qx.ui.layout.Grow" grow] ;;
  call (RObj formTag) "add"
    [JObj "qx.ui.container.Composite" formContainer;
     JMap [("flex", JNum 1)]] ;;
  call (RObj container) "add"
    [JObj "qxl.dialog.FormTag" formTag; JMap [("flex", JNum 1)]].

(** lines 395-401: buttons *)
Definition button_area (container : ObjId) : M JsVal :=
  buttonPane ← _createButtonPane dialog;
  call (RObj container) "add" [buttonPane] ;;
  okButton ← _createOkButton dialog;
  call_on buttonPane "add" [okButton] ;;
  cancelButton ← _createCancelButton dialog;
  call_on buttonPane "add" [cancelButton] ;;
  mret buttonPane.

(** lines 351-410.  The function returns nothing; the result here is the
    label it assigns to [this._message], a member of the dialog class
    that the mixin does not read. *)
Definition _createWidgetContent (properties : JsVal) : M ObjId :=
  (* Handle properties that must be set before _applyFormData *)
  f ← get_prop properties "setupFormRendererFunction";
  when (truthy f) (modify (set_setupFormRendererFunction f)) ;;
  '(container, message) ← message_area;
  let container_val := JObj "qx.ui.container.Composite" container in
  (* If requested, call the before-form function to add some fields *)
  call_hook properties "beforeFormFunction" container_val ;;
  form_area container ;;
  (* If requested, call the after-form function to add some fields *)
  call_hook properties "afterFormFunction" container_val ;;
  buttonPane ← button_area container;
  (* If requested, call the after-buttons function *)
  call_hook properties "afterButtonsFunction" buttonPane ;;
  call RThis "add" [container_val] ;;
  mret message.
End Content.

(** lines 707-718.  [children] is what [this._formContainer.getChildren()]
    returns, an answer of the toolkit. *)
Definition _applyLabelColumnWidth (children : list JsVal) (width : JsVal)
    : M unit :=
  setupFormRenderer ← gets setupFormRendererFunction;
  formContainer ← gets _formContainer;
  (* If the form renderer is the default one and has already been
     applied... *)
  when (negb (truthy setupFormRenderer)
        && bool_decide (is_Some formContainer)
        && (0 <? length children)%nat)
    (let view := nth 0 children JUndefined in
     call_on_sub view "getLayout" "setColumnWidth" [JNum 0; width] ;;
     call_on_sub view "getLayout" "setColumnMaxWidth" [JNum 0; width]).

(** A dialog class for examples: the pane and the buttons are new
    widgets, and the OK button is kept in [_okButton]. *)
Module ExampleDialog.
Definition widget (cls : string) (args : list JsVal) : M JsVal :=
  o ← new cls args; mret (JObj cls o).

Definition class : DialogClass :=
  {| _createButtonPane := widget "qx.ui.container.Composite" [];
     _createOkButton :=
       b ← widget "qx.ui.form.Button" [JStr "OK"];
       modify (set_okButton b) ;; mret b;
     _createCancelButton := widget "qx.ui.form.Button" [JStr "Cancel"] |}.

(** A dialog that was constructed, before [_createWidgetContent]. *)
Definition constructed : St := set_formContainer None Example.start.
End ExampleDialog.

(** ** The renderer of mobile forms

    [qx.ui.mobile.form.renderer.SinglePlaceholder], in
    formElement/TextArea.js, lines 100-148: [addItems] puts the items of
    a form into rows, the name of an item as its placeholder when the
    item has one. *)

Module SinglePlaceholder.
(** An item of the form, as [addItems] looks at it. *)
Record Item : Type := {
  widget : JsVal;
  (* [item instanceof qx.ui.mobile.form.TextArea] *)
  is_TextArea : bool;
  (* [item.setPlaceholder !== undefined] *)
  has_setPlaceholder : bool;
  (* [item.isValid()] *)
  isValid : bool
}.

(** The calls that [addItems] makes, on the renderer, on a new row and
    on the items. *)
Inductive Call : Type :=
| addGroupHeader (title : JsVal)
    (* [this._addGroupHeader(title)] *)
| addToScrollContainer (item name : JsVal)
    (* [this._addToScrollContainer(item, name)] *)
| addRow (item name : JsVal) (layout : string)
    (* [this._addRow(item, name, new layout())] *)
| new_Row
    (* [row = new qx.ui.mobile.form.Row(new qx.ui.mobile.layout.HBox())] *)
| setPlaceholder (item name : JsVal)
    (* [item.setPlaceholder(name)] *)
| row_add (item : JsVal)
    (* [row.add(item, {flex: 1})] *)
| add_row
    (* [this._add(row)] *)
| showErrorForItem (item : JsVal).
    (* [this.showErrorForItem(item)] *)

(** [title != null] *)
Definition not_null (v : JsVal) : bool :=
  match v with JUndefined | JNull => false | _ => true end.

(** lines 122-140: the row of an item.  [nativescroll] is the setting
    "qx.mobile.nativescroll" of the environment. *)
Definition place (nativescroll : bool) (item : Item) (name : JsVal)
    : list Call :=
  if is_TextArea item then
    if negb nativescroll
    then [addToScrollContainer (widget item) name]
    else [addRow (widget item) name "qx.ui.mobile.layout.VBox"]
  else
    if negb (has_setPlaceholder item)
    then [addRow (widget item) name "qx.ui.mobile.layout.HBox"]
    else [new_Row; setPlaceholder (widget item) name;
          row_add (widget item); add_row].

(** lines 118-145: the loop, from the index [i] on; [items] are the
    items from there. *)
Fixpoint add_from (nativescroll : bool) (i : nat) (items : list Item)
    (names : list JsVal) : list Call :=
  match items with
  | [] => []
  | item :: items' =>
      let name := nth i names JUndefined in
      place nativescroll item name
      ++ (if negb (isValid item) then [showErrorForItem (widget item)]
          else [])
      ++ add_from nativescroll (S i) items' names
  end.

(** lines 113-146 *)
Definition addItems (nativescroll : bool) (items : list Item)
    (names : list JsVal) (title : JsVal) : list Call :=
  (if not_null title then [addGroupHeader title] else [])
  ++ add_from nativescroll 0 items names.

(** The item that a call puts into a row, and the name it is put there
    with: as the label of the row, or as the placeholder of the item. *)
Definition placed (c : Call) : option JsVal :=
  match c with
  | addToScrollContainer item _ | addRow item _ _ | row_add item => Some item
  | _ => None
  end.

Definition named (c : Call) : option JsVal :=
  match c with
  | addToScrollContainer _ name | addRow _ name _ | setPlaceholder _ name =>
      Some name
  | _ => None
  end.

Definition shown_invalid (c : Call) : option JsVal :=
  match c with showErrorForItem item => Some item | _ => None end.
End SinglePlaceholder.

Module SP := SinglePlaceholder.

(** ** More vocabulary *)

(** What the methods of the dialog class are taken to respect: they do
    not assign the form container or the function of the renderer,
    identities are taken and not given back, the log grows. *)
Definition container_kept : relation St := fun s s' =>
  _formContainer s' = _formContainer s /\
  setupFormRendererFunction s' = setupFormRendererFunction s /\
  next_id s <= next_id s' /\
  exists l, log s' = log s ++ l.

(** The methods of the dialog class return, the pane as a widget, and
    respect [container_kept]. *)
Definition makes_buttons (dialog : DialogClass) : Prop :=
  (forall s, exists cls o s',
     _createButtonPane dialog s = Ok (JObj cls o) s' /\
     container_kept s s') /\
  (forall s, exists v s',
     _createOkButton dialog s = Ok v s' /\ container_kept s s') /\
  (forall s, exists v s',
     _createCancelButton dialog s = Ok v s' /\ container_kept s s').

(** The hooks of [_createWidgetContent]. *)
Definition content_hooks : list string :=
  ["beforeFormFunction"; "afterFormFunction"; "afterButtonsFunction"].

(** The hooks that the properties give as functions return. *)
Definition hooks_return (env : Env) (props : JsObject) : Prop :=
  forall k f this args s,
    In k content_hooks ->
    Obj.get props k = JFun f ->
    exists v, out_result (js_call env f this args s) = inr v.

(** Lines 632-646: the listener that is added for an event handler, when
    there is one: a function as it is, a string evaluated in
    parentheses. *)
Definition listener_of (env : Env) (handler : JsVal) : option JsVal :=
  match handler with
  | JStr code =>
      match js_eval env ("(" ++ code ++ ")") with
      | inr v => Some v
      | inl _ => None
      end
  | JFun _ => Some handler
  | _ => None
  end.

(** What lines 631-651 log for the event [type] of the element [o]. *)
Definition listener_event (env : Env) (cls : string) (o : ObjId)
    (key : string) (handlers : JsObject) (type : string) : Event :=
  match listener_of env (Obj.get handlers type) with
  | Some func =>
      ECall (RObj o) "addListener" [JStr type; func; JObj cls o]
  | None =>
      ECall RThis "warn"
        [JStr ("Invalid '" ++ type ++ "' event handler for form element '"
               ++ key ++ "'.")]
  end.

(** The two calls of [_onFormReady] (lines 464 and 469) on a form. *)
Definition ready_calls (form : ObjId) (okButton : JsVal) : list Event :=
  let bind :=
    ECall (RSub (RObj form) "getValidationManager") "bind"
      [JStr "valid"; okButton; JStr "enabled";
       JMap [("converter", JFun "value || false")]] in
  [bind; bind].

(** Lines 680-692 in the log: the default renderer [view] of [form], laid
    out for the label column width [w], added to the container [k], and
    the validation. *)
Definition default_render_calls (view form k : ObjId) (w : Z)
    : list Event :=
  let layout := RSub (RObj view) "getLayout" in
  [ENew view "qxl.dialog.FormRenderer" [JObj "qx.ui.form.Form" form];
   ECall layout "setColumnFlex" [JNum 0; JNum 0];
   ECall layout "setColumnMaxWidth" [JNum 0; JNum w];
   ECall layout "setColumnWidth" [JNum 0; JNum w];
   ECall layout "setColumnFlex" [JNum 1; JNum 1];
   ECall (RObj view) "setAllowGrowX" [JBool true];
   ECall (RObj k) "add" [JObj "qxl.dialog.FormRenderer" view];
   ECall (RSub (RObj form) "getValidationManager") "validate" []].

(** The first value that is validated. *)
Fixpoint first_validated (actions : list AV.Action) : option JsVal :=
  match actions with
  | [] => None
  | AV.Validate value :: _ => Some value
  | AV.Answer _ _ :: actions' => first_validated actions'
  end.

(** No answer of the proxy comes on an object that has a [tr] method. *)
Definition answers_without_tr (actions : list AV.Action) : Prop :=
  Forall (fun a =>
            match a with
            | AV.Answer this_tr _ => this_tr = None
            | AV.Validate _ => True
            end) actions.

(** The properties and the button that [_applyFormData] reads and that
    nothing it runs assigns. *)
Definition hooks_kept : relation St := fun s s' =>
  _okButton s' = _okButton s /\
  context s' = context s /\
  formReadyFunction s' = formReadyFunction s /\
  setupFormRendererFunction s' = setupFormRendererFunction s /\
  finalizeFunction s' = finalizeFunction s /\
  labelColumnWidth s' = labelColumnWidth s.

(** [throws R m]: [m] throws in every state, in a state related by [R]
    to the one it started in. *)
Definition throws {A} (R : relation St) (m : M A) : Prop :=
  forall s, exists e s', m s = Throw e s' /\ R s s'.



(** An environment in which the handlers of the two form element
    classes of the sources are the functions of these classes. *)
Definition has_source_handlers (env : Env) : Prop :=
  forall this args s,
    js_call env "TextArea.initElement" this args s
    = TextArea.initElement args s /\
    js_call env "TextArea.addToFormController" this args s
    = TextArea.addToFormController args s /\
    js_call env "GroupHeader.initElement" this args s
    = GroupHeader.initElement args s.

(** What [setValid] is called with for an answer of the proxy: the
    validity and the invalid message, or the translated default. *)
Definition reported (message : JsVal) (a : AV.Action)
    : option (JsVal * JsVal) :=
  match a with
  | AV.Validate _ => None
  | AV.Answer this_tr valid =>
      if truthy message then Some (valid, message)
      else match this_tr with
           | Some tr => Some (valid, JStr (tr "Value is invalid"))
           | None => None
           end
  end.

(** ** Reasoning about runs *)

Lemma bind_Ok {A B} (m : M A) (f : A -> M B) s b s' :
  (m ≫= f) s = Ok b s' <-> exists a s1, m s = Ok a s1 /\ f a s1 = Ok b s'.
Proof.
  unfold mbind, M_bind. split.
  - destruct (m s) as [a s1|e s1]; [eauto | discriminate].
  - intros (a & s1 & -> & H). exact H.
Qed.

Section Preserves.
Context (R : relation St) `{!Frame R}.

Lemma preserves_ret {A} (a : A) : preserves R (mret a).
Proof. intros s. cbn. reflexivity. Qed.

Lemma preserves_throw {A} e : preserves R (@throw A e).
Proof. intros s. cbn. reflexivity. Qed.

Lemma preserves_gets {A} (f : St -> A) : preserves R (gets f).
Proof. intros s. cbn. reflexivity. Qed.

Lemma preserves_modify f : (forall s, R s (f s)) -> preserves R (modify f).
Proof. intros H s. apply H. Qed.

Lemma preserves_bind {A B} (m : M A) (f : A -> M B) :
  preserves R m -> (forall a, preserves R (f a)) -> preserves R (m ≫= f).
Proof.
  intros Hm Hf s. unfold mbind, M_bind. specialize (Hm s).
  destruct (m s) as [a s1|e s1]; cbn in *; [|done].
  etransitivity; [exact Hm | apply Hf].
Qed.

Lemma preserves_try_catch {A} (m : M A) h :
  preserves R m -> (forall e, preserves R (h e)) ->
  preserves R (try_catch m h).
Proof.
  intros Hm Hh s. unfold try_catch. specialize (Hm s).
  destruct (m s) as [a s1|e s1]; cbn in *; [done|].
  etransitivity; [exact Hm | apply Hh].
Qed.

Lemma preserves_for_each {A} (l : list A) f :
  (forall x, preserves R (f x)) -> preserves R (for_each l f).
Proof.
  intros Hf. induction l as [|x l IH]; cbn.
  - apply preserves_ret.
  - apply preserves_bind; auto.
Qed.

Lemma preserves_when b m : preserves R m -> preserves R (when b m).
Proof. destruct b; cbn; [done | intros _; apply preserves_ret]. Qed.
End Preserves.

Create HintDb frame discriminated.

#[global] Hint Resolve preserves_ret preserves_throw preserves_gets
  preserves_when preserves_for_each : frame.

(** One step of a proof of [preserves]: follow the structure of the code,
    down to the assignments. *)
Ltac frame_step :=
  match goal with
  | |- Frame _ => exact _
  | |- Allows _ _ => exact _
  | |- preserves _ (mbind _ _) => apply preserves_bind; [ .. | intros ? ]
  | |- preserves _ (try_catch _ _) =>
      apply preserves_try_catch; [ .. | intros ? ]
  | |- preserves _ (for_each _ _) =>
      apply preserves_for_each; [ .. | intros ? ]
  | |- preserves _ (when _ _) => apply preserves_when
  | |- preserves _ (modify _) =>
      apply preserves_modify; [ .. | intros ? ];
      first [ exact _ | apply frame_log | apply frame_next | apply allows ]
  | |- preserves _ (match ?x with _ => _ end) => destruct x
  | |- preserves _ _ => solve [ eauto with frame ]
  end.

Ltac frame := intros; repeat frame_step.

(** *** What the functions of the mixin leave alone *)

Section Frames.
Context (env : Env) (R : relation St) `{!Frame R}.

Lemma preserves_emit e : preserves R (emit e).
Proof. unfold emit. frame. Qed.

Lemma preserves_call r m args : preserves R (call r m args).
Proof. apply preserves_emit. Qed.

Lemma preserves_fresh_id : preserves R fresh_id.
Proof. unfold fresh_id. frame. Qed.
Hint Resolve preserves_emit preserves_call preserves_fresh_id : frame.

Lemma preserves_new cls args : preserves R (new cls args).
Proof. unfold new. frame. Qed.

Lemma preserves_deref {A} (o : option A) : preserves R (deref o).
Proof. unfold deref. frame. Qed.

Lemma preserves_get_prop v k : preserves R (get_prop v k).
Proof. unfold get_prop. frame. Qed.

Lemma preserves_has_prop k v : preserves R (has_prop k v).
Proof. unfold has_prop. frame. Qed.

Lemma preserves_call_on v m args : preserves R (call_on v m args).
Proof. unfold call_on. frame. Qed.

Lemma preserves_invoke f this args : preserves R (invoke env f this args).
Proof. unfold invoke. frame. Qed.
Hint Resolve preserves_new preserves_deref preserves_get_prop
  preserves_has_prop preserves_call_on preserves_invoke : frame.

Lemma preserves_call_value v this args :
  preserves R (call_value env v this args).
Proof. unfold call_value. frame. Qed.
Hint Resolve preserves_call_value : frame.

Lemma preserves__onFormReady form : preserves R (_onFormReady form).
Proof. unfold _onFormReady. frame. Qed.

Lemma preserves_dispose_previous : preserves R dispose_previous.
Proof. unfold dispose_previous. frame. Qed.

Lemma preserves_build_modelData fd keys md :
  preserves R (build_modelData fd keys md).
Proof. revert md. induction keys; intros; cbn; frame. Qed.

Lemma preserves_call_formReadyFunction form :
  preserves R (call_formReadyFunction env form).
Proof. unfold call_formReadyFunction. frame. Qed.

Lemma preserves_string_validator s validation :
  preserves R (string_validator env s validation).
Proof. unfold string_validator. frame. Qed.
Hint Resolve preserves__onFormReady preserves_dispose_previous
  preserves_build_modelData preserves_call_formReadyFunction
  preserves_string_validator : frame.

Lemma preserves_sync_validator validation :
  preserves R (sync_validator env validation).
Proof. unfold sync_validator. frame. Qed.

Lemma preserves_async_validator validation v :
  preserves R (async_validator env validation v).
Proof. unfold async_validator. frame. Qed.
Hint Resolve preserves_sync_validator preserves_async_validator : frame.

Lemma preserves_field_validator fieldData formElement :
  preserves R (field_validator env fieldData formElement).
Proof. unfold field_validator. frame. Qed.

Lemma preserves_set_if_defined fieldData formElement k setter :
  preserves R (set_if_defined fieldData formElement k setter).
Proof. unfold set_if_defined. frame. Qed.
Hint Resolve preserves_field_validator preserves_set_if_defined : frame.

Lemma preserves_widget_properties fieldData formElement :
  preserves R (widget_properties fieldData formElement).
Proof. unfold widget_properties. frame. Qed.

Lemma preserves_Object_keys v : preserves R (Object_keys v).
Proof. unfold Object_keys. frame. Qed.
Hint Resolve preserves_widget_properties preserves_Object_keys : frame.

Lemma preserves_userdata_settings fieldData formElement :
  preserves R (userdata_settings fieldData formElement).
Proof. unfold userdata_settings. frame. Qed.

Lemma preserves_add_listeners fieldData formElement key :
  preserves R (add_listeners env fieldData formElement key).
Proof. unfold add_listeners. frame. Qed.

Lemma preserves_default_setupFormRenderer :
  preserves R default_setupFormRenderer.
Proof. unfold default_setupFormRenderer. frame. Qed.
Hint Resolve preserves_userdata_settings preserves_add_listeners
  preserves_default_setupFormRenderer : frame.

Lemma preserves_render_form : preserves R (render_form env).
Proof. unfold render_form. frame. Qed.

Lemma preserves_form_ready form : preserves R (form_ready env form).
Proof. unfold form_ready. frame. Qed.

Lemma preserves__handleOk `{!Allows set_callback R} :
  preserves R (_handleOk env).
Proof. unfold _handleOk. frame. Qed.

Section Statics.
Context `{!Allows set_registeredFormElements R}.

Lemma preserves_registerFormElementHandlers fieldType handlers :
  preserves R (registerFormElementHandlers fieldType handlers).
Proof. unfold registerFormElementHandlers. frame. Qed.
Hint Resolve preserves_registerFormElementHandlers : frame.

Lemma preserves_register cls : preserves R (register cls).
Proof. unfold register, Dialog_registerFormElementHandlers. frame. Qed.
Hint Resolve preserves_register : frame.

Lemma preserves_register_internal entry :
  preserves R (register_internal entry).
Proof. unfold register_internal. destruct entry. frame. Qed.
Hint Resolve preserves_register_internal : frame.

Lemma preserves__init
    `{!Allows set_formElements R} `{!Allows set_internalFormElements R} :
  preserves R _init.
Proof. unfold _init. frame. Qed.
End Statics.

Lemma preserves_create_model `{!Allows set_model R} formData :
  preserves R (create_model formData).
Proof. unfold create_model. frame. Qed.

Lemma preserves_create_form
    `{!Allows set_form R} `{!Allows set_formController R}
    `{!Allows set_ownedQxObjects R} :
  preserves R (create_form env).
Proof. unfold create_form. frame. Qed.

(** The fields of the form: [_formElements] is assigned in one place,
    [record_formElement], at the key of the field. *)
Section Field.
Context (key : string)
  (Hrecord : forall e, preserves R (record_formElement key e)).

Lemma preserves_add_to_form fieldData formElement v :
  preserves R (add_to_form env fieldData formElement key v).
Proof. unfold add_to_form. frame. Qed.
Hint Resolve preserves_add_to_form : frame.

Lemma preserves_configure_field handlers fieldType fieldData e :
  preserves R (configure_field env handlers fieldType fieldData key e).
Proof. unfold configure_field. frame. Qed.
Hint Resolve preserves_configure_field : frame.

Lemma preserves_add_field formData :
  preserves R (add_field env formData key).
Proof. unfold add_field. frame. Qed.
End Field.

Lemma preserves_for_each_add_field formData keys :
  (forall key e, In key keys -> preserves R (record_formElement key e)) ->
  preserves R (for_each keys (add_field env formData)).
Proof.
  induction keys as [|key keys IH]; intros Hrecord; cbn.
  - apply preserves_ret; exact _.
  - apply preserves_bind; [exact _ | |].
    + apply preserves_add_field. intros e. apply Hrecord. by left.
    + intros _. apply IH. intros k e Hk. apply Hrecord. by right.
Qed.

Lemma preserves_add_fields formData :
  (forall key e, In key (Obj.keys formData) ->
     preserves R (record_formElement key e)) ->
  preserves R (add_fields env formData).
Proof. apply preserves_for_each_add_field. Qed.
End Frames.

#[global] Hint Extern 1 (Frame _) => exact _ : frame.
#[global] Hint Extern 1 (Allows _ _) => exact _ : frame.
#[global] Hint Resolve preserves_emit preserves_call preserves_fresh_id
  preserves_new preserves_deref preserves_get_prop preserves_has_prop
  preserves_call_on preserves_invoke preserves_call_value
  preserves__onFormReady preserves_dispose_previous preserves_build_modelData
  preserves_call_formReadyFunction preserves_string_validator
  preserves_sync_validator preserves_async_validator
  preserves_field_validator preserves_set_if_defined
  preserves_widget_properties preserves_Object_keys
  preserves_userdata_settings preserves_add_listeners
  preserves_default_setupFormRenderer preserves_render_form
  preserves_form_ready preserves__handleOk
  preserves_registerFormElementHandlers
  preserves_register preserves__init preserves_create_model
  preserves_create_form preserves_add_to_form preserves_configure_field
  preserves_add_field : frame.

(** *** Relations between the state before and after a run *)

#[global] Instance calls_only_frame : Frame calls_only.
Proof.
  split; [split |..].
  - intros s. exists [], 0. destruct s; cbn. by rewrite app_nil_r, Nat.add_0_r.
  - intros s1 s2 s3 (l1 & k1 & ->) (l2 & k2 & ->).
    exists (l1 ++ l2), (k1 + k2). destruct s1; cbn.
    by rewrite app_assoc, Nat.add_assoc.
  - intros s l. exists l, 0. destruct s; cbn. by rewrite Nat.add_0_r.
  - intros s k. exists [], k. destruct s; cbn. by rewrite app_nil_r.
Qed.

#[global] Instance log_ext_frame : Frame log_ext.
Proof.
  split; [split |..].
  - intros s. exists []. by rewrite app_nil_r.
  - intros s1 s2 s3 [l1 H1] [l2 H2]. exists (l1 ++ l2).
    by rewrite H2, H1, app_assoc.
  - intros s l. by exists l.
  - intros s k. exists []. by rewrite app_nil_r.
Qed.

#[global] Instance same_on_pre {A} (f : St -> A) : PreOrder (same_on f).
Proof.
  split; unfold same_on.
  - by intros s.
  - intros s1 s2 s3 H1 H2. by rewrite H2.
Qed.

(** A field is not touched by the assignment of another one. *)
#[global] Hint Extern 2 (Frame (same_on _)) =>
  (split; [exact _ | intros; reflexivity | intros; reflexivity])
  : typeclass_instances.
#[global] Hint Extern 2 (Allows _ (same_on _)) =>
  (intros ? ?; reflexivity) : typeclass_instances.
#[global] Hint Extern 2 (Allows _ log_ext) =>
  (intros ? ?; exists []; cbn; by rewrite app_nil_r) : typeclass_instances.

Section WholeRun.
Context (env : Env) (R : relation St) `{!Frame R}.
Context `{!Allows set_registeredFormElements R}
        `{!Allows set_internalFormElements R}
        `{!Allows set_formElements R}
        `{!Allows set_model R}
        `{!Allows set_form R}
        `{!Allows set_formController R}
        `{!Allows set_ownedQxObjects R}.

Lemma preserves_record_formElement key e :
  preserves R (record_formElement key e).
Proof. unfold record_formElement. frame. Qed.

Lemma preserves__applyFormData formData :
  preserves R (_applyFormData env formData).
Proof.
  pose proof (fun fd => preserves_add_fields env R fd
                (fun key e _ => preserves_record_formElement key e)).
  unfold _applyFormData. frame.
Qed.
End WholeRun.

(** *** Running the code on a state *)

Ltac run1 :=
  unfold mbind, M_bind, mret, M_ret, gets, throw, try_catch, when,
    call, new, fresh_id, emit, modify, deref,
    set_log, set_next_id, set_model, set_form, set_formController,
    set_formElements, set_callback, set_ownedQxObjects,
    set_registeredFormElements, set_internalFormElements in *;
  cbn in *.

Ltac run := repeat progress run1.

(** Open the state, so that what is known of its fields is used. *)
Ltac open_state s := destruct s; cbn in *; subst; run.

Lemma final_Ok {A} (m : M A) s a s' : m s = Ok a s' -> final (m s) = s'.
Proof. by intros ->. Qed.

Lemma preserves_Ok {A} R (m : M A) s a s' :
  preserves R m -> m s = Ok a s' -> R s s'.
Proof. intros H E. specialize (H s). by rewrite E in H. Qed.

Lemma invoke_run env f this args s :
  let o := js_call env f this args s in
  let s' :=
    set_log (log s ++ EInvoke f this args (out_result o) :: out_events o)
      (set_next_id (next_id s + out_created o) s) in
  invoke env f this args s
  = match out_result o with
    | inr v => Ok v s'
    | inl e => Throw e s'
    end.
Proof.
  cbn zeta. unfold invoke. destruct s. cbv -[app Nat.add js_call].
  by destruct (js_call env f this args _) as [evs n [e|v]].
Qed.

(** ** Tearing down *)

Lemma dispose_previous_all s c f m k :
  _formController s = Some c -> _form s = Some f -> model s = Some m ->
  _formContainer s = Some k ->
  dispose_previous s = Ok tt (set_log (log s ++ teardown_calls m c f k) s).
Proof.
  intros Hc Hf Hm Hk. unfold dispose_previous. open_state s.
  by rewrite <- !app_assoc.
Qed.

(** With a form container, the teardown returns: what the toolkit throws
    while disposing is caught. *)
Lemma dispose_previous_returns s k :
  _formContainer s = Some k ->
  exists s', dispose_previous s = Ok tt s' /\ calls_only s s'.
Proof.
  intros Hk.
  assert (exists s', dispose_previous s = Ok tt s') as [s' E].
  { unfold dispose_previous.
    destruct s as [? ? ? f c ? ? m ? ? ? ? ? ? ? ? ?]; cbn in *; subst.
    destruct c, m, f; run; eauto. }
  exists s'. split; [done|].
  eapply preserves_Ok; [apply preserves_dispose_previous; exact _ | done].
Qed.

(** ** Registration *)

Lemma register_loop_run table s :
  for_each table register_internal s
  = Ok tt (set_registeredFormElements
             (registered_after table (_registeredFormElements s)) s).
Proof.
  revert s. induction table as [|[k cls] table IH]; intros s.
  - by destruct s.
  - cbn [for_each registered_after].
    unfold mbind, M_bind at 1.
    unfold register_internal at 1, register,
      Dialog_registerFormElementHandlers, registerFormElementHandlers.
    run. destruct (js_in k (_registeredFormElements s)); cbn.
    + apply IH.
    + rewrite IH. by destruct s.
Qed.

Lemma _init_run s :
  _init s =
  Ok tt (set_formElements (Some ∅)
          (set_internalFormElements None
            (set_registeredFormElements
               (match _internalFormElements s with
                | Some table => registered_after table (_registeredFormElements s)
                | None => _registeredFormElements s
                end) s))).
Proof.
  unfold _init. unfold mbind, M_bind, modify, gets. cbn.
  destruct (_internalFormElements s) as [table|] eqn:E.
  - rewrite register_loop_run. by destruct s.
  - destruct s; cbn in *. by subst.
Qed.

Lemma registered_after_kept table registered k h :
  Forall (fun e => toLowerCase (cls_fieldType e.2) = e.1) table ->
  registered !! k = Some h ->
  registered_after table registered !! k = Some h.
Proof.
  intros Hkeys. revert registered.
  induction Hkeys as [|[k' cls] table Hk _ IH]; intros registered Hr; cbn.
  - done.
  - apply IH. unfold js_in. case_bool_decide as Hin; [done|].
    cbn in Hk. rewrite Hk. rewrite lookup_insert_ne; [done|].
    intros ->. apply Hin. unfold js_lookup. rewrite Hr. by eexists.
Qed.

Lemma registered_after_None table registered k :
  Forall (fun e => toLowerCase (cls_fieldType e.2) <> k) table ->
  registered !! k = None ->
  registered_after table registered !! k = None.
Proof.
  intros Hkeys. revert registered.
  induction Hkeys as [|[k' cls] table Hk _ IH]; intros registered Hr; cbn.
  - done.
  - apply IH. destruct (js_in k' registered); [done|].
    cbn in Hk. by rewrite lookup_insert_ne.
Qed.

Lemma registered_after_app t1 t2 registered :
  registered_after (t1 ++ t2) registered
  = registered_after t2 (registered_after t1 registered).
Proof.
  revert registered. induction t1 as [|[k cls] t1 IH]; intros; cbn; [done|].
  apply IH.
Qed.

(** A class listed under a key that is not registered is registered, under
    the field type of the class, whatever was registered there: the guard
    of [_init] looks at the key of the table. *)
Lemma registered_after_overwrites t1 k cls t2 registered :
  Forall (fun e => toLowerCase (cls_fieldType e.2) <> k) t1 ->
  registered !! k = None ->
  inherited k = None ->
  Forall (fun e => toLowerCase (cls_fieldType e.2) = e.1) t2 ->
  registered_after (t1 ++ (k, cls) :: t2) registered
    !! toLowerCase (cls_fieldType cls)
  = Some (cls_registration cls).
Proof.
  intros H1 Hk Hi H2. rewrite registered_after_app. cbn.
  apply registered_after_kept; [done|].
  unfold js_in, js_lookup. rewrite bool_decide_eq_false_2.
  - apply lookup_insert_eq.
  - rewrite (registered_after_None t1 registered k H1 Hk), Hi.
    by intros [? ?].
Qed.

Lemma registerFormElementHandlers_run fieldType handlers s :
  registerFormElementHandlers fieldType handlers s
  = Ok tt (set_registeredFormElements
             (<[toLowerCase fieldType := handlers]> (_registeredFormElements s))
             s).
Proof. reflexivity. Qed.

(** The registration pass runs once: [_init] leaves no internal table, and
    a later [_init] registers nothing. *)
Lemma _init_once s :
  let s1 := final (_init s) in
  _internalFormElements s1 = None /\
  _registeredFormElements (final (_init s1)) = _registeredFormElements s1.
Proof. cbn. by rewrite !_init_run. Qed.

(** Registrations survive [_init] when every class of the internal table
    registers the key it is listed under. *)
Lemma _init_keeps_registration s table k h :
  _internalFormElements s = Some table ->
  Forall (fun e => toLowerCase (cls_fieldType e.2) = e.1) table ->
  _registeredFormElements s !! k = Some h ->
  _registeredFormElements (final (_init s)) !! k = Some h.
Proof.
  intros Ht Hkeys Hk. rewrite _init_run, Ht. cbn.
  by apply registered_after_kept.
Qed.

(** With the table of the source: when the Spinner class names its field
    type as the classes of the sources do theirs, [_init] registers it
    over what the user registered for "spinner", because the guard tests
    the key "spiinner". *)
Lemma _init_overwrites_spinner
    CheckBox ComboBox DateField Label List PasswordField RadioGroup
    SelectBox Spinner TextField s :
  _internalFormElements s =
    Some (internalFormElements CheckBox ComboBox DateField Label List
            PasswordField RadioGroup SelectBox Spinner TextField) ->
  Forall (fun c => toLowerCase (cls_fieldType c) <> "spiinner")
    [CheckBox; ComboBox; DateField; Label; List; PasswordField; RadioGroup;
     SelectBox] ->
  toLowerCase (cls_fieldType TextField) = "textfield" ->
  toLowerCase (cls_fieldType Spinner) = "spinner" ->
  _registeredFormElements s !! "spiinner" = None ->
  _registeredFormElements (final (_init s)) !! "spinner"
  = Some (cls_registration Spinner).
Proof.
  intros Ht Hothers Htf Hsp Hk. rewrite _init_run, Ht. cbn [final].
  unfold set_formElements, set_internalFormElements,
    set_registeredFormElements; cbn [_registeredFormElements].
  rewrite <- Hsp.
  apply (registered_after_overwrites
    [("checkbox", CheckBox); ("combobox", ComboBox); ("datefield", DateField);
     ("groupheader", GroupHeader.class); ("label", Label); ("list", List);
     ("passwordfield", PasswordField); ("radiogroup", RadioGroup);
     ("selectbox", SelectBox)]
    "spiinner" Spinner
    [("textarea", TextArea.class); ("textfield", TextField)]);
    [|done|done|].
  - repeat match goal with
           | H : Forall _ (_ :: _) |- _ => inversion_clear H
           end.
    repeat constructor; cbn; done.
  - repeat constructor; cbn; done.
Qed.

(** C8 (code bug), at the failing input: the user registers handlers for
    "Spinner" before the first dialog is made; [_init] then replaces them
    by the registration of the internal Spinner class. *)
Theorem C8_user_spinner_overwritten :
  let user := JMap [("initElement", JFun "user.slider.initElement")] in
  let s := final (registerFormElementHandlers "Spinner" user Example.start) in
  _registeredFormElements s !! "spinner" = Some user /\
  _registeredFormElements (final (_init s)) !! "spinner"
  = Some (JMap [("initElement", JFun "spinner.initElement")]) /\
  _registeredFormElements (final (_init s)) !! "spiinner" = None.
Proof. vm_compute. auto. Qed.

(** ** The checks on the type of a field (lines 485-496) *)

Lemma for_each_app {A} (l1 l2 : list A) (f : A -> M unit) s :
  for_each (l1 ++ l2) f s
  = match for_each l1 f s with
    | Ok _ s1 => for_each l2 f s1
    | Throw e s1 => Throw e s1
    end.
Proof.
  revert s. induction l1 as [|x l1 IH]; intros s; cbn; [done|].
  unfold mbind, M_bind. destruct (f x s); [apply IH | done].
Qed.

(** The loop, once it has reached the key [key]. *)
Lemma add_fields_reaches env fd pre key post s s1 :
  Obj.keys fd = pre ++ key :: post ->
  for_each pre (add_field env fd) s = Ok tt s1 ->
  add_fields env fd s
  = match add_field env fd key s1 with
    | Ok _ s2 => for_each post (add_field env fd) s2
    | Throw e s2 => Throw e s2
    end.
Proof.
  intros Hkeys Hpre. unfold add_fields. rewrite Hkeys, for_each_app, Hpre.
  reflexivity.
Qed.

Lemma js_lookup_own m k v : m !! k = Some v -> js_lookup m k = Some v.
Proof. unfold js_lookup. by intros ->. Qed.

Lemma js_lookup_None m k :
  m !! k = None -> inherited k = None -> js_lookup m k = None.
Proof. unfold js_lookup. by intros -> ->. Qed.

Lemma js_in_false k m : js_in k m = false -> js_lookup m k = None.
Proof.
  unfold js_in. intros H. apply bool_decide_eq_false_1 in H.
  destruct (js_lookup m k); [|done]. exfalso. apply H. by eexists.
Qed.

Lemma Obj_lookup_value o k v : Obj.lookup o k = Some v -> In v (map snd o).
Proof.
  induction o as [|[k' v'] o IH]; cbn; [done|].
  destruct (String.eqb k' k); [intros [= ->]; by left | right; auto].
Qed.

(** What a plain object inherits is an object or a function, and has no
    [initElement]. *)
Lemma inherited_no_initElement k v :
  inherited k = Some v ->
  prop v "initElement" = JUndefined /\ v <> JNull /\ v <> JUndefined.
Proof.
  intros H.
  assert (In v (JMap Object_prototype :: map snd Object_prototype)) as Hin.
  { unfold inherited in H. destruct (String.eqb k "__proto__").
    - injection H as <-. by left.
    - right. by eapply Obj_lookup_value. }
  clear H. revert v Hin. apply List.Forall_forall.
  repeat constructor; done.
Qed.

(** A property read on a value that has properties. *)
Lemma get_prop_prop v k s :
  v <> JNull -> v <> JUndefined -> get_prop v k s = Ok (prop v k) s.
Proof. by destruct v. Qed.

Lemma add_field_no_type env fd key s :
  Obj.get fd key <> JNull -> Obj.get fd key <> JUndefined ->
  isString (prop (Obj.get fd key) "type") = false ->
  add_field env fd key s = Throw (Error "Missing type member {String}") s.
Proof.
  intros H1 H2 Hty. unfold add_field.
  unfold mbind at 1, M_bind at 1. rewrite get_prop_prop by done.
  by destruct (prop (Obj.get fd key) "type").
Qed.

Lemma add_field_not_found env fd key type s :
  Obj.get fd key <> JNull -> Obj.get fd key <> JUndefined ->
  prop (Obj.get fd key) "type" = JStr type ->
  js_lookup (_registeredFormElements s) (toLowerCase type) = None ->
  add_field env fd key s
  = Throw (Error ("Field type " ++ toLowerCase type ++ " is unknown")) s.
Proof.
  intros H1 H2 Hty Hreg. unfold add_field.
  unfold mbind at 1, M_bind at 1. rewrite get_prop_prop by done.
  rewrite Hty. unfold mbind at 1, M_bind at 1, gets at 1.
  by rewrite Hreg.
Qed.

Lemma add_field_inherited env fd key type s :
  Obj.get fd key <> JNull -> Obj.get fd key <> JUndefined ->
  prop (Obj.get fd key) "type" = JStr type ->
  _registeredFormElements s !! toLowerCase type = None ->
  is_Some (inherited (toLowerCase type)) ->
  add_field env fd key s = Throw (TypeError "is not a function") s.
Proof.
  intros H1 H2 Hty Hreg [h Hh]. unfold add_field.
  unfold mbind at 1, M_bind at 1. rewrite get_prop_prop by done.
  rewrite Hty. unfold mbind at 1, M_bind at 1, gets at 1.
  unfold js_lookup. rewrite Hreg, Hh.
  destruct (inherited_no_initElement _ _ Hh) as (Hi & Hn & Hu).
  unfold mbind at 1, M_bind at 1.
  by rewrite get_prop_prop, Hi.
Qed.

Lemma add_field_missing_type env fd key props s :
  Obj.get fd key = JMap props ->
  isString (Obj.get props "type") = false ->
  add_field env fd key s = Throw (Error "Missing type member {String}") s.
Proof.
  intros Hfd Hty. apply add_field_no_type; rewrite Hfd; done.
Qed.

Lemma add_field_unknown_type env fd key props type s :
  Obj.get fd key = JMap props ->
  Obj.get props "type" = JStr type ->
  js_lookup (_registeredFormElements s) (toLowerCase type) = None ->
  add_field env fd key s
  = Throw (Error ("Field type " ++ toLowerCase type ++ " is unknown")) s.
Proof.
  intros Hfd Hty Hreg. apply add_field_not_found; rewrite ?Hfd; done.
Qed.

Lemma _applyFormData_stages env fd s :
  _applyFormData env (Some fd) s
  = match before_fields env fd s with
    | Ok _ s1 =>
        match add_fields env fd s1 with
        | Ok _ s2 => render_form env s2
        | Throw e s2 => Throw e s2
        end
    | Throw e s1 => Throw e s1
    end.
Proof.
  unfold _applyFormData, before_fields, mbind, M_bind, gets.
  destruct (when _ _ s) as [[] sa|]; [|done].
  destruct (dispose_previous sa) as [[] sb|]; [|done].
  destruct (create_model fd sb) as [[] sc|]; [|done].
  destruct (create_form env sc) as [form sd|]; [|done].
  by destruct (form_ready env form sd) as [[] se|].
Qed.

(** The call, once the loop has reached the key [key]. *)
Lemma _applyFormData_reaches env fd pre key post s0 s s1 e :
  Obj.keys fd = pre ++ key :: post ->
  before_fields env fd s0 = Ok tt s ->
  for_each pre (add_field env fd) s = Ok tt s1 ->
  add_field env fd key s1 = Throw e s1 ->
  _applyFormData env (Some fd) s0 = Throw e s1.
Proof.
  intros Hkeys Hbefore Hpre Hkey.
  rewrite _applyFormData_stages, Hbefore.
  by rewrite (add_fields_reaches _ _ _ _ _ _ _ Hkeys Hpre), Hkey.
Qed.

(** The model data are made of entries that have properties: line 449
    reads the [value] of each. *)
Lemma build_modelData_entries fd keys md md' s s' :
  build_modelData fd keys md s = Ok md' s' ->
  forall key, In key keys ->
    Obj.get fd key <> JNull /\ Obj.get fd key <> JUndefined.
Proof.
  revert md. induction keys as [|k keys IH]; intros md H key Hin; [done|].
  cbn in H. apply bind_Ok in H as (value & s1 & H1 & H).
  destruct Hin as [<-|Hin].
  - by destruct (Obj.get fd k).
  - assert (s1 = s) as ->
      by (destruct (Obj.get fd k); cbn in H1;
          unfold mret, M_ret, throw in H1; congruence).
    by eapply IH.
Qed.

(** When the stages before the loop have returned, no entry of the form
    data is [null] or [undefined]. *)
Lemma before_fields_entries env fd s0 s :
  before_fields env fd s0 = Ok tt s ->
  forall key, In key (Obj.keys fd) ->
    Obj.get fd key <> JNull /\ Obj.get fd key <> JUndefined.
Proof.
  unfold before_fields. intros H.
  apply bind_Ok in H as (fe & s1 & _ & H).
  apply bind_Ok in H as (u1 & s2 & _ & H).
  apply bind_Ok in H as (u2 & s3 & _ & H).
  apply bind_Ok in H as (u3 & s4 & H4 & _).
  unfold create_model in H4.
  apply bind_Ok in H4 as (m & s5 & _ & H4).
  apply bind_Ok in H4 as (u4 & s6 & _ & H4).
  apply bind_Ok in H4 as (md & s7 & H7 & _).
  by eapply build_modelData_entries.
Qed.

(** C5 (amended).  When the loop of [_applyFormData] reaches an entry
    whose [type] is not a string, the call throws "Missing type member
    {String}".  When it reaches an entry whose down-cased type is not
    found in the table of registered form elements by [in], it throws
    "Field type ... is unknown".  The test finds what the table
    inherits from [Object.prototype] as well as its own keys: for a
    down-cased type that is no key of the table but a member of
    [Object.prototype], the call throws a TypeError instead, because
    what is found there has no [initElement].  In all three cases the
    state is the one in which the entry was reached: nothing was called
    or created for it. *)
Theorem C5_type_checks env fd pre key post s0 s s1 :
  Obj.keys fd = pre ++ key :: post ->
  before_fields env fd s0 = Ok tt s ->
  for_each pre (add_field env fd) s = Ok tt s1 ->
  let fieldData := Obj.get fd key in
  let run := _applyFormData env (Some fd) s0 in
  (isString (prop fieldData "type") = false ->
   run = Throw (Error "Missing type member {String}") s1) /\
  (forall type,
     prop fieldData "type" = JStr type ->
     js_in (toLowerCase type) (_registeredFormElements s1) = false ->
     run = Throw (Error ("Field type " ++ toLowerCase type ++ " is unknown"))
             s1) /\
  (forall type,
     prop fieldData "type" = JStr type ->
     _registeredFormElements s1 !! toLowerCase type = None ->
     is_Some (inherited (toLowerCase type)) ->
     run = Throw (TypeError "is not a function") s1).
Proof.
  intros Hkeys Hbefore Hpre fieldData run. subst fieldData run.
  destruct (before_fields_entries env fd s0 s Hbefore key) as [H1 H2].
  { rewrite Hkeys. apply in_or_app. right. by left. }
  split; [|split].
  - intros Hty. eapply _applyFormData_reaches; eauto.
    by apply add_field_no_type.
  - intros type Hty Hreg. eapply _applyFormData_reaches; eauto.
    apply add_field_not_found; [done..|]. by apply js_in_false.
  - intros type Hty Hreg Hin. eapply _applyFormData_reaches; eauto.
    by apply (add_field_inherited _ _ _ type).
Qed.

(** C5 (amended), on a form of two fields: the first is built, the
    second has no type, the type "Slider" that nobody registered, or the
    type "Constructor". *)
Lemma C5_type_checks_witness :
  let fd type :=
    [("name", Example.text_area "Name" 3);
     ("size", JMap [("type", type); ("label", JStr "Size")])] in
  (exists s1,
     _applyFormData Example.env (Some (fd JUndefined)) Example.start
     = Throw (Error "Missing type member {String}") s1) /\
  (exists s1,
     _applyFormData Example.env (Some (fd (JStr "Slider"))) Example.start
     = Throw (Error "Field type slider is unknown") s1) /\
  (exists s1,
     _applyFormData Example.env (Some (fd (JStr "Constructor"))) Example.start
     = Throw (TypeError "is not a function") s1).
Proof.
  cbn zeta. split; [|split]; eexists.
  - refine (proj1 (C5_type_checks Example.env _ ["name"] "size" []
                     Example.start _ _ _ _ _) _).
    + reflexivity.
    + vm_compute. reflexivity.
    + vm_compute. reflexivity.
    + reflexivity.
  - refine (proj1 (proj2 (C5_type_checks Example.env _ ["name"] "size" []
                     Example.start _ _ _ _ _)) "Slider" _ _).
    + reflexivity.
    + vm_compute. reflexivity.
    + vm_compute. reflexivity.
    + reflexivity.
    + vm_compute. reflexivity.
  - refine (proj2 (proj2 (C5_type_checks Example.env _ ["name"] "size" []
                     Example.start _ _ _ _ _)) "Constructor" _ _ _).
    + reflexivity.
    + vm_compute. reflexivity.
    + vm_compute. reflexivity.
    + reflexivity.
    + vm_compute. reflexivity.
    + vm_compute. by eexists.
Defined.

(** C5, as stated, fails: "constructor" is no key of the table of
    registered form elements, and a field of the type "Constructor" does
    not make the call throw the Error of line 495.  The test of line 494
    finds the member that the table inherits, and the call throws a
    TypeError at line 499. *)
Lemma C5_constructor_is_not_unknown :
  let fd :=
    [("kind", JMap [("type", JStr "Constructor"); ("label", JStr "Kind")])] in
  exists s1,
    _applyFormData Example.env (Some fd) Example.start
    = Throw (TypeError "is not a function") s1 /\
    _registeredFormElements s1 !! "constructor" = None /\
    js_in "constructor" (_registeredFormElements s1) = true.
Proof. vm_compute. eexists. repeat split; reflexivity. Qed.

(** ** The type "Spinner" *)

Lemma log_ext_record key e : preserves log_ext (record_formElement key e).
Proof. apply preserves_record_formElement; exact _. Qed.

Lemma log_ext_add_field env fd key : preserves log_ext (add_field env fd key).
Proof.
  apply preserves_add_field; [exact _ | intros; apply log_ext_record].
Qed.

Lemma log_ext_for_each_add_field env fd keys :
  preserves log_ext (for_each keys (add_field env fd)).
Proof.
  apply preserves_for_each_add_field; [exact _ | intros; apply log_ext_record].
Qed.

(** A field whose type is registered passes the check of lines 494-496:
    the next thing that happens is the call of the [initElement] handler. *)
Lemma add_field_registered env fd key props type h f s :
  Obj.get fd key = JMap props ->
  Obj.get props "type" = JStr type ->
  _registeredFormElements s !! toLowerCase type = Some (JMap h) ->
  Obj.get h "initElement" = JFun f ->
  let args := [JStr (toLowerCase type); JMap props; JStr key] in
  exists l,
    log (final (add_field env fd key s))
    = log s ++ EInvoke f this_val args
                 (out_result (js_call env f this_val args s)) :: l.
Proof.
  intros Hfd Hty Hreg Hinit args. subst args.
  unfold add_field. rewrite Hfd. cbn.
  unfold mbind at 1, M_bind at 1. cbn. rewrite Hty.
  unfold mbind at 1, M_bind at 1, gets at 1.
  rewrite (js_lookup_own _ _ _ Hreg). cbn.
  unfold mbind at 1, M_bind at 1. cbn. rewrite Hinit.
  unfold mbind at 1, M_bind at 1, call_value, invoke.
  unfold mbind at 1, M_bind at 1, gets at 1.
  unfold mbind at 1, M_bind at 1, modify at 1.
  unfold mbind at 1, M_bind at 1, modify at 1.
  cbv beta zeta. unfold id.
  generalize (js_call env f this_val
                [JStr (toLowerCase type); JMap props; JStr key] s).
  intros [evs n [e|v]]; cbn.
  { by eexists. }
  destruct (truthy v); cbn.
  2: { by eexists. }
  match goal with
  | |- context [configure_field ?e ?a ?b ?c ?d ?v ?s'] =>
      destruct (preserves_configure_field e log_ext d
                  (log_ext_record d) a b c v s') as [l Hl]
  end.
  rewrite Hl. cbn. rewrite <- app_assoc. by eexists.
Qed.

(** C10 (amended).  When the loop of [_applyFormData] reaches an entry
    whose type is "Spinner", in any letter case, the call throws "Field
    type spinner is unknown" if no handlers are registered under "spinner"
    at that moment, with nothing called or created for the entry; if
    handlers are registered there, the entry passes the check and their
    [initElement] is called. *)
Theorem C10_spinner_unknown_unless_registered
    env fd pre key post props type s0 s s1 :
  Obj.keys fd = pre ++ key :: post ->
  before_fields env fd s0 = Ok tt s ->
  for_each pre (add_field env fd) s = Ok tt s1 ->
  Obj.get fd key = JMap props ->
  Obj.get props "type" = JStr type ->
  toLowerCase type = "spinner" ->
  (_registeredFormElements s1 !! "spinner" = None ->
   _applyFormData env (Some fd) s0
   = Throw (Error "Field type spinner is unknown") s1) /\
  (forall h f,
     _registeredFormElements s1 !! "spinner" = Some (JMap h) ->
     Obj.get h "initElement" = JFun f ->
     let args := [JStr "spinner"; JMap props; JStr key] in
     exists l,
       log (final (_applyFormData env (Some fd) s0))
       = log s1 ++ EInvoke f this_val args
                     (out_result (js_call env f this_val args s1)) :: l).
Proof.
  intros Hkeys Hbefore Hpre Hfd Hty Hlow. split.
  - intros Hreg. eapply _applyFormData_reaches; eauto.
    rewrite (add_field_unknown_type _ _ _ _ _ _ Hfd Hty).
    + by rewrite Hlow.
    + rewrite Hlow. by apply js_lookup_None.
  - intros h f Hreg Hinit args.
    rewrite <- Hlow in Hreg.
    destruct (add_field_registered env fd key props type h f s1
                Hfd Hty Hreg Hinit) as [l Hl].
    rewrite Hlow in Hl. fold args in Hl.
    rewrite _applyFormData_stages, Hbefore.
    rewrite (add_fields_reaches _ _ _ _ _ _ _ Hkeys Hpre).
    destruct (add_field env fd key s1) as [[] s2|e s2]; cbn in Hl |- *;
      [|by eexists].
    pose proof (log_ext_for_each_add_field env fd post s2) as [l2 Hl2].
    destruct (for_each post (add_field env fd) s2) as [[] s3|e s3];
      cbn in Hl2 |- *.
    + pose proof (preserves_render_form env log_ext s3) as [l3 Hl3].
      rewrite Hl3, Hl2, Hl, <- !app_assoc. cbn. by eexists.
    + rewrite Hl2, Hl, <- !app_assoc. cbn. by eexists.
Qed.

(** C10, as stated, fails.  Let the Spinner class register the key of the
    table, "spiinner"; once the user has registered handlers for
    "Spinner", a form with a field of that type is built: the call
    returns, and the element of the user's handler is in the form. *)
Lemma C10_registered_spinner_is_built :
  let handlers := JMap [("initElement", JFun "user.slider.initElement")] in
  let fd :=
    [("quantity",
      JMap [("type", JStr "Spinner"); ("label", JStr "How many?")])] in
  let s :=
    final (registerFormElementHandlers "Spinner" handlers
             (Example.start_with (Example.element_class "spiinner"))) in
  exists s' o,
    _applyFormData Example.env (Some fd) s = Ok tt s' /\
    element_of s' "quantity" = Some (JObj "qx.ui.form.Slider" o) /\
    _registeredFormElements s' !! "spiinner"
    = Some (JMap [("initElement", JFun "spiinner.initElement")]).
Proof. vm_compute. do 2 eexists. split; [reflexivity | split; reflexivity]. Qed.

(** C10 (amended), on a form with one field of type "SPINNER": the call
    throws when the Spinner class registered "spiinner" and nobody
    registered "spinner"; the handler of the user is called when there is
    one. *)
Lemma C10_spinner_unknown_unless_registered_witness :
  let fd :=
    [("quantity",
      JMap [("type", JStr "SPINNER"); ("label", JStr "How many?")])] in
  let handlers := JMap [("initElement", JFun "user.slider.initElement")] in
  let s0 := Example.start_with (Example.element_class "spiinner") in
  let s0' := final (registerFormElementHandlers "Spinner" handlers s0) in
  (exists s1,
     _applyFormData Example.env (Some fd) s0
     = Throw (Error "Field type spinner is unknown") s1) /\
  (exists s1 r l,
     log (final (_applyFormData Example.env (Some fd) s0'))
     = log s1 ++ EInvoke "user.slider.initElement" this_val
                   [JStr "spinner";
                    JMap [("type", JStr "SPINNER");
                          ("label", JStr "How many?")];
                    JStr "quantity"] r :: l).
Proof.
  cbn zeta. split.
  - eexists.
    refine (proj1 (C10_spinner_unknown_unless_registered Example.env _ []
                     "quantity" [] _ "SPINNER" _ _ _ _ _ _ _ _ _) _).
    + reflexivity.
    + vm_compute. reflexivity.
    + reflexivity.
    + reflexivity.
    + reflexivity.
    + reflexivity.
    + vm_compute. reflexivity.
  - eexists. eexists.
    refine (proj2 (C10_spinner_unknown_unless_registered Example.env _ []
                     "quantity" [] _ "SPINNER" _ _ _ _ _ _ _ _ _) _ _ _ _).
    + reflexivity.
    + vm_compute. reflexivity.
    + reflexivity.
    + reflexivity.
    + reflexivity.
    + reflexivity.
    + vm_compute. reflexivity.
    + reflexivity.
Defined.

(** When the Spinner class names its field type as the classes of the
    sources do, a new dialog builds a field of type "Spinner" out of the
    internal registration. *)
Lemma internal_spinner_is_built :
  let fd :=
    [("quantity",
      JMap [("type", JStr "Spinner"); ("label", JStr "How many?")])] in
  exists s' o,
    _applyFormData Example.env (Some fd) Example.start = Ok tt s' /\
    element_of s' "quantity" = Some (JObj "qx.ui.form.Spinner" o).
Proof. vm_compute. do 2 eexists. split; reflexivity. Qed.

(** ** The OK button *)

(** C3 (amended).  [_handleOk] hides the dialog and fires "ok".  With no
    callback set nothing else happens.  With a callback set, the callback
    is then called on the stored context with the native object of the
    current model as its one argument; when it returns the callback
    property is reset, when it throws the exception leaves [_handleOk]
    and the property keeps the callback. *)
Theorem C3_handleOk env s :
  let shown :=
    set_log (log s ++ [ECall RThis "hide" []; ECall RThis "fireEvent" [JStr "ok"]])
      s in
  (callback s = JNull -> _handleOk env s = Ok tt shown) /\
  (forall f,
     callback s = JFun f ->
     let arg := toNativeObject env shown (model s) in
     let o := js_call env f (context s) [arg] shown in
     let called :=
       set_log (log shown
                ++ EInvoke f (context s) [arg] (out_result o) :: out_events o)
         (set_next_id (next_id s + out_created o) shown) in
     match out_result o with
     | inr _ => _handleOk env s = Ok tt (set_callback JNull called)
     | inl e => _handleOk env s = Throw e called
     end).
Proof.
  cbn zeta. split.
  - intros Hcb. unfold _handleOk. open_state s. by rewrite <- app_assoc.
  - intros f Hcb. unfold _handleOk, call_value, invoke. open_state s.
    rewrite <- !app_assoc. cbn.
    match goal with
    | |- context [js_call env f ?c ?a ?s'] =>
        generalize (js_call env f c a s')
    end.
    intros [evs n [e|v]]; cbn; reflexivity.
Qed.

(** C3 (amended), on a dialog with the callback "user.callback", and on
    one with none. *)
Lemma C3_handleOk_witness :
  let s := set_callback (JFun "user.callback") Example.start in
  (exists s',
     _handleOk Example.env s = Ok tt s' /\
     callback s' = JNull /\
     log s' = [ECall RThis "hide" []; ECall RThis "fireEvent" [JStr "ok"];
               EInvoke "user.callback" JNull [JNull] (inr JUndefined)]) /\
  (exists s',
     _handleOk Example.env Example.start = Ok tt s' /\
     log s' = [ECall RThis "hide" []; ECall RThis "fireEvent" [JStr "ok"]]).
Proof.
  cbn zeta. split.
  - eexists. split; [|split].
    + exact (proj2 (C3_handleOk Example.env
                      (set_callback (JFun "user.callback") Example.start))
               "user.callback" eq_refl).
    + reflexivity.
    + reflexivity.
  - eexists. split.
    + exact (proj1 (C3_handleOk Example.env Example.start) eq_refl).
    + reflexivity.
Defined.

(** C3, as stated, fails when the callback throws: there is no
    [finally] around the call of lines 742-747, so the exception leaves
    [_handleOk] before line 748, and the callback property is not
    reset. *)
Lemma C3_failing_callback_is_kept :
  let s := set_callback (JFun "user.failing.callback") Example.start in
  exists s',
    _handleOk Example.env s = Throw (Error "The callback failed") s' /\
    callback s' = JFun "user.failing.callback" /\
    log s' = [ECall RThis "hide" []; ECall RThis "fireEvent" [JStr "ok"];
              EInvoke "user.failing.callback" JNull [JNull]
                (inl (Error "The callback failed"))].
Proof. vm_compute. eexists. repeat split; reflexivity. Qed.

(** ** Validators *)

Lemma async_validator_applies env validation validator f method s :
  proxy_function env validation = Some (f, method) ->
  async_validator env (JMap validation) validator s
  = Ok (VAsync f method (Obj.get validation "invalidMessage")) s.
Proof.
  unfold proxy_function, async_validator. cbn.
  unfold mbind at 1, M_bind at 1, mret at 1, M_ret at 1.
  unfold mbind at 1, M_bind at 1, mret at 1, M_ret at 1.
  destruct (Obj.get validation "proxy"); try done.
  destruct (Obj.get validation "method"); try done.
  destruct (js_eval env _) as [e|[]]; try done.
  by intros [= -> ->].
Qed.

Lemma async_validator_skipped env validation validator s :
  proxy_function env validation = None ->
  exists l,
    async_validator env (JMap validation) validator s
    = Ok validator (set_log (log s ++ l) s).
Proof.
  assert (Hs : s = set_log (log s ++ []) s)
    by (destruct s; cbn; by rewrite app_nil_r).
  unfold proxy_function, async_validator. cbn.
  unfold mbind at 1, M_bind at 1, mret at 1, M_ret at 1.
  unfold mbind at 1, M_bind at 1, mret at 1, M_ret at 1.
  destruct (Obj.get validation "proxy");
    try (intros _; exists []; by rewrite <- Hs).
  destruct (Obj.get validation "method");
    try (intros _; exists []; by rewrite <- Hs).
  destruct (js_eval env _) as [e|v].
  - intros _. eexists. run. reflexivity.
  - destruct v; intros H; try discriminate; run;
      exists []; by rewrite <- Hs.
Qed.

Lemma truthy_nonempty v : v <> "" -> truthy (JStr v) = true.
Proof. intros H. cbn. by destruct v. Qed.

Lemma set_log_nil s : set_log (log s ++ []) s = s.
Proof. destruct s; cbn. by rewrite app_nil_r. Qed.

Lemma set_log_set_log l1 l2 s :
  set_log (log (set_log (log s ++ l1) s) ++ l2) (set_log (log s ++ l1) s)
  = set_log (log s ++ l1 ++ l2) s.
Proof. destruct s; cbn. by rewrite app_assoc. Qed.

(** Lines 527-544 on a validator given as a non-empty string. *)
Lemma sync_validator_string env validation v s :
  Obj.get validation "validator" = JStr v -> v <> "" ->
  sync_validator env (JMap validation) s
  = string_validator env v (JMap validation) s.
Proof.
  intros Hv Hne. unfold sync_validator. cbn.
  unfold mbind, M_bind, mret, M_ret. rewrite Hv.
  by rewrite (truthy_nonempty v Hne).
Qed.

(** The string names a function of [qx.util.Validate]: the function is
    called on the class with no argument, and what it returns or throws
    is what line 532 gives. *)
Lemma string_validator_member env validation v g s :
  qx_util_Validate env v = JFun g ->
  string_validator env v validation s
  = match out_result (js_call env g qx_util_Validate_class [] s) with
    | inr made => Ok (VRaw made) (after_call env g qx_util_Validate_class [] s)
    | inl e => Throw e (after_call env g qx_util_Validate_class [] s)
    end.
Proof.
  intros H. unfold string_validator. rewrite H. cbn [truthy call_value].
  unfold mbind, M_bind. rewrite invoke_run. cbn zeta. unfold after_call.
  by destruct (out_result _).
Qed.

Lemma string_validator_no_function env validation v s :
  truthy (qx_util_Validate env v) = true ->
  (forall g, qx_util_Validate env v <> JFun g) ->
  string_validator env v validation s
  = Throw (TypeError "is not a function") s.
Proof.
  intros Hm Hg. unfold string_validator. rewrite Hm.
  destruct (qx_util_Validate env v) as [| |?|?| |?|g|? ?|?]; try done.
  by destruct (Hg g).
Qed.

Lemma string_validator_regexp env validation v s :
  truthy (qx_util_Validate env v) = false ->
  charAt0 v = "/" ->
  RegExp_compiles env (substr_1_len_minus_2 v) = true ->
  string_validator env v (JMap validation) s
  = Ok (VRegExp (substr_1_len_minus_2 v) (Obj.get validation "errorMessage")) s.
Proof.
  intros Hm Hc Hr. unfold string_validator. rewrite Hm, Hc. cbn.
  unfold mbind, M_bind. by rewrite Hr.
Qed.

Lemma string_validator_no_regexp env validation v s :
  truthy (qx_util_Validate env v) = false ->
  charAt0 v = "/" ->
  RegExp_compiles env (substr_1_len_minus_2 v) = false ->
  string_validator env v validation s
  = Throw (SyntaxError "Invalid regular expression") s.
Proof.
  intros Hm Hc Hr. unfold string_validator. rewrite Hm, Hc. cbn.
  unfold mbind, M_bind. by rewrite Hr.
Qed.

(** The string is neither a member of [qx.util.Validate] nor a regular
    expression: the error is logged, and the local [validator] still
    holds the string. *)
Lemma string_validator_invalid env validation v s :
  truthy (qx_util_Validate env v) = false ->
  charAt0 v <> "/" ->
  string_validator env v validation s
  = Ok (VRaw (JStr v))
      (set_log (log s ++ [ECall RThis "error" [JStr "Invalid string validator."]])
         s).
Proof.
  intros Hm Hc. unfold string_validator. rewrite Hm.
  destruct (String.eqb_spec (charAt0 v) "/"); [done|]. reflexivity.
Qed.

(** Lines 521-581 on a form element and a [validation] map. *)
Lemma field_validator_stages env fieldData validation cls o s :
  Obj.get fieldData "validation" = JMap validation ->
  field_validator env (JMap fieldData) (JObj cls o) s
  = match sync_validator env (JMap validation) (required_set validation o s)
    with
    | Ok validator s2 => async_validator env (JMap validation) validator s2
    | Throw e s2 => Throw e s2
    end.
Proof.
  intros Hv. unfold field_validator, required_set. cbn.
  unfold mbind at 1, M_bind at 1, mret at 1, M_ret at 1. rewrite Hv. cbn.
  unfold mbind at 1, M_bind at 1, mret at 1, M_ret at 1.
  unfold mbind at 1, M_bind at 1.
  destruct (truthy (Obj.get validation "required")); reflexivity.
Qed.

(** C6 (amended).  For a field with a form element whose
    [validation.validator] is a non-empty string, and whose validation
    does not set up an async validator (lines 546-580, which replace the
    validator), once [setRequired] was called if need be.  If
    [qx.util.Validate] has a function under the string, the function is
    called on the class with no argument: the validator is what it
    returns, and what it throws is thrown.  If it has something else
    there that holds, calling that throws a TypeError.  If it has
    nothing that holds and the first character of the string is "/":
    the validator is the regular-expression validator of the text
    between the first and the last character and of
    [validation.errorMessage] when that text compiles, and a SyntaxError
    is thrown when it does not.  Otherwise the error "Invalid string
    validator." is reported, and the validator is the string itself. *)
Theorem C6_string_validator env fieldData validation cls o v s :
  Obj.get fieldData "validation" = JMap validation ->
  Obj.get validation "validator" = JStr v ->
  v <> "" ->
  proxy_function env validation = None ->
  let run := field_validator env (JMap fieldData) (JObj cls o) s in
  let s1 := required_set validation o s in
  let member := qx_util_Validate env v in
  (forall g,
     member = JFun g ->
     let s2 := after_call env g qx_util_Validate_class [] s1 in
     match out_result (js_call env g qx_util_Validate_class [] s1) with
     | inr made => exists l, run = Ok (VRaw made) (set_log (log s2 ++ l) s2)
     | inl e => run = Throw e s2
     end) /\
  (truthy member = true ->
   (forall g, member <> JFun g) ->
   run = Throw (TypeError "is not a function") s1) /\
  (truthy member = false ->
   charAt0 v = "/" ->
   let pattern := substr_1_len_minus_2 v in
   if RegExp_compiles env pattern
   then exists l,
          run = Ok (VRegExp pattern (Obj.get validation "errorMessage"))
                  (set_log (log s1 ++ l) s1)
   else run = Throw (SyntaxError "Invalid regular expression") s1) /\
  (truthy member = false ->
   charAt0 v <> "/" ->
   exists l,
     run = Ok (VRaw (JStr v))
             (set_log
                (log s1 ++ ECall RThis "error"
                             [JStr "Invalid string validator."] :: l) s1)).
Proof.
  intros Hvalidation Hv Hne Hasync run s1 member. subst run member.
  rewrite (field_validator_stages _ _ _ _ _ _ Hvalidation). fold s1.
  rewrite (sync_validator_string _ _ _ _ Hv Hne).
  split; [|split; [|split]].
  - intros g Hg s2. rewrite (string_validator_member _ _ _ _ _ Hg). fold s2.
    destruct (out_result _) as [e|made]; [done|].
    destruct (async_validator_skipped env validation (VRaw made) s2 Hasync)
      as [l ->].
    by exists l.
  - intros Hm Hg. by rewrite (string_validator_no_function _ _ _ _ Hm Hg).
  - intros Hm Hc pattern. subst pattern.
    destruct (RegExp_compiles env _) eqn:Hr.
    + rewrite (string_validator_regexp _ _ _ _ Hm Hc Hr).
      destruct (async_validator_skipped env validation
                  (VRegExp (substr_1_len_minus_2 v)
                     (Obj.get validation "errorMessage")) s1 Hasync)
        as [l ->].
      by exists l.
    + by rewrite (string_validator_no_regexp _ _ _ _ Hm Hc Hr).
  - intros Hm Hc. rewrite (string_validator_invalid _ _ _ _ Hm Hc).
    match goal with
    | |- context [async_validator env _ ?val ?s2] =>
        destruct (async_validator_skipped env validation val s2 Hasync)
          as [l ->]
    end.
    exists l. by rewrite set_log_set_log.
Qed.

(** C6, as stated, fails on a field that also sets up an async validator:
    "email" names a function of [qx.util.Validate], and the validator the
    form gets is the async validator. *)
Lemma C6_async_replaces_string_validator :
  let validation :=
    JMap [("validator", JStr "email"); ("proxy", JStr "rpc.send");
          ("method", JStr "checkEmail")] in
  let fd :=
    [("mail", JMap [("type", JStr "TextArea"); ("label", JStr "E-mail");
                    ("validation", validation)])] in
  qx_util_Validate Example.env "email" = JFun "qx.util.Validate.email" /\
  exists s' form e,
    _applyFormData Example.env (Some fd) Example.start = Ok tt s' /\
    form_adds (log s')
    = [EFormAdd form e (JStr "E-mail")
         (VAsync "rpc.send" "checkEmail" JUndefined)].
Proof. vm_compute. split; [reflexivity|]. do 3 eexists. split; reflexivity. Qed.

(** C6 (amended), on the validators "email", "checkEmail", "classname",
    "/^[a-z]+$/" and "nonsense" of a text area. *)
Lemma C6_string_validator_witness :
  let validation v :=
    [("validator", JStr v); ("errorMessage", JStr "Not valid")] in
  let field v :=
    [("type", JStr "TextArea"); ("validation", JMap (validation v))] in
  let run v :=
    field_validator Example.env (JMap (field v))
      (JObj "qx.ui.form.TextArea" 6) Example.start in
  (exists s', run "email" = Ok (VRaw (JFun "qx.util.Validate.email()")) s') /\
  (exists s', run "checkEmail" = Throw (Error "The value is not valid") s') /\
  run "classname" = Throw (TypeError "is not a function") Example.start /\
  (exists s',
     run "/^[a-z]+$/" = Ok (VRegExp "^[a-z]+$" (JStr "Not valid")) s') /\
  (exists s',
     run "nonsense" = Ok (VRaw (JStr "nonsense")) s' /\
     In (ECall RThis "error" [JStr "Invalid string validator."]) (log s')).
Proof.
  intros validation field run.
  pose (C := fun v Hne =>
    C6_string_validator Example.env (field v) (validation v)
      "qx.ui.form.TextArea" 6 v Example.start eq_refl eq_refl Hne eq_refl).
  split; [|split; [|split; [|split]]].
  - destruct (proj1 (C "email" ltac:(discriminate))
                "qx.util.Validate.email" eq_refl) as [l H].
    eexists. exact H.
  - eexists.
    exact (proj1 (C "checkEmail" ltac:(discriminate))
             "qx.util.Validate.checkEmail" eq_refl).
  - refine (proj1 (proj2 (C "classname" ltac:(discriminate))) eq_refl _).
    intros g. discriminate.
  - destruct (proj1 (proj2 (proj2 (C "/^[a-z]+$/" ltac:(discriminate))))
                eq_refl eq_refl) as [l H].
    eexists. exact H.
  - destruct (proj2 (proj2 (proj2 (C "nonsense" ltac:(discriminate))))
                eq_refl ltac:(discriminate)) as [l H].
    eexists. split; [exact H|]. cbn. by left.
Defined.

(** What C6 says of the third case, that no validator is attached, is not
    what the code does: the string stays in the local [validator] and is
    handed to [form.add]. *)
Lemma invalid_string_validator_example :
  let fd :=
    [("mail", JMap [("type", JStr "TextArea"); ("label", JStr "E-mail");
                    ("validation", JMap [("validator", JStr "nonsense")])])] in
  exists s' form e,
    _applyFormData Example.env (Some fd) Example.start = Ok tt s' /\
    form_adds (log s')
    = [EFormAdd form e (JStr "E-mail") (VRaw (JStr "nonsense"))].
Proof. vm_compute. do 3 eexists. split; reflexivity. Qed.

(** ** The async validator *)




(** ** The model *)




Lemma Obj_lookup_In o k v :
  Obj.wf o -> In (k, v) o -> Obj.lookup o k = Some v.
Proof.
  unfold Obj.wf, Obj.keys. induction o as [|[k' v'] o IH]; cbn.
  - done.
  - intros Hnd [[= -> ->]|Hin].
    + by rewrite String.eqb_refl.
    + apply NoDup_cons in Hnd as [Hnot Hnd].
      destruct (String.eqb_spec k' k) as [->|].
      * exfalso. apply Hnot. apply list_elem_of_In.
        by apply (in_map fst _ (k, v)).
      * by apply IH.
Qed.

Lemma build_modelData_run fd keys md s :
  build_modelData fd keys md s
  = match modelData_from fd keys md with
    | Some md' => Ok md' s
    | None => Throw (TypeError "undefined has no properties") s
    end.
Proof.
  revert md. induction keys as [|key keys IH]; intros md; cbn; [done|].
  unfold mbind, M_bind.
  destruct (Obj.get fd key); cbn; try done; apply IH.
Qed.




Lemma create_model_run fd s :
  create_model fd s
  = let s1 := previous_model_disposed s in
    match modelData_from fd (Obj.keys fd) [] with
    | Some modelData =>
        Ok tt (set_model (Some (next_id s))
                 (set_log (log s1 ++ [ECreateModel (next_id s) modelData])
                    (set_next_id (next_id s + 1) s1)))
    | None => Throw (TypeError "undefined has no properties") s1
    end.
Proof.
  unfold create_model, previous_model_disposed.
  destruct s as [? ? ? ? ? ? ? m ? ? ? ? ? ? ? ? ?]; cbn.
  destruct m as [old|]; run; rewrite build_modelData_run;
    destruct (modelData_from fd _ []); run; rewrite <- ?app_assoc;
    reflexivity.
Qed.

(** [create_form] returns the new form; the controller is the object
    made next, on the model. *)
Lemma create_form_run env s :
  exists s',
    create_form env s = Ok (next_id s) s' /\
    _form s' = Some (next_id s) /\
    _formController s' = Some (next_id s + 1) /\
    next_id s' = next_id s + 2 /\
    model s' = model s /\
    _formContainer s' = _formContainer s /\
    _formElements s' = _formElements s /\
    _registeredFormElements s' = _registeredFormElements s /\
    exists l,
      log s' = log s ++ l /\
      In (ENew (next_id s + 1) "qx.data.controller.Object"
            [match model s with
             | Some m => JObj "qx.core.Object" m
             | None => JNull
             end]) l.
Proof.
  unfold create_form.
  destruct s as [? ? ? ? ? ? ? ? ? ? ? ? ? ? owned ? ?]; cbn. run.
  destruct (module_objectid env); run;
    [destruct (bool_decide (is_Some (owned !! "form"))); run|];
    rewrite <- ?app_assoc;
    (eexists; split; [reflexivity|]; cbn;
     repeat split; try done; try lia;
     eexists; (split; [reflexivity|]); cbn; auto 20).
Qed.

(** ** The stages of [_applyFormData] *)

Lemma init_kludge_run s :
  (fe ← gets _formElements; when (negb (bool_decide (is_Some fe))) _init) s
  = Ok tt (initialised s).
Proof.
  unfold initialised, mbind, M_bind, gets.
  destruct (_formElements s) as [fe|] eqn:E; cbn.
  - reflexivity.
  - by rewrite _init_run.
Qed.

Lemma initialised_fields s :
  log (initialised s) = log s /\
  next_id (initialised s) = next_id s /\
  model (initialised s) = model s /\
  _form (initialised s) = _form s /\
  _formController (initialised s) = _formController s /\
  _formContainer (initialised s) = _formContainer s /\
  is_Some (_formElements (initialised s)).
Proof.
  unfold initialised. destruct (_formElements s) as [fe|] eqn:E.
  - rewrite E. by repeat split.
  - rewrite _init_run. cbn. by repeat split.
Qed.

#[global] Instance built_kept_frame : Frame built_kept.
Proof.
  split; [split |..]; unfold built_kept.
  - intros s. repeat split; try done. exists []. by rewrite app_nil_r.
  - intros s1 s2 s3 (?&?&?&?&?&?&?&l1&?) (?&?&?&?&?&?&?&l2&?).
    repeat split; try congruence; try lia; try tauto.
    exists (l1 ++ l2). rewrite app_assoc. congruence.
  - intros s l. cbn. repeat split; try done. by exists l.
  - intros s k. cbn. repeat split; try done; try lia.
    exists []. by rewrite app_nil_r.
Qed.

Lemma built_kept_record key e : preserves built_kept (record_formElement key e).
Proof.
  intros s. unfold record_formElement. run.
  destruct (_formElements s) as [fe|] eqn:E; cbn; rewrite ?E;
    (repeat split; try done; exists []; by rewrite app_nil_r).
Qed.

Lemma built_kept_after_fields env fd s :
  built_kept s
    (final match add_fields env fd s with
           | Ok _ s2 => render_form env s2
           | Throw e s2 => Throw e s2
           end).
Proof.
  pose proof (preserves_add_fields env built_kept fd
                (fun key e _ => built_kept_record key e) s) as H1.
  destruct (add_fields env fd s) as [[] s2|e s2]; cbn in H1 |- *; [|done].
  etransitivity; [exact H1|]. apply (preserves_render_form env built_kept).
Qed.

(** The stages before the loop return when there is a form container,
    every entry of the form data is a value with properties, and the form
    ready function returns. *)
Lemma before_fields_run env fd s k :
  _formContainer s = Some k ->
  exists s1,
    dispose_previous (initialised s) = Ok tt s1 /\
    calls_only (initialised s) s1 /\
    before_fields env fd s
    = match create_model fd s1 with
      | Ok _ s2 =>
          match create_form env s2 with
          | Ok form s3 => form_ready env form s3
          | Throw e s3 => Throw e s3
          end
      | Throw e s2 => Throw e s2
      end.
Proof.
  intros Hk.
  destruct (initialised_fields s) as (_&_&_&_&_&Hk'&_).
  rewrite Hk in Hk'.
  destruct (dispose_previous_returns _ _ Hk') as (s1 & E1 & Hcalls).
  exists s1. split; [done|]. split; [done|].
  unfold before_fields.
  pose proof (init_kludge_run s) as E0.
  unfold mbind, M_bind in *. unfold gets in *. cbn in *.
  rewrite E0, E1. destruct (create_model fd s1) as [[] s2|]; [|done].
  by destruct (create_form env s2).
Qed.

Lemma previous_model_disposed_fields s :
  (exists l, log (previous_model_disposed s) = log s ++ l) /\
  next_id (previous_model_disposed s) = next_id s /\
  _formContainer (previous_model_disposed s) = _formContainer s /\
  _formElements (previous_model_disposed s) = _formElements s.
Proof.
  unfold previous_model_disposed. destruct (model s); cbn.
  - split; [by eexists | done].
  - split; [exists []; by rewrite app_nil_r | done].
Qed.







(** ** After a form was built *)

Lemma dispose_previous_needs_container s s' :
  dispose_previous s = Ok tt s' -> is_Some (_formContainer s).
Proof.
  unfold dispose_previous.
  destruct s as [? ? k f c ? ? m ? ? ? ? ? ? ? ? ?]; cbn.
  destruct k; [by eexists|].
  destruct c, m, f; run; discriminate.
Qed.

(** The state in which the loop over the fields starts: the model, the
    form and the controller are the three objects just made. *)
Lemma before_fields_Ok env fd s s4 :
  before_fields env fd s = Ok tt s4 ->
  exists m k,
    next_id s <= m /\
    model s4 = Some m /\
    _form s4 = Some (m + 1) /\
    _formController s4 = Some (m + 2) /\
    m + 2 < next_id s4 /\
    _formContainer s4 = Some k /\
    is_Some (_formElements s4).
Proof.
  intros H.
  assert (is_Some (_formContainer s)) as [k Hk].
  { unfold before_fields in H.
    pose proof (init_kludge_run s) as E0.
    unfold mbind, M_bind in *. unfold gets in *. cbn in *. rewrite E0 in H.
    destruct (dispose_previous (initialised s)) as [[] s1|] eqn:E1; [|done].
    apply dispose_previous_needs_container in E1.
    destruct (initialised_fields s) as (_&_&_&_&_&Hk&_). by rewrite <- Hk. }
  destruct (before_fields_run env fd s k Hk) as (s1 & E1 & Hcalls & Eb).
  rewrite Eb, create_model_run in H. cbn zeta in H.
  destruct (modelData_from fd (Obj.keys fd) []) as [md|]; [|done].
  destruct (initialised_fields s) as (_ & Hid0 & _ & _ & _ & Hk0 & Hfe0).
  destruct Hcalls as (l1 & k1 & Hs1).
  assert (Hid1 : next_id s <= next_id s1) by (rewrite Hs1; cbn; lia).
  assert (Hk1 : _formContainer s1 = Some k) by (rewrite Hs1; cbn; congruence).
  assert (Hfe1 : is_Some (_formElements s1)) by (by rewrite Hs1).
  clear Hs1 Eb.
  destruct (previous_model_disposed_fields s1) as (_ & Hidp & Hkp & Hfep).
  set (s2 := set_model _ _) in H.
  assert (Hn2 : next_id s2 = next_id s1 + 1) by (subst s2; cbn; lia).
  assert (Hm2 : model s2 = Some (next_id s1)) by done.
  assert (Hk2 : _formContainer s2 = Some k) by (subst s2; cbn; congruence).
  assert (Hfe2 : is_Some (_formElements s2))
    by (subst s2; cbn; by rewrite Hfep).
  clearbody s2.
  destruct (create_form_run env s2) as
    (s3 & E3 & Hf3 & Hc3 & Hid3 & Hm3 & Hk3 & Hfe3 & _).
  rewrite E3 in H.
  pose proof (preserves_Ok built_kept _ _ _ _
                (preserves_form_ready env built_kept (next_id s2)) H)
    as (Hm4 & Hf4 & Hc4 & Hk4 & _ & Hid4 & Hfe4 & _).
  exists (next_id s1), k. repeat split.
  - done.
  - by rewrite Hm4, Hm3.
  - rewrite Hf4, Hf3. f_equal; lia.
  - rewrite Hc4, Hc3. f_equal; lia.
  - lia.
  - congruence.
  - apply Hfe4. by rewrite Hfe3.
Qed.

(** After [_applyFormData] has built a form and returned, the dialog has
    a model, a form and a controller, three different objects. *)
Lemma applied_state env fd s s1 :
  _applyFormData env (Some fd) s = Ok tt s1 ->
  exists m f c k,
    model s1 = Some m /\ _form s1 = Some f /\ _formController s1 = Some c /\
    _formContainer s1 = Some k /\
    m < f /\ f < c /\ c < next_id s1 /\
    is_Some (_formElements s1).
Proof.
  intros H. rewrite _applyFormData_stages in H.
  destruct (before_fields env fd s) as [[] s4|] eqn:Eb; [|done].
  destruct (before_fields_Ok env fd s s4 Eb) as
    (m & k & _ & Hm & Hf & Hc & Hid & Hk & Hfe).
  pose proof (built_kept_after_fields env fd s4) as Hkept.
  rewrite H in Hkept. cbn in Hkept.
  destruct Hkept as (Hm' & Hf' & Hc' & Hk' & _ & Hid' & Hfe' & _).
  exists m, (m + 1), (m + 2), k.
  repeat split;
    [by rewrite Hm' | by rewrite Hf' | by rewrite Hc' | by rewrite Hk'
    | lia | lia | lia | auto].
Qed.

Lemma _applyFormData_null env s m c f k :
  is_Some (_formElements s) ->
  _formController s = Some c -> _form s = Some f -> model s = Some m ->
  _formContainer s = Some k ->
  _applyFormData env None s
  = Ok tt (set_log (log s ++ teardown_calls m c f k) s).
Proof.
  intros [fe Hfe] Hc Hf Hm Hk. unfold _applyFormData.
  pose proof (init_kludge_run s) as E0.
  unfold initialised in E0. rewrite Hfe in E0.
  unfold mbind, M_bind in *. unfold gets in *. cbn in *. rewrite E0.
  by rewrite (dispose_previous_all s c f m k Hc Hf Hm Hk).
Qed.

(** C9.  After a form was built, setting the form data to [null] removes
    the bindings of the model, disposes the controller and the form, and
    empties the form container, and that is all: the model is not
    disposed, and the [model] property still holds it. *)
Theorem C9_null_keeps_model env fd s s1 :
  _applyFormData env (Some fd) s = Ok tt s1 ->
  exists m f c k s2,
    model s1 = Some m /\ _form s1 = Some f /\ _formController s1 = Some c /\
    _formContainer s1 = Some k /\
    _applyFormData env None s1 = Ok tt s2 /\
    log s2 = log s1 ++ teardown_calls m c f k /\
    ~ In (ECall (RObj m) "dispose" []) (teardown_calls m c f k) /\
    model s2 = Some m.
Proof.
  intros H.
  destruct (applied_state env fd s s1 H) as
    (m & f & c & k & Hm & Hf & Hc & Hk & Hmf & Hfc & _ & Hfe).
  exists m, f, c, k, (set_log (log s1 ++ teardown_calls m c f k) s1).
  repeat split; try done.
  - by apply _applyFormData_null.
  - cbn. intros [E|[E|[E|[E|[E|[]]]]]]; try discriminate;
      injection E; lia.
Qed.

(** C9, on a form of one text area. *)
Lemma C9_null_keeps_model_witness :
  let fd := [("notes", Example.text_area "Notes" 3)] in
  exists s1 s2,
    _applyFormData Example.env (Some fd) Example.start = Ok tt s1 /\
    _applyFormData Example.env None s1 = Ok tt s2 /\
    model s1 = Some 3 /\
    model s2 = Some 3 /\
    log s2 = log s1 ++ teardown_calls 3 5 4 1.
Proof.
  intros fd.
  assert (E : _applyFormData Example.env (Some fd) Example.start
              = Ok tt (final (_applyFormData Example.env (Some fd) Example.start))).
  { vm_compute. reflexivity. }
  destruct (C9_null_keeps_model Example.env fd Example.start _ E) as
    (m & f & c & k & s2 & Hm & Hf & Hc & Hk & E2 & Hlog & _ & Hm2).
  assert (m = 3) as -> by (vm_compute in Hm; congruence).
  assert (f = 4) as -> by (vm_compute in Hf; congruence).
  assert (c = 5) as -> by (vm_compute in Hc; congruence).
  assert (k = 1) as -> by (vm_compute in Hk; congruence).
  exists (final (_applyFormData Example.env (Some fd) Example.start)), s2.
  split; [exact E|]. split; [exact E2|]. split; [exact Hm|].
  split; [exact Hm2|exact Hlog].
Defined.

(** ** Building a form again *)

#[global] Instance kept_outside_frame K : Frame (kept_outside K).
Proof.
  split; [split |..]; unfold kept_outside.
  - by intros s.
  - intros s1 s2 s3 H1 H2 key Hkey. by rewrite H2, H1.
  - by intros s l.
  - by intros s k.
Qed.

#[global] Hint Extern 2 (Allows _ (kept_outside _)) =>
  (intros ? ? ? ?; reflexivity) : typeclass_instances.

Lemma kept_outside_record K key e :
  In key K -> preserves (kept_outside K) (record_formElement key e).
Proof.
  intros Hin s key' Hkey'. unfold record_formElement. run.
  destruct (_formElements s) as [fe|] eqn:E; cbn.
  - unfold element_of. cbn. rewrite E. cbn.
    apply lookup_insert_ne. by intros ->.
  - done.
Qed.

Lemma _applyFormData_rebuild env fd s :
  _applyFormData env (Some fd) s = rebuild env fd (initialised s).
Proof.
  unfold _applyFormData, rebuild.
  pose proof (init_kludge_run s) as E0.
  unfold mbind, M_bind in *. unfold gets in *. cbn in *. by rewrite E0.
Qed.

Lemma preserves_rebuild env fd R
    `{!Frame R} `{!Allows set_model R} `{!Allows set_form R}
    `{!Allows set_formController R} `{!Allows set_ownedQxObjects R} :
  (forall key e, In key (Obj.keys fd) ->
     preserves R (record_formElement key e)) ->
  preserves R (rebuild env fd).
Proof.
  intros Hrecord. pose proof (preserves_add_fields env R fd Hrecord).
  unfold rebuild. frame.
Qed.

(** What is in [_formElements] under a key that the new map does not
    have stays there: [_applyFormData] assigns the member nowhere but in
    [_init]. *)
Lemma stale_elements_stay env fd s key e :
  element_of s key = Some e ->
  ~ In key (Obj.keys fd) ->
  element_of (final (_applyFormData env (Some fd) s)) key = Some e.
Proof.
  intros He Hkey. rewrite _applyFormData_rebuild.
  assert (initialised s = s) as ->.
  { unfold initialised. unfold element_of in He.
    by destruct (_formElements s). }
  rewrite <- He.
  apply (preserves_rebuild env fd (kept_outside (Obj.keys fd))); [|done].
  intros k e' Hk. by apply kept_outside_record.
Qed.

(** The teardown of a dialog that has a form: the calls of lines 425-446
    come first in what the call adds to the log. *)
Lemma rebuild_tears_down env fd s m c f k :
  is_Some (_formElements s) ->
  _formController s = Some c -> _form s = Some f -> model s = Some m ->
  _formContainer s = Some k ->
  exists l,
    log (final (_applyFormData env (Some fd) s))
    = log s ++ teardown_calls m c f k
        ++ [ECall (RObj m) "removeAllBindings" []; ECall (RObj m) "dispose" []]
        ++ l.
Proof.
  intros [fe Hfe] Hc Hf Hm Hk. rewrite _applyFormData_rebuild.
  assert (initialised s = s) as ->.
  { unfold initialised. by rewrite Hfe. }
  unfold rebuild. unfold mbind at 1, M_bind at 1.
  rewrite (dispose_previous_all s c f m k Hc Hf Hm Hk).
  set (s1 := set_log _ s).
  unfold mbind at 1, M_bind at 1. rewrite create_model_run. cbn zeta.
  assert (Hp : log (previous_model_disposed s1)
               = log s ++ teardown_calls m c f k
                   ++ [ECall (RObj m) "removeAllBindings" [];
                       ECall (RObj m) "dispose" []]).
  { unfold previous_model_disposed. subst s1. cbn. rewrite Hm. cbn.
    by rewrite <- app_assoc. }
  destruct (modelData_from fd (Obj.keys fd) []) as [md|].
  - set (s2 := set_model _ _).
    assert (Hs2 : log s2 = log (previous_model_disposed s1)
                             ++ [ECreateModel (next_id s1) md]) by done.
    clearbody s2.
    pose proof (fun H => preserves_bind log_ext (create_form env)
      (fun form => form_ready env form ;; add_fields env fd ;; render_form env)
      (preserves_create_form env log_ext) H s2) as [l Hl].
    { intros form.
      pose proof (preserves_add_fields env log_ext fd
                    (fun key e _ => log_ext_record key e)).
      frame. }
    exists ([ECreateModel (next_id s1) md] ++ l).
    unfold mbind, M_bind in *. rewrite Hl, Hs2, Hp, <- !app_assoc.
    reflexivity.
  - exists []. cbn [final]. rewrite Hp. reflexivity.
Qed.

(** C1 (code bug), at the failing input: a form with the field "a" is
    built, then a form with the field "b".  The old model, controller and
    form are disposed and the new form gets the field "b" alone, but
    [_formElements] still has the element made for "a". *)
Theorem C1_stale_element_after_rebuild :
  let fd1 := [("a", Example.text_area "A" 3)] in
  let fd2 := [("b", Example.text_area "B" 3)] in
  exists s1 s2,
    _applyFormData Example.env (Some fd1) Example.start = Ok tt s1 /\
    _applyFormData Example.env (Some fd2) s1 = Ok tt s2 /\
    (model s1, _form s1, _formController s1) = (Some 3, Some 4, Some 5) /\
    element_of s1 "a" = Some (JObj "qx.ui.form.TextArea" 6) /\
    firstn 7 (drop (length (log s1)) (log s2))
    = teardown_calls 3 5 4 1
        ++ [ECall (RObj 3) "removeAllBindings" []; ECall (RObj 3) "dispose" []] /\
    form_adds (drop (length (log s1)) (log s2))
    = [EFormAdd 9 (JObj "qx.ui.form.TextArea" 11) (JStr "B") (VRaw JNull)] /\
    element_of s2 "b" = Some (JObj "qx.ui.form.TextArea" 11) /\
    element_of s2 "a" = Some (JObj "qx.ui.form.TextArea" 6).
Proof.
  intros fd1 fd2.
  set (s1 := final (_applyFormData Example.env (Some fd1) Example.start)).
  exists s1, (final (_applyFormData Example.env (Some fd2) s1)).
  repeat (split; [vm_compute; reflexivity|]). vm_compute. reflexivity.
Qed.

(** ** The loop over the fields *)

Lemma gets_Ok {A} (f : St -> A) s a s' :
  gets f s = Ok a s' -> a = f s /\ s' = s.
Proof. by intros [= <- <-]. Qed.

Lemma get_prop_Ok v k s a s' :
  get_prop v k s = Ok a s' -> a = prop v k /\ s' = s.
Proof. destruct v; cbn; intros [= <- <-]; done. Qed.

Lemma has_prop_Ok k v s b s' : has_prop k v s = Ok b s' -> s' = s.
Proof. destruct v; cbn; intros [= <- <-]; done. Qed.

Lemma deref_Ok {A} (o : option A) s a s' :
  deref o s = Ok a s' -> o = Some a /\ s' = s.
Proof. destruct o; cbn; intros [= <- <-]; done. Qed.

Lemma call_on_Ok v method args s s' :
  call_on v method args s = Ok tt s' ->
  exists cls o,
    v = JObj cls o /\
    s' = set_log (log s ++ [ECall (RObj o) method args]) s.
Proof. destruct v; cbn; intros [= <-]; eauto. Qed.

Lemma call_value_Ok env fv this args s v s' :
  call_value env fv this args s = Ok v s' ->
  exists f,
    fv = JFun f /\
    log s' = log s ++ EInvoke f this args (inr v)
                        :: out_events (js_call env f this args s) /\
    calls_only s s'.
Proof.
  destruct fv; cbn; try discriminate. intros H. exists f.
  pose proof (preserves_Ok calls_only _ _ _ _
                (preserves_invoke env calls_only f this args) H) as Hc.
  unfold invoke in H. run. unfold id in H.
  destruct (js_call env f this args s) as [evs n [e|r]]; cbn in H;
    [discriminate|].
  injection H as <- <-. cbn. eauto.
Qed.

(** From a run of [m ≫= f] that returned: the value [a] and the state
    [sx] that [m] returned, and the run [Hs] of [m]. *)
Tactic Notation "inv_bind" hyp(H) "as" ident(a) ident(sx) ident(Hs) :=
  apply bind_Ok in H as (a & sx & Hs & H).

(** What the toolkit calls of a run leave as it is. *)
Lemma calls_only_fields s s' :
  calls_only s s' ->
  (exists l, log s' = log s ++ l) /\
  _form s' = _form s /\
  _formElements s' = _formElements s /\
  _registeredFormElements s' = _registeredFormElements s.
Proof. intros (l & k & ->). cbn. eauto. Qed.

Lemma call_value_returns env fv this args s v s' :
  call_value env fv this args s = Ok v s' ->
  exists f,
    fv = JFun f /\
    out_result (js_call env f this args s) = inr v /\
    s' = after_call env f this args s.
Proof.
  destruct fv; cbn; try discriminate. intros H. exists f.
  rewrite invoke_run in H. cbn zeta in H. unfold after_call.
  destruct (out_result _) as [e|r]; [discriminate|].
  by injection H as <- <-.
Qed.

Lemma after_call_fields env f this args s :
  _form (after_call env f this args s) = _form s /\
  _formElements (after_call env f this args s) = _formElements s /\
  _registeredFormElements (after_call env f this args s)
  = _registeredFormElements s.
Proof. done. Qed.

Lemma add_to_form_Ok env fieldData e key validator s s1 :
  add_to_form env fieldData e key validator s = Ok tt s1 ->
  exists form l,
    _form s = Some form /\
    log s1 = log s
      ++ EFormAdd form e (js_or (prop fieldData "label") (JStr "")) validator
      :: l /\
    element_of s1 key = Some e.
Proof.
  unfold add_to_form. intros H.
  inv_bind H as label s0 H0. apply get_prop_Ok in H0 as [-> ->].
  inv_bind H as f s0 H0. apply gets_Ok in H0 as [-> ->].
  inv_bind H as form s0 H0. apply deref_Ok in H0 as [Hform ->].
  inv_bind H as u s2 H2. injection H2 as _ Hs2. subst s2.
  inv_bind H as u' s3 H3.
  assert (calls_only
            (set_log (log s ++ [EFormAdd form
               e (js_or (prop fieldData "label") (JStr "")) validator]) s)
            s3) as Hc.
  { eapply preserves_Ok; [|exact H3]. clear. frame. }
  unfold record_formElement in H.
  inv_bind H as fe s0 H0. apply gets_Ok in H0 as [-> ->].
  inv_bind H as elements s0 H0. apply deref_Ok in H0 as [Hfe ->].
  injection H as <-.
  destruct Hc as (l & k & ->). cbn in *.
  exists form, l. split; [done|]. split.
  - by rewrite <- app_assoc.
  - unfold element_of. cbn. apply lookup_insert_eq.
Qed.

(** *** The validator of a field *)

Lemma sync_validator_of_more env validation l l1 l2 validator :
  sync_validator_of env validation l validator ->
  sync_validator_of env validation (l1 ++ l ++ l2) validator.
Proof.
  unfold sync_validator_of.
  destruct (negb _); [done|].
  destruct (prop validation "validator"); try done.
  destruct (truthy _); [|done].
  intros (g & made & Hg & Hin & Hv). exists g, made.
  split; [done|]. split; [|done].
  apply in_or_app. right. apply in_or_app. by left.
Qed.

Lemma validator_of_more env fieldData l l1 l2 validator :
  validator_of env fieldData l validator ->
  validator_of env fieldData (l1 ++ l ++ l2) validator.
Proof.
  unfold validator_of. destruct (async_of _ _) as [[f method]|]; [done|].
  apply sync_validator_of_more.
Qed.

Lemma string_validator_Ok env name validation s validator s1 :
  string_validator env name validation s = Ok validator s1 ->
  exists l,
    log s1 = log s ++ l /\
    let member := qx_util_Validate env name in
    if truthy member then
      exists g made,
        member = JFun g /\
        In (EInvoke g qx_util_Validate_class [] (inr made)) l /\
        validator = VRaw made
    else if String.eqb (charAt0 name) "/" then
      validator = VRegExp (substr_1_len_minus_2 name)
                    (prop validation "errorMessage")
    else validator = VRaw (JStr name).
Proof.
  unfold string_validator. cbn zeta. intros H.
  destruct (truthy (qx_util_Validate env name)).
  - inv_bind H as made sx Hx.
    apply call_value_returns in Hx as (g & Hg & Hres & ->).
    injection H as <- <-. eexists. split; [reflexivity|].
    exists g, made. rewrite Hres. split; [done|]. split; [by left | done].
  - destruct (String.eqb (charAt0 name) "/").
    + inv_bind H as u sx Hx.
      assert (sx = s) as ->.
      { destruct (RegExp_compiles env _); cbn in Hx;
          unfold mret, M_ret, throw in Hx; congruence. }
      inv_bind H as msg s0 H0. apply get_prop_Ok in H0 as [-> ->].
      injection H as <- <-. exists []. by rewrite app_nil_r.
    + inv_bind H as u sx Hx. injection Hx as <- <-. injection H as <- <-.
      eexists. split; [cbn; reflexivity | done].
Qed.

Lemma sync_validator_Ok env validation s validator s1 :
  sync_validator env validation s = Ok validator s1 ->
  exists l,
    log s1 = log s ++ l /\ sync_validator_of env validation l validator.
Proof.
  unfold sync_validator, sync_validator_of. intros H.
  inv_bind H as v s0 H0. apply get_prop_Ok in H0 as [-> ->].
  destruct (truthy (prop validation "validator")) eqn:Et; cbn [negb].
  - destruct (prop validation "validator") as [| |?|?| |name|?|? ?|?];
      try (by apply string_validator_Ok in H);
      (inv_bind H as u sx Hx; injection H as <- <-;
       assert (log_ext s sx) as [l Hl]
         by (eapply preserves_Ok; [|exact Hx]; clear; frame);
       by exists l).
  - injection H as <- <-. exists []. by rewrite app_nil_r.
Qed.

Lemma async_validator_Ok env validation validator0 s validator s1 :
  async_validator env validation validator0 s = Ok validator s1 ->
  log_ext s s1 /\
  match async_of env validation with
  | Some (f, method) =>
      validator = VAsync f method (prop validation "invalidMessage")
  | None => validator = validator0
  end.
Proof.
  intros H. split.
  { eapply preserves_Ok; [|exact H]. clear. frame. }
  destruct validation as [| |?|?| |?|?|? ?|m];
    try (unfold async_validator in H; cbn in H;
         unfold mbind, M_bind, mret, M_ret, throw in H; cbn in H;
         by (discriminate H || injection H as <- _)).
  cbn [async_of prop].
  destruct (proxy_function env m) as [[f method]|] eqn:Hp.
  - rewrite (async_validator_applies _ _ _ _ _ _ Hp) in H.
    by injection H as <- _.
  - destruct (async_validator_skipped env m validator0 s Hp) as [l E].
    rewrite E in H. by injection H as <- _.
Qed.

Lemma field_validator_Ok env fieldData cls o s validator s1 :
  field_validator env fieldData (JObj cls o) s = Ok validator s1 ->
  exists l, log s1 = log s ++ l /\ validator_of env fieldData l validator.
Proof.
  unfold field_validator, validator_of. intros H.
  inv_bind H as validation s0 H0. apply get_prop_Ok in H0 as [-> ->].
  cbn [truthy andb] in H.
  destruct (truthy (prop fieldData "validation")) eqn:Et.
  - inv_bind H as required s0 H0. apply get_prop_Ok in H0 as [-> ->].
    inv_bind H as u sr Hr.
    assert (log_ext s sr) as [lr Hlr]
      by (eapply preserves_Ok; [|exact Hr]; clear; frame).
    inv_bind H as validator0 s2 H2.
    apply sync_validator_Ok in H2 as (l2 & Hl2 & Hsync).
    apply async_validator_Ok in H as ([l3 Hl3] & Hasync).
    exists (lr ++ l2 ++ l3). split.
    + by rewrite Hl3, Hl2, Hlr, <- !app_assoc.
    + destruct (async_of _ _) as [[f method]|]; [done|]. subst validator0.
      by apply sync_validator_of_more.
  - injection H as <- <-. exists []. split; [by rewrite app_nil_r|].
    by destruct (prop fieldData "validation").
Qed.

(** *** The body of the loop *)

Lemma configure_field_Ok env handlers fieldType fieldData key e s s1 :
  configure_field env handlers fieldType fieldData key e s = Ok tt s1 ->
  exists cls o form validator l1 l2,
    e = JObj cls o /\
    _form s = Some form /\
    log s1 = log s
             ++ ECall (RObj o) "setUserData" [JStr "key"; JStr key]
             :: l1
             ++ EFormAdd form e
                  (if truthy (prop fieldData "label")
                   then prop fieldData "label" else JStr "")
                  validator
             :: l2 /\
    validator_of env fieldData l1 validator /\
    element_of s1 key = Some e.
Proof.
  unfold configure_field. intros H.
  inv_bind H as u s1' H1. destruct u.
  apply call_on_Ok in H1 as (cls & o & -> & ->).
  inv_bind H as addTo s0 H0. apply get_prop_Ok in H0 as [-> ->].
  inv_bind H as u2 s2 H2.
  inv_bind H as validator s3 H3.
  inv_bind H as u4 s4 H4.
  inv_bind H as hasPost s0 H0. apply has_prop_Ok in H0 as ->.
  inv_bind H as u5 s5 H5.
  inv_bind H as u6 s6 H6.
  inv_bind H as u7 s7 H7.
  apply add_to_form_Ok in H as (form & l8 & Hform & Hlog8 & Helem).
  set (s1' := set_log _ s) in *.
  assert (calls_only s1' s2) as Hc2
    by (eapply preserves_Ok; [|exact H2]; clear; frame).
  assert (calls_only s3 s7) as Hc7.
  { transitivity s4; [eapply preserves_Ok; [|exact H4]; clear; frame|].
    transitivity s5; [eapply preserves_Ok; [|exact H5]; clear; frame|].
    transitivity s6; [eapply preserves_Ok; [|exact H6]; clear; frame|].
    eapply preserves_Ok; [|exact H7]; clear; frame. }
  assert (calls_only s2 s3) as Hc3
    by (eapply preserves_Ok; [|exact H3]; clear; frame).
  apply field_validator_Ok in H3 as (l3 & Hlog3 & Hv).
  apply calls_only_fields in Hc2 as ([l2 Hlog2] & Hform2 & _).
  apply calls_only_fields in Hc3 as (_ & Hform3 & _).
  apply calls_only_fields in Hc7 as ([l7 Hlog7] & Hform7 & _).
  exists cls, o, form, validator, (l2 ++ l3 ++ l7), l8.
  split; [done|]. split; [|split; [|split]].
  - rewrite <- Hform, Hform7, Hform3, Hform2. by subst s1'.
  - rewrite Hlog8, Hlog7, Hlog3, Hlog2. subst s1'. cbn.
    by rewrite <- !app_assoc.
  - by apply validator_of_more.
  - done.
Qed.

Lemma add_field_Ok env fd key s s1 form s_end :
  add_field env fd key s = Ok tt s1 ->
  _form s = Some form ->
  element_of s_end key = element_of s1 key ->
  field_added env fd (_registeredFormElements s) form s_end key s s1.
Proof.
  unfold field_added. intros H0 Hform Hend. split; [done|].
  split; [done|]. split; [done|].
  pose proof H0 as H. unfold add_field in H.
  inv_bind H as type sx Hx. apply get_prop_Ok in Hx as [-> ->].
  destruct (prop (Obj.get fd key) "type") as [| | | | |type| | |] eqn:Ety;
    try discriminate H.
  inv_bind H as registered sx Hx. apply gets_Ok in Hx as [-> ->].
  destruct (js_lookup (_registeredFormElements s) (toLowerCase type))
    as [handlers|] eqn:Ereg; [|discriminate H].
  inv_bind H as initElement sx Hx. apply get_prop_Ok in Hx as [-> ->].
  inv_bind H as result s2 H2.
  apply call_value_returns in H2 as (init & Hinit & Hres & ->).
  exists type, handlers, init, result.
  split; [done|]. split; [done|]. split; [done|]. cbn zeta.
  split; [done|].
  destruct (truthy result) eqn:Etr; cbn [negb] in H.
  - apply configure_field_Ok in H as
      (cls & o & form' & validator & l1 & l2 & -> & Hform' & Hlog & Hv
       & Helem).
    assert (form' = form) as -> by (cbn in Hform'; congruence).
    exists cls, o, validator, l1, l2. repeat split; try done. congruence.
  - by injection H as <-.
Qed.

Lemma loop_steps env fd keys s s' form s_end :
  List.NoDup keys ->
  for_each keys (add_field env fd) s = Ok tt s' ->
  _form s = Some form ->
  (forall key, In key keys -> element_of s_end key = element_of s' key) ->
  steps (field_added env fd (_registeredFormElements s) form s_end)
    keys s s'.
Proof.
  revert s. induction keys as [|key keys IH]; intros s Hnd H Hform Hend.
  - injection H as <-. constructor.
  - cbn in H. inv_bind H as u s1 H1. destruct u.
    inversion_clear Hnd as [|? ? Hnot Hnd'].
    pose proof (preserves_Ok built_kept _ _ _ _
      (preserves_add_field env built_kept key
         (built_kept_record key) fd) H1) as (_ & Hf1 & _ & _ & Hr1 & _).
    econstructor.
    + apply add_field_Ok; [exact H1 | exact Hform |].
      rewrite Hend by (by left).
      exact (preserves_Ok (kept_outside keys) _ _ _ _
               (preserves_for_each_add_field env (kept_outside keys) fd keys
                  (fun k e Hk => kept_outside_record keys k e Hk)) H
               key Hnot).
    + rewrite <- Hr1. apply IH; [done | done | congruence |].
      intros k Hk. apply Hend. by right.
Qed.

(** A loop goes through the list until the body throws. *)
Lemma for_each_stops {A} (l : list A) (f : A -> M unit) s :
  exists done rest sb,
    l = done ++ rest /\
    for_each done f s = Ok tt sb /\
    match rest with
    | [] => for_each l f s = Ok tt sb
    | x :: _ =>
        exists e sx, f x sb = Throw e sx /\ for_each l f s = Throw e sx
    end.
Proof.
  revert s. induction l as [|x l IH]; intros s.
  - by exists [], [], s.
  - destruct (f x s) as [[] s1|e sx] eqn:E.
    + destruct (IH s1) as (done & rest & sb & -> & Hdone & Hrest).
      exists (x :: done), rest, sb. split; [done|]. split.
      * cbn. unfold mbind, M_bind. by rewrite E.
      * destruct rest as [|y rest].
        -- cbn. unfold mbind, M_bind. by rewrite E.
        -- destruct Hrest as (e & sx & Hy & Hrun). exists e, sx.
           split; [done|]. cbn. unfold mbind, M_bind. by rewrite E.
    + exists [], (x :: l), s. split; [done|]. split; [done|].
      exists e, sx. split; [done|]. cbn. unfold mbind, M_bind. by rewrite E.
Qed.

(** Once the kludge of lines 419-423 has run, the stages before the loop
    do not touch the table of registered handlers. *)
Lemma before_fields_table env fd s sa :
  before_fields env fd s = Ok tt sa ->
  _registeredFormElements sa = _registeredFormElements (initialised s).
Proof.
  intros H.
  assert (before_fields env fd s
          = (dispose_previous ;; create_model fd ;;
             form ← create_form env; form_ready env form) (initialised s))
    as E.
  { unfold before_fields. pose proof (init_kludge_run s) as E0.
    unfold mbind, M_bind in *. unfold gets in *. cbn in *. by rewrite E0. }
  rewrite E in H.
  eapply (preserves_Ok (same_on _registeredFormElements)); [|exact H].
  clear. frame.
Qed.

(** C2 (amended).  Once the stages before the loop have returned,
    [_applyFormData] goes through the own keys of the map in their
    order, each in the state that the keys before it left, with the table
    of registered handlers as the kludge of lines 419-423 left it and
    with the form made by this call.  The loop stops at the first key for
    which its body throws, and the call throws what the body threw; when
    there is no such key, the call ends as the rendering ends.  For every
    key before that one, [field_added] holds: the type of the entry is a
    string, found in the table under its down-cased form; the
    [initElement] found there was called on the dialog with the field
    type, the entry and the key, and returned.  When it returned nothing
    that holds, nothing else was done for the key.  When it returned an
    element, [setUserData("key", key)] was called on it next, and the
    element was added to the form with the label of the entry, or the
    empty string when the label does not hold, and with the validator
    that lines 517-580 resolve; it was recorded in [_formElements] under
    the key, and is there when the call ends. *)
Theorem C2_fields_in_order env fd s sa :
  Obj.wf fd ->
  before_fields env fd s = Ok tt sa ->
  let run := _applyFormData env (Some fd) s in
  let table := _registeredFormElements (initialised s) in
  exists form done rest sb,
    _form sa = Some form /\
    _form (final run) = Some form /\
    Obj.keys fd = done ++ rest /\
    steps (field_added env fd table form (final run)) done sa sb /\
    match rest with
    | [] => run = render_form env sb
    | key :: _ =>
        exists e sx,
          add_field env fd key sb = Throw e sx /\ run = Throw e sx
    end.
Proof.
  intros Hwf Hbefore run table. subst run table.
  destruct (before_fields_Ok env fd s sa Hbefore) as
    (m & k & _ & _ & Hform & _).
  pose proof (built_kept_after_fields env fd sa) as (_ & Hform' & _).
  rewrite <- (before_fields_table env fd s sa Hbefore).
  rewrite _applyFormData_stages, Hbefore.
  unfold add_fields in *.
  destruct (for_each_stops (Obj.keys fd) (add_field env fd) sa) as
    (done & rest & sb & Hkeys & Hdone & Hrest).
  apply NoDup_ListNoDup in Hwf. unfold Obj.wf in Hwf. rewrite Hkeys in Hwf.
  exists (m + 1), done, rest, sb.
  split; [done|]. split; [by rewrite Hform', Hform|]. split; [done|].
  split.
  - apply loop_steps; [by apply List.NoDup_app_remove_r in Hwf | done
                      | done |].
    intros key Hkey. destruct rest as [|x rest].
    + rewrite Hrest. unfold element_of.
      by rewrite (preserves_render_form env (same_on _formElements) sb).
    + destruct Hrest as (e & sx & Hx & ->). cbn [final].
      assert (key <> x) as Hne.
      { intros ->. apply List.NoDup_remove_2 in Hwf. apply Hwf.
        apply in_or_app. by left. }
      pose proof (preserves_add_field env (kept_outside [x]) x
                    (fun e' => kept_outside_record [x] x e' (or_introl eq_refl))
                    fd sb) as Hkept.
      rewrite Hx in Hkept. apply Hkept. by intros [->|[]].
  - destruct rest as [|x rest].
    + by rewrite Hrest.
    + destruct Hrest as (e & sx & Hx & ->). by exists e, sx.
Qed.

(** C2 (amended), on a form of a text area and of a header, whose handler
    returns no element: both keys are gone through, the text area is in
    [_formElements] and nothing is there for the header. *)
Lemma C2_fields_in_order_witness :
  let header := JMap [("initElement", JFun "user.header.initElement")] in
  let fd :=
    [("notes", Example.text_area "Notes" 3);
     ("sep", JMap [("type", JStr "Header"); ("label", JStr "More")])] in
  let s := final (registerFormElementHandlers "Header" header Example.start) in
  let s' := final (_applyFormData Example.env (Some fd) s) in
  exists sa sb,
    before_fields Example.env fd s = Ok tt sa /\
    steps (field_added Example.env fd
             (_registeredFormElements (initialised s)) 4 s')
      ["notes"; "sep"] sa sb /\
    _applyFormData Example.env (Some fd) s = render_form Example.env sb /\
    element_of s' "notes" = Some (JObj "qx.ui.form.TextArea" 6) /\
    element_of s' "sep" = None.
Proof.
  intros header fd s s'.
  assert (E : before_fields Example.env fd s
              = Ok tt (final (before_fields Example.env fd s))).
  { vm_compute. reflexivity. }
  assert (Hwf : Obj.wf fd).
  { apply NoDup_ListNoDup. repeat constructor; cbn; intuition discriminate. }
  destruct (C2_fields_in_order Example.env fd s _ Hwf E)
    as (form & done & rest & sb & Hform & _ & Hkeys & Hsteps & Hrest).
  assert (form = 4) as -> by (vm_compute in Hform; congruence).
  destruct rest as [|x rest].
  - rewrite app_nil_r in Hkeys. subst done.
    exists (final (before_fields Example.env fd s)), sb.
    split; [exact E|]. split; [exact Hsteps|]. split; [exact Hrest|].
    split; vm_compute; reflexivity.
  - exfalso. destruct Hrest as (e & sx & _ & Hrun).
    vm_compute in Hrun. discriminate Hrun.
Defined.

(** C2, as stated, fails: a handler can return an element that is then
    neither added to the form nor recorded.  The type "TextArea" is
    registered and its [initElement] returns a text area, whose user data
    get the key; the entry has [userdata: null], for which line 621
    throws. *)
Lemma C2_element_made_but_not_added :
  let fd :=
    [("notes", JMap [("type", JStr "TextArea"); ("label", JStr "Notes");
                     ("userdata", JNull)])] in
  exists s',
    _applyFormData Example.env (Some fd) Example.start
    = Throw (TypeError "Cannot convert to object") s' /\
    In (EInvoke "TextArea.initElement" this_val
          [JStr "textarea"; Obj.get fd "notes"; JStr "notes"]
          (inr (JObj "qx.ui.form.TextArea" 6))) (log s') /\
    In (ECall (RObj 6) "setUserData" [JStr "key"; JStr "notes"]) (log s') /\
    form_adds (log s') = [] /\
    element_of s' "notes" = None.
Proof.
  vm_compute. eexists. split; [reflexivity|].
  split; [auto 20|]. split; [auto 20|]. split; reflexivity.
Qed.

(** ** The form container *)

Lemma dispose_previous_no_container s :
  _formContainer s = None ->
  exists s',
    dispose_previous s = Throw (TypeError "null has no properties") s' /\
    calls_only s s'.
Proof.
  intros Hk.
  assert (exists s', dispose_previous s
                     = Throw (TypeError "null has no properties") s')
    as [s' E].
  { unfold dispose_previous.
    destruct s as [? ? ? f c ? ? m ? ? ? ? ? ? ? ? ?]; cbn in *; subst.
    destruct c, m, f; run; eauto. }
  exists s'. split; [done|].
  pose proof (preserves_dispose_previous calls_only s) as H.
  by rewrite E in H.
Qed.

Lemma applyFormData_start env formData s :
  _applyFormData env formData s
  = match dispose_previous (initialised s) with
    | Ok _ s1 =>
        match formData with
        | None => Ok tt s1
        | Some fd =>
            (create_model fd ;;
             form ← create_form env;
             form_ready env form ;;
             add_fields env fd ;;
             render_form env) s1
        end
    | Throw e s1 => Throw e s1
    end.
Proof.
  unfold _applyFormData.
  pose proof (init_kludge_run s) as E0.
  unfold mbind, M_bind in *. unfold gets in *. cbn in *. rewrite E0.
  destruct (dispose_previous (initialised s)) as [[] s1|]; [|done].
  by destruct formData.
Qed.

(** X1.  On a dialog that has no form container yet, that is before
    [_createWidgetContent], applying form data throws a TypeError, for a
    map as for [null]: the teardown calls [removeAll] on the container.
    Nothing but toolkit calls of the teardown has happened by then. *)
Theorem applyFormData_needs_container env formData s :
  _formContainer s = None ->
  exists s',
    _applyFormData env formData s
    = Throw (TypeError "null has no properties") s' /\
    calls_only (initialised s) s'.
Proof.
  intros Hk. rewrite applyFormData_start.
  destruct (initialised_fields s) as (_&_&_&_&_&Hk'&_).
  rewrite Hk in Hk'.
  destruct (dispose_previous_no_container _ Hk') as (s' & -> & Hc).
  by exists s'.
Qed.

(** X1, on a dialog that was constructed and has no content, for [null]
    and for a form of one text area. *)
Lemma applyFormData_needs_container_witness :
  (exists s',
     _applyFormData Example.env None ExampleDialog.constructed
     = Throw (TypeError "null has no properties") s') /\
  (exists s',
     _applyFormData Example.env
       (Some [("notes", Example.text_area "Notes" 3)])
       ExampleDialog.constructed
     = Throw (TypeError "null has no properties") s').
Proof.
  split.
  - destruct (applyFormData_needs_container Example.env None
                ExampleDialog.constructed eq_refl) as (s' & H & _).
    exists s'. exact H.
  - destruct (applyFormData_needs_container Example.env
                (Some [("notes", Example.text_area "Notes" 3)])
                ExampleDialog.constructed eq_refl) as (s' & H & _).
    exists s'. exact H.
Defined.

(** ** Setting the form data to [null] *)

Lemma dispose_previous_no_model s c f k :
  _formController s = Some c -> _form s = Some f -> model s = None ->
  _formContainer s = Some k ->
  dispose_previous s
  = Ok tt (set_log
             (log s ++
              [ECall (RSub (RObj f) "getValidationManager")
                 "removeAllBindings" [];
               ECall (RObj f) "dispose" [];
               ECall (RObj k) "removeAll" []]) s).
Proof.
  intros Hc Hf Hm Hk. unfold dispose_previous. open_state s.
  by rewrite <- !app_assoc.
Qed.

Lemma null_returns env s k :
  _formContainer s = Some k ->
  exists s', _applyFormData env None s = Ok tt s'.
Proof.
  intros Hk. rewrite applyFormData_start.
  destruct (initialised_fields s) as (_ & _ & _ & _ & _ & Hk' & _).
  rewrite Hk in Hk'.
  destruct (dispose_previous_returns _ _ Hk') as (s' & -> & _).
  by exists s'.
Qed.

(** X2.  With a form container, setting the form data to [null] returns
    in every state of the dialog: what fails in the teardown is caught.
    Only toolkit calls are made, so [getForm()] still returns the form
    that was disposed.  When there is a controller and the model
    property is [null], the controller is not disposed: the failure of
    [getModel().removeAllBindings()] is caught before [dispose] is
    reached, and the teardown goes on with the form. *)
Theorem null_never_throws env s k :
  _formContainer s = Some k ->
  exists s',
    _applyFormData env None s = Ok tt s' /\
    calls_only (initialised s) s' /\
    getForm s' = Ok (_form s) s' /\
    (forall c f,
       _formController s = Some c -> _form s = Some f -> model s = None ->
       log s' = log s ++
                [ECall (RSub (RObj f) "getValidationManager")
                   "removeAllBindings" [];
                 ECall (RObj f) "dispose" [];
                 ECall (RObj k) "removeAll" []]).
Proof.
  intros Hk. rewrite applyFormData_start.
  destruct (initialised_fields s) as (Hl & _ & Hm & Hf & Hc & Hk' & _).
  rewrite Hk in Hk'.
  destruct (dispose_previous_returns _ _ Hk') as (s' & E & Hcalls).
  rewrite E. exists s'. split; [done|]. split; [done|]. split.
  - unfold getForm, gets. f_equal.
    destruct Hcalls as (l & n & ->). cbn. done.
  - intros c f Hc0 Hf0 Hm0.
    rewrite (dispose_previous_no_model (initialised s) c f k) in E;
      [|congruence..].
    injection E as <-. cbn. by rewrite Hl.
Qed.

(** X2, on a dialog whose model property was reset after a form was
    built. *)
Lemma null_never_throws_witness :
  let fd := [("notes", Example.text_area "Notes" 3)] in
  let s := set_model None
             (final (_applyFormData Example.env (Some fd) Example.start)) in
  exists s',
    _applyFormData Example.env None s = Ok tt s' /\
    getForm s' = Ok (Some 4) s' /\
    log s' = log s ++
             [ECall (RSub (RObj 4) "getValidationManager")
                "removeAllBindings" [];
              ECall (RObj 4) "dispose" [];
              ECall (RObj 1) "removeAll" []].
Proof.
  intros fd s.
  destruct (null_never_throws Example.env s 1 eq_refl)
    as (s' & H & _ & Hform & Hlog).
  exists s'. split; [exact H|]. split; [exact Hform|].
  exact (Hlog 5 4 eq_refl eq_refl eq_refl).
Defined.

(** X3.  After a form was built and the form data was set to [null],
    the members still hold the disposed form and controller, and the
    [model] property holds the model, whose bindings were removed and
    which was not disposed.  The next map that is applied runs the
    teardown on them a second time, and only then disposes the model. *)
Theorem rebuild_after_null env fd fd2 s s1 :
  _applyFormData env (Some fd) s = Ok tt s1 ->
  exists m f c k s2,
    model s1 = Some m /\ _form s1 = Some f /\ _formController s1 = Some c /\
    _formContainer s1 = Some k /\
    _applyFormData env None s1 = Ok tt s2 /\
    log s2 = log s1 ++ teardown_calls m c f k /\
    getForm s2 = Ok (Some f) s2 /\
    model s2 = Some m /\
    _formController s2 = Some c /\
    ~ In (ECall (RObj m) "dispose" []) (teardown_calls m c f k) /\
    exists l,
      log (final (_applyFormData env (Some fd2) s2))
      = log s2 ++ teardown_calls m c f k
          ++ [ECall (RObj m) "removeAllBindings" [];
              ECall (RObj m) "dispose" []]
          ++ l.
Proof.
  intros H.
  destruct (applied_state env fd s s1 H) as
    (m & f & c & k & Hm & Hf & Hc & Hk & Hmf & Hfc & _ & Hfe).
  exists m, f, c, k, (set_log (log s1 ++ teardown_calls m c f k) s1).
  do 4 (split; [done|]).
  split; [by apply _applyFormData_null|]. split; [done|].
  split; [unfold getForm, gets; cbn; by rewrite Hf|].
  split; [done|]. split; [done|]. split.
  - cbn. intros [E|[E|[E|[E|[E|[]]]]]]; try discriminate; injection E; lia.
  - by apply rebuild_tears_down.
Qed.

(** X3, on two forms of one text area each. *)
Lemma rebuild_after_null_witness :
  let fd := [("a", Example.text_area "A" 3)] in
  let fd2 := [("b", Example.text_area "B" 3)] in
  exists s1 s2 l,
    _applyFormData Example.env (Some fd) Example.start = Ok tt s1 /\
    _applyFormData Example.env None s1 = Ok tt s2 /\
    log s2 = log s1 ++ teardown_calls 3 5 4 1 /\
    log (final (_applyFormData Example.env (Some fd2) s2))
    = log s2 ++ teardown_calls 3 5 4 1
        ++ [ECall (RObj 3) "removeAllBindings" [];
            ECall (RObj 3) "dispose" []]
        ++ l.
Proof.
  intros fd fd2.
  assert (E : _applyFormData Example.env (Some fd) Example.start
              = Ok tt (final (_applyFormData Example.env (Some fd)
                                Example.start))).
  { vm_compute. reflexivity. }
  destruct (rebuild_after_null Example.env fd fd2 Example.start _ E) as
    (m & f & c & k & s2 & Hm & Hf & Hc & Hk & E2 & Hlog & _ & _ & _ & _
     & l & Hl).
  assert (m = 3) as -> by (vm_compute in Hm; congruence).
  assert (f = 4) as -> by (vm_compute in Hf; congruence).
  assert (c = 5) as -> by (vm_compute in Hc; congruence).
  assert (k = 1) as -> by (vm_compute in Hk; congruence).
  exists (final (_applyFormData Example.env (Some fd) Example.start)), s2, l.
  split; [exact E|]. split; [exact E2|]. split; [exact Hlog|exact Hl].
Defined.

(** ** An entry that is [null] *)

Lemma modelData_from_null fd keys md key :
  In key keys ->
  Obj.get fd key = JNull \/ Obj.get fd key = JUndefined ->
  modelData_from fd keys md = None.
Proof.
  intros Hin Hnull. revert md.
  induction keys as [|k keys IH]; intros md; [done|]. cbn.
  destruct Hin as [->|Hin].
  - by destruct Hnull as [-> | ->].
  - destruct (Obj.get fd k); try done; by apply IH.
Qed.

Lemma dispose_previous_logs s k :
  _formContainer s = Some k ->
  exists l, dispose_previous s = Ok tt (set_log (log s ++ l) s).
Proof.
  intros Hk. unfold dispose_previous.
  destruct s as [? ? ? f c ? ? m ? ? ? ? ? ? ? ? ?]; cbn in *; subst.
  destruct c, m, f; run; rewrite <- ?app_assoc; cbn;
    first [ by eexists | exists []; by rewrite app_nil_r ].
Qed.

(** X4.  When an entry of the form data is [null] or [undefined], the
    call throws a TypeError while it collects the values for the model
    (line 449).  The teardown is done by then and the previous model is
    disposed, but no object was made: the [model] property, the form and
    the controller are still the disposed ones. *)
Theorem null_entry_throws env fd s k key :
  _formContainer s = Some k ->
  In key (Obj.keys fd) ->
  Obj.get fd key = JNull \/ Obj.get fd key = JUndefined ->
  exists s',
    _applyFormData env (Some fd) s
    = Throw (TypeError "undefined has no properties") s' /\
    calls_only (initialised s) s' /\
    next_id s' = next_id s /\
    forall m, model s = Some m -> In (ECall (RObj m) "dispose" []) (log s').
Proof.
  intros Hk Hin Hnull. rewrite applyFormData_start.
  destruct (initialised_fields s) as (Hl & Hid & Hm & _ & _ & Hk' & _).
  rewrite Hk in Hk'.
  destruct (dispose_previous_logs _ _ Hk') as (l & ->).
  unfold mbind at 1, M_bind at 1. rewrite create_model_run. cbn zeta.
  rewrite (modelData_from_null fd _ [] key Hin Hnull).
  eexists. split; [reflexivity|].
  unfold previous_model_disposed. cbn [model set_log]. rewrite Hm.
  destruct (model s) as [m|]; cbn.
  - split; [|split; [done|]].
    + exists (l ++ [ECall (RObj m) "removeAllBindings" [];
                    ECall (RObj m) "dispose" []]), 0.
      destruct (initialised s); cbn.
      by rewrite Nat.add_0_r, <- app_assoc.
    + intros ? [= <-]. apply in_or_app. right. right. by left.
  - split; [|split; [done|done]].
    exists l, 0. destruct (initialised s); cbn. by rewrite Nat.add_0_r.
Qed.

(** X4, on a form whose second entry is [null], applied after a form
    was built. *)
Lemma null_entry_throws_witness :
  let fd1 := [("a", Example.text_area "A" 3)] in
  let fd2 := [("b", Example.text_area "B" 3); ("c", JNull)] in
  let s := final (_applyFormData Example.env (Some fd1) Example.start) in
  exists s',
    _applyFormData Example.env (Some fd2) s
    = Throw (TypeError "undefined has no properties") s' /\
    model s' = Some 3 /\
    In (ECall (RObj 3) "dispose" []) (log s').
Proof.
  intros fd1 fd2 s.
  destruct (null_entry_throws Example.env fd2 s 1 "c" eq_refl
              (or_intror (or_introl eq_refl)) (or_introl eq_refl))
    as (s' & H & (l & n & Hs') & _ & Hin).
  exists s'. split; [exact H|]. split.
  - rewrite Hs'. reflexivity.
  - exact (Hin 3 eq_refl).
Defined.

(** ** Objects owned by id *)

#[global] Instance hooks_kept_frame : Frame hooks_kept.
Proof.
  split; [split |..]; unfold hooks_kept.
  - intros s. by repeat split.
  - intros s1 s2 s3 (?&?&?&?&?&?) (?&?&?&?&?&?).
    repeat split; congruence.
  - intros s l. by repeat split.
  - intros s k. by repeat split.
Qed.

#[global] Hint Extern 2 (Allows _ hooks_kept) =>
  (intros ? ?; by repeat split) : typeclass_instances.

(** [create_form], as to the objects the dialog owns by id. *)
Lemma create_form_owned env s :
  exists s' l,
    create_form env s = Ok (next_id s) s' /\
    log s' = log s ++ l /\
    ownedQxObjects s'
    = (if module_objectid env
       then <["form" := next_id s]> (ownedQxObjects s)
       else ownedQxObjects s) /\
    (module_objectid env = true ->
     is_Some (ownedQxObjects s !! "form") ->
     exists l1 l2,
       l = l1 ++ ECall RThis "removeOwnedQxObject" [JStr "form"]
             :: ECall RThis "addOwnedQxObject"
                  [JObj "qx.ui.form.Form" (next_id s); JStr "form"] :: l2).
Proof.
  unfold create_form.
  destruct s as [? ? ? ? ? ? ? ? ? ? ? ? ? ? owned n lg]; cbn. run.
  destruct (module_objectid env); run.
  - case_bool_decide as Hin; run; rewrite <- ?app_assoc; cbn.
    + do 2 eexists. split; [reflexivity|]. cbn.
      split; [reflexivity|]. split; [by rewrite insert_delete_eq|].
      intros _ _. exists [ENew n "qx.ui.form.Form" []]. by eexists.
    + do 2 eexists. split; [reflexivity|]. cbn.
      split; [reflexivity|]. split; [done|]. by intros _ ?.
  - rewrite <- ?app_assoc; cbn.
    do 2 eexists. split; [reflexivity|]. cbn.
    split; [reflexivity|]. split; [done|]. by intros ?.
Qed.

Lemma owned_kept_initialised s :
  ownedQxObjects (initialised s) = ownedQxObjects s.
Proof.
  unfold initialised. destruct (_formElements s); [done|].
  by rewrite _init_run.
Qed.

Lemma owned_kept_null env : 
  preserves (same_on ownedQxObjects) (_applyFormData env None).
Proof. unfold _applyFormData. frame. Qed.

Lemma owned_kept_after env fd form :
  preserves (same_on ownedQxObjects)
    (form_ready env form ;; add_fields env fd ;; render_form env).
Proof.
  pose proof (preserves_add_fields env (same_on ownedQxObjects) fd
                (fun key e _ => preserves_record_formElement _ key e)).
  frame.
Qed.

Lemma form_kept_after env fd form :
  preserves built_kept
    (form_ready env form ;; add_fields env fd ;; render_form env).
Proof.
  pose proof (preserves_add_fields env built_kept fd
                (fun key e _ => built_kept_record key e)).
  frame.
Qed.

(** X5.  The object ids (lines 457-462).  When [_applyFormData] has
    built a form, with [module.objectid] on, the dialog owns the new form
    under the id "form", whatever it owned under that id before, and
    its other owned objects are as they were; an object owned under
    "form" before was removed first.  With [module.objectid] off the
    owned objects are not touched.  Setting the form data to [null]
    afterwards leaves them as they are: the disposed form stays owned. *)
Theorem form_is_owned env fd s s' :
  _applyFormData env (Some fd) s = Ok tt s' ->
  exists f,
    _form s' = Some f /\
    ownedQxObjects s'
    = (if module_objectid env
       then <["form" := f]> (ownedQxObjects s)
       else ownedQxObjects s) /\
    (module_objectid env = true ->
     is_Some (ownedQxObjects s !! "form") ->
     exists l1 l2,
       log s' = l1 ++ ECall RThis "removeOwnedQxObject" [JStr "form"]
                  :: ECall RThis "addOwnedQxObject"
                       [JObj "qx.ui.form.Form" f; JStr "form"] :: l2) /\
    ownedQxObjects (final (_applyFormData env None s')) = ownedQxObjects s'.
Proof.
  intros H.
  assert (Hnull : ownedQxObjects (final (_applyFormData env None s'))
                  = ownedQxObjects s') by apply owned_kept_null.
  rewrite _applyFormData_rebuild in H. unfold rebuild in H.
  inv_bind H as u1 s1 H1. inv_bind H as u2 s2 H2. inv_bind H as form s3 H3.
  assert (Ho2 : ownedQxObjects s2 = ownedQxObjects s).
  { rewrite <- (owned_kept_initialised s).
    transitivity (ownedQxObjects s1).
    - exact (preserves_Ok (same_on ownedQxObjects) _ _ _ _
               (preserves_create_model _ fd) H2).
    - exact (preserves_Ok (same_on ownedQxObjects) _ _ _ _
               (preserves_dispose_previous _) H1). }
  destruct (create_form_owned env s2) as (s3' & l3 & E3 & Hl3 & Ho3 & Hrm).
  rewrite E3 in H3. injection H3 as <- <-.
  destruct (create_form_run env s2) as (s3 & E3' & Hf3 & _).
  rewrite E3 in E3'. injection E3' as <-.
  pose proof (preserves_Ok _ _ _ _ _ (owned_kept_after env fd _) H) as Ho.
  pose proof (preserves_Ok _ _ _ _ _ (form_kept_after env fd _) H)
    as (_ & Hf & _ & _ & _ & _ & _ & l4 & Hl4).
  unfold same_on in Ho.
  exists (next_id s2). split; [by rewrite Hf, Hf3|]. split; [|split; [|done]].
  - rewrite Ho, Ho3, Ho2. done.
  - intros Hid Hown. rewrite <- Ho2 in Hown.
    destruct (Hrm Hid Hown) as (l1 & l2 & ->).
    exists (log s2 ++ l1), (l2 ++ l4).
    rewrite Hl4, Hl3, <- !app_assoc. reflexivity.
Qed.

(** X5, on a dialog that owns an object under "form", with
    [module.objectid] on. *)
Lemma form_is_owned_witness :
  let env :=
    {| module_objectid := true;
       qx_util_Validate := qx_util_Validate Example.env;
       RegExp_compiles := RegExp_compiles Example.env;
       js_eval := js_eval Example.env;
       js_call := js_call Example.env;
       members_of := members_of Example.env;
       toNativeObject := toNativeObject Example.env |} in
  let fd := [("notes", Example.text_area "Notes" 3)] in
  let s := set_ownedQxObjects {["form" := 7]} Example.start in
  exists s',
    _applyFormData env (Some fd) s = Ok tt s' /\
    _form s' = Some 4 /\
    ownedQxObjects s' !! "form" = Some 4.
Proof.
  intros env fd s.
  assert (E : _applyFormData env (Some fd) s
              = Ok tt (final (_applyFormData env (Some fd) s))).
  { vm_compute. reflexivity. }
  destruct (form_is_owned env fd s _ E) as (f & Hf & Ho & _).
  exists (final (_applyFormData env (Some fd) s)).
  split; [exact E|].
  assert (f = 4) as -> by (vm_compute in Hf; congruence).
  split; [exact Hf|].
  rewrite Ho. apply lookup_insert_eq.
Defined.

(** ** The hooks of a new form *)

Lemma form_ready_run env form s :
  form_ready env form s
  = call_formReadyFunction env form
      (set_log (log s ++ ready_calls form (_okButton s)) s).
Proof.
  unfold form_ready, _onFormReady. destruct s; cbn. run.
  by rewrite <- app_assoc.
Qed.

Lemma call_formReadyFunction_none env form s :
  truthy (formReadyFunction s) = false ->
  call_formReadyFunction env form s
  = Ok tt (set_log
             (log s ++ [ECall RThis "addListenerOnce"
                          [JStr "formReadyFunctionChanged";
                           JFun "call the form ready function";
                           context s]]) s).
Proof.
  intros Hf. unfold call_formReadyFunction. destruct s; cbn in *. run.
  by rewrite Hf.
Qed.

Lemma call_formReadyFunction_function env form s g :
  formReadyFunction s = JFun g ->
  let args := [JObj "qx.ui.form.Form" form; this_val] in
  let o := js_call env g (context s) args s in
  let s' :=
    set_log (log s ++ EInvoke g (context s) args (out_result o)
                        :: out_events o)
      (set_next_id (next_id s + out_created o) s) in
  call_formReadyFunction env form s
  = match out_result o with
    | inr _ => Ok tt s'
    | inl e => Throw e s'
    end.
Proof.
  intros Hf. cbn zeta. unfold call_formReadyFunction, call_value, invoke.
  destruct s; cbn in *. subst. run. unfold id.
  match goal with
  | |- context [js_call env g ?c ?a ?s'] => generalize (js_call env g c a s')
  end.
  intros [evs n [e|v]]; cbn; reflexivity.
Qed.

Lemma modelData_from_Some fd keys md :
  (forall key, In key keys -> exists props, Obj.get fd key = JMap props) ->
  exists md', modelData_from fd keys md = Some md'.
Proof.
  revert md. induction keys as [|key keys IH]; intros md Hmaps; cbn.
  - by eexists.
  - destruct (Hmaps key) as [props ->]; [by left|].
    apply IH. intros k Hk. apply Hmaps. by right.
Qed.

(** The stages of [_applyFormData] up to the new form and controller
    respect what the assignments of these stages respect. *)
Lemma until_create_form env fd s s1 s3 md form R
    `{!Frame R} `{!Allows set_registeredFormElements R}
    `{!Allows set_internalFormElements R} `{!Allows set_formElements R}
    `{!Allows set_model R} `{!Allows set_form R}
    `{!Allows set_formController R} `{!Allows set_ownedQxObjects R} :
  dispose_previous (initialised s) = Ok tt s1 ->
  modelData_from fd (Obj.keys fd) [] = Some md ->
  create_form env (final (create_model fd s1)) = Ok form s3 ->
  R s s3.
Proof.
  intros E1 Hmd E3.
  transitivity (initialised s).
  { pose proof (preserves_bind R (gets _formElements)
      (fun fe => when (negb (bool_decide (is_Some fe))) _init)
      (preserves_gets R _)
      (fun fe => preserves_when R _ _ (preserves__init R)) s) as H.
    by rewrite init_kludge_run in H. }
  transitivity s1.
  { exact (preserves_Ok R _ _ _ _ (preserves_dispose_previous R) E1). }
  transitivity (final (create_model fd s1)).
  { apply (preserves_create_model R). }
  exact (preserves_Ok R _ _ _ _ (preserves_create_form env R) E3).
Qed.

(** X6.  The hooks of a new form (lines 464-483).  Once the model, the
    form and the controller are made, [_onFormReady] is called on the
    form twice, so the OK button is bound to the validity of the form
    twice.  Then the form ready function, when one is set, is called on
    the context with the form and the dialog; with none set, a listener
    waits for one.  When the function throws, [_applyFormData] throws
    what it threw, and no field has been added. *)
Theorem form_ready_hooks env fd s k :
  _formContainer s = Some k ->
  (forall key, In key (Obj.keys fd) ->
     exists props, Obj.get fd key = JMap props) ->
  exists form pre sx,
    _form sx = Some form /\
    log sx = log s ++ pre ++ ready_calls form (_okButton s) /\
    (truthy (formReadyFunction s) = false ->
     exists l,
       log (final (_applyFormData env (Some fd) s))
       = log sx ++ ECall RThis "addListenerOnce"
                     [JStr "formReadyFunctionChanged";
                      JFun "call the form ready function";
                      context s] :: l) /\
    (forall g,
       formReadyFunction s = JFun g ->
       let args := [JObj "qx.ui.form.Form" form; this_val] in
       let o := js_call env g (context s) args sx in
       (exists l,
          log (final (_applyFormData env (Some fd) s))
          = log sx ++ EInvoke g (context s) args (out_result o)
                        :: out_events o ++ l) /\
       (forall e,
          out_result o = inl e ->
          exists s',
            _applyFormData env (Some fd) s = Throw e s' /\
            log s' = log sx ++ EInvoke g (context s) args (inl e)
                              :: out_events o /\
            _formElements s' = _formElements (initialised s))).
Proof.
  intros Hk Hmaps.
  destruct (before_fields_run env fd s k Hk) as (s1 & E1 & Hcalls & Eb).
  destruct (modelData_from_Some fd (Obj.keys fd) [] Hmaps) as (md & Hmd).
  pose proof (create_model_run fd s1) as E2. rewrite Hmd in E2.
  cbn zeta in E2. rewrite E2 in Eb.
  set (s2 := set_model _ _) in *.
  destruct (create_form_run env s2) as
    (s3 & E3 & Hf3 & _ & _ & _ & _ & Hfe3 & _).
  rewrite E3, form_ready_run in Eb.
  assert (Hs2 : s2 = final (create_model fd s1)) by (by rewrite E2).
  rewrite Hs2 in E3.
  pose proof (until_create_form env fd s s1 s3 md _ hooks_kept E1 Hmd E3)
    as (Hok & Hctx & Hfr & _).
  pose proof (until_create_form env fd s s1 s3 md _ log_ext E1 Hmd E3)
    as [pre Hpre].
  assert (Hfe : _formElements s3 = _formElements (initialised s)).
  { rewrite Hfe3. subst s2. cbn.
    destruct (previous_model_disposed_fields s1) as (_ & _ & _ & ->).
    destruct Hcalls as (l & n & ->). done. }
  rewrite <- Hs2 in *. clear Hs2 E3 E2.
  set (form := next_id s2) in *.
  set (sx := set_log (log s3 ++ ready_calls form (_okButton s3)) s3) in *.
  assert (Hrest : forall s4,
            exists l,
              log (final match add_fields env fd s4 with
                         | Ok _ s5 => render_form env s5
                         | Throw e s5 => Throw e s5
                         end) = log s4 ++ l).
  { intros s4. by destruct (built_kept_after_fields env fd s4)
      as (_&_&_&_&_&_&_&?). }
  assert (Hformx : _form sx = Some form) by exact Hf3.
  assert (Hfrx : formReadyFunction sx = formReadyFunction s) by exact Hfr.
  assert (Hctxx : context sx = context s) by exact Hctx.
  assert (Hfex : _formElements sx = _formElements (initialised s))
    by exact Hfe.
  assert (Hlogx : log sx = log s ++ pre ++ ready_calls form (_okButton s)).
  { subst sx. cbn. by rewrite Hpre, Hok, <- app_assoc. }
  clearbody sx.
  exists form, pre, sx. split; [done|]. split; [done|].
  rewrite _applyFormData_stages, Eb. split.
  - intros Hnone. rewrite call_formReadyFunction_none by (by rewrite Hfrx).
    match goal with
    | |- context [add_fields env fd ?s4] => destruct (Hrest s4) as [l Hl]
    end.
    exists l. rewrite Hl. cbn. rewrite <- app_assoc. cbn. by rewrite Hctxx.
  - intros g Hg. cbn zeta.
    rewrite (call_formReadyFunction_function env form sx g)
      by (by rewrite <- Hg, <- Hfrx).
    cbn zeta. rewrite Hctxx.
    destruct (out_result _) as [e|v] eqn:Er.
    + split.
      * exists []. cbn. by rewrite app_nil_r.
      * intros e' [= <-]. eexists. split; [reflexivity|]. by split.
    + split; [|done].
      match goal with
      | |- context [add_fields env fd ?s4] => destruct (Hrest s4) as [l Hl]
      end.
      exists l. rewrite Hl. cbn. by rewrite <- app_assoc.
Qed.

(** X6, on a new dialog with no form ready function. *)
Lemma form_ready_hooks_witness :
  let fd := [("notes", Example.text_area "Notes" 3)] in
  exists form pre sx l,
    _form sx = Some form /\
    log sx = log Example.start ++ pre
               ++ ready_calls form (JObj "qx.ui.form.Button" 2) /\
    log (final (_applyFormData Example.env (Some fd) Example.start))
    = log sx ++ ECall RThis "addListenerOnce"
                  [JStr "formReadyFunctionChanged";
                   JFun "call the form ready function"; JNull] :: l.
Proof.
  intros fd.
  destruct (form_ready_hooks Example.env fd Example.start 1 eq_refl)
    as (form & pre & sx & Hform & Hlog & Hnone & _).
  { intros key [<-|[]]. by eexists. }
  destruct (Hnone eq_refl) as [l Hl].
  exists form, pre, sx, l.
  split; [exact Hform|]. split; [exact Hlog|exact Hl].
Defined.

(** ** Rendering *)

Lemma default_setupFormRenderer_run s :
  default_setupFormRenderer s
  = Ok (JObj "qxl.dialog.FormRenderer" (next_id s))
      (set_log
         (log s ++
          [ENew (next_id s) "qxl.dialog.FormRenderer" [form_val (_form s)];
           ECall (RSub (RObj (next_id s)) "getLayout") "setColumnFlex"
             [JNum 0; JNum 0];
           ECall (RSub (RObj (next_id s)) "getLayout") "setColumnMaxWidth"
             [JNum 0; JNum (labelColumnWidth s)];
           ECall (RSub (RObj (next_id s)) "getLayout") "setColumnWidth"
             [JNum 0; JNum (labelColumnWidth s)];
           ECall (RSub (RObj (next_id s)) "getLayout") "setColumnFlex"
             [JNum 1; JNum 1];
           ECall (RObj (next_id s)) "setAllowGrowX" [JBool true]])
         (set_next_id (next_id s + 1) s)).
Proof.
  destruct s. cbv -[app Z.add]. by rewrite <- !app_assoc.
Qed.

Lemma kept_until_rendering env fd R
    `{!Frame R} `{!Allows set_registeredFormElements R}
    `{!Allows set_internalFormElements R} `{!Allows set_formElements R}
    `{!Allows set_model R} `{!Allows set_form R}
    `{!Allows set_formController R} `{!Allows set_ownedQxObjects R} s s1 s2 :
  before_fields env fd s = Ok tt s1 ->
  add_fields env fd s1 = Ok tt s2 ->
  R s s2.
Proof.
  intros E1 E2. transitivity s1.
  - eapply preserves_Ok; [|exact E1]. unfold before_fields. clear E1 E2. frame.
  - eapply preserves_Ok; [|exact E2].
    apply preserves_add_fields; [exact _|].
    intros key e _. by apply preserves_record_formElement.
Qed.

(** X7.  Rendering ends the build (lines 670-699).  When
    [_applyFormData] returns on a map, the last things it did are these:
    it made the view of the form, with the default renderer when no
    function is set for it, laid out with the label column width for
    column 0, or by calling the function set for it on the dialog with
    the form; it added the view to the form container; it validated the
    form; and it called the finalize function, when one is set, on the
    context with the form and the dialog. *)
Theorem rendering_ends_the_build env fd s s' :
  _applyFormData env (Some fd) s = Ok tt s' ->
  exists form k sr post,
    _form s' = Some form /\ _formContainer s' = Some k /\
    log_ext s sr /\
    let form_v := JObj "qx.ui.form.Form" form in
    (truthy (setupFormRendererFunction s) = false ->
     log s' = log sr
              ++ default_render_calls (next_id sr) form k (labelColumnWidth s)
              ++ post) /\
    (forall r,
       setupFormRendererFunction s = JFun r ->
       exists view,
         log s' = log sr
                  ++ EInvoke r this_val [form_v] (inr view)
                     :: out_events (js_call env r this_val [form_v] sr)
                  ++ [ECall (RObj k) "add" [view];
                      ECall (RSub (RObj form) "getValidationManager")
                        "validate" []]
                  ++ post) /\
    (truthy (finalizeFunction s) = false -> post = []) /\
    (forall g,
       finalizeFunction s = JFun g ->
       exists sf v,
         post = EInvoke g (context s) [form_v; this_val] (inr v)
                :: out_events (js_call env g (context s) [form_v; this_val]
                                 sf)).
Proof.
  intros H. rewrite _applyFormData_stages in H.
  destruct (before_fields env fd s) as [[] s1|] eqn:E1; [|done].
  destruct (add_fields env fd s1) as [[] s2|] eqn:E2; [|done].
  destruct (before_fields_Ok env fd s s1 E1) as
    (m & k & _ & _ & Hf1 & _ & _ & Hk1 & _).
  pose proof (kept_until_rendering env fd hooks_kept s s1 s2 E1 E2)
    as (_ & Hctx & _ & Hsr & Hfin & Hw).
  pose proof (kept_until_rendering env fd log_ext s s1 s2 E1 E2) as Hlog.
  pose proof (preserves_Ok built_kept _ _ _ _
                (preserves_add_fields env built_kept fd
                   (fun key e _ => built_kept_record key e)) E2)
    as (_ & Hf2 & _ & Hk2 & _).
  rewrite Hf1 in Hf2. rewrite Hk1 in Hk2.
  pose proof (preserves_Ok built_kept _ _ _ _
                (preserves_render_form env built_kept) H)
    as (_ & Hf' & _ & Hk' & _).
  unfold render_form in H.
  inv_bind H as r s0 H0. apply gets_Ok in H0 as [-> ->].
  inv_bind H as c s0 H0. apply gets_Ok in H0 as [-> ->].
  inv_bind H as k' s0 H0. apply deref_Ok in H0 as [Hk0 ->].
  inv_bind H as f s0 H0. apply gets_Ok in H0 as [-> ->].
  inv_bind H as view sv Hv.
  inv_bind H as u sa Ha. injection Ha as _ <-.
  inv_bind H as f s0 H0. apply gets_Ok in H0 as [-> ->].
  inv_bind H as form s0 H0. apply deref_Ok in H0 as [Hform ->].
  inv_bind H as u' sb Hb. injection Hb as _ <-.
  inv_bind H as fin s0 H0. apply gets_Ok in H0 as [-> ->].
  assert (Hsv : forall R, Frame R -> R s2 sv).
  { intros R ?. eapply preserves_Ok; [|exact Hv].
    destruct (negb _); frame. }
  destruct (Hsv hooks_kept _) as (_ & Hctxv & _ & _ & Hfinv & _).
  destruct (Hsv built_kept _) as (_ & Hfv & _).
  rewrite Hk2 in Hk0. injection Hk0 as <-.
  assert (form = m + 1) as ->.
  { cbn in Hform. rewrite Hfv, Hf2 in Hform. by injection Hform. }
  clear Hform Hsv.
  set (sb := set_log _ (set_log _ sv)) in H.
  assert (Hlogb : log sb = log sv ++ [ECall (RObj k) "add" [view];
                    ECall (RSub (RObj (m + 1)) "getValidationManager")
                      "validate" []]).
  { subst sb. cbn. by rewrite <- app_assoc. }
  assert (Hctxb : context sb = context s) by (by rewrite <- Hctx, <- Hctxv).
  assert (Hfb : _form sb = Some (m + 1)) by (by rewrite <- Hf2, <- Hfv).
  assert (Hfinb : finalizeFunction sb = finalizeFunction s)
    by (by rewrite <- Hfin, <- Hfinv).
  clearbody sb.
  assert (exists post, log s' = log sb ++ post) as [post Hpost].
  { eapply (preserves_Ok log_ext); [|exact H]. frame. }
  exists (m + 1), k, s2, post.
  split; [by rewrite Hf'|]. split; [by rewrite Hk'|]. split; [done|].
  cbn zeta. split; [|split; [|split]].
  - intros Hnone. rewrite Hsr, Hnone in Hv. cbn in Hv.
    rewrite default_setupFormRenderer_run in Hv. injection Hv as <- <-.
    rewrite Hpost, Hlogb. cbn. rewrite Hf2, Hw, <- !app_assoc. reflexivity.
  - intros r Hr. rewrite Hsr, Hr in Hv. cbn [truthy negb] in Hv.
    apply call_value_Ok in Hv as (r' & [= <-] & Hlogv & _).
    exists view. rewrite Hpost, Hlogb, Hlogv, Hf2, <- !app_assoc.
    reflexivity.
  - intros Hnone. rewrite Hfinb, Hnone in H. injection H as <-.
    apply (app_inv_head (log sb)). by rewrite app_nil_r.
  - intros g Hg. rewrite Hfinb, Hg in H. cbn [truthy when] in H.
    inv_bind H as ctx s0 H0. apply gets_Ok in H0 as [-> ->].
    inv_bind H as f s0 H0. apply gets_Ok in H0 as [-> ->].
    inv_bind H as v sc Hc. injection H as <-.
    apply call_value_Ok in Hc as (g' & [= <-] & Hlogc & _).
    exists sb, v. apply (app_inv_head (log sb)).
    by rewrite <- Hpost, Hlogc, Hctxb, Hfb.
Qed.

(** X7, on a new dialog with the default renderer and no finalize
    function. *)
Lemma rendering_ends_the_build_witness :
  let fd := [("notes", Example.text_area "Notes" 3)] in
  exists s' pre view,
    _applyFormData Example.env (Some fd) Example.start = Ok tt s' /\
    log s' = pre ++ default_render_calls view 4 1 100.
Proof.
  intros fd.
  assert (E : _applyFormData Example.env (Some fd) Example.start
              = Ok tt (final (_applyFormData Example.env (Some fd)
                                Example.start))).
  { vm_compute. reflexivity. }
  destruct (rendering_ends_the_build Example.env fd Example.start _ E) as
    (form & k & sr & post & Hf & Hk & _ & Hdefault & _ & Hnone & _).
  assert (form = 4) as -> by (vm_compute in Hf; congruence).
  assert (k = 1) as -> by (vm_compute in Hk; congruence).
  rewrite (Hnone eq_refl), app_nil_r in Hdefault.
  specialize (Hdefault eq_refl).
  exists (final (_applyFormData Example.env (Some fd) Example.start)),
    (log sr), (next_id sr).
  split; [exact E|exact Hdefault].
Defined.

(** ** The label column *)

(** X8.  [_applyLabelColumnWidth] (lines 707-718) does nothing, and does
    not fail, when a function is set for the renderer, when there is no
    form container yet, and when the container has no child.  Otherwise
    it sets the width and the maximal width of column 0 of the layout of
    the first child of the container, the view, and that is all. *)
Theorem label_column_width children width s :
  (truthy (setupFormRendererFunction s) = true \/ _formContainer s = None
   \/ children = [] ->
   _applyLabelColumnWidth children width s = Ok tt s) /\
  (forall cls view rest,
     truthy (setupFormRendererFunction s) = false ->
     is_Some (_formContainer s) ->
     children = JObj cls view :: rest ->
     _applyLabelColumnWidth children width s
     = Ok tt (set_log
                (log s ++
                 [ECall (RSub (RObj view) "getLayout") "setColumnWidth"
                    [JNum 0; width];
                  ECall (RSub (RObj view) "getLayout") "setColumnMaxWidth"
                    [JNum 0; width]]) s)).
Proof.
  unfold _applyLabelColumnWidth. split.
  - intros H. unfold mbind, M_bind, gets.
    destruct H as [-> | [-> | ->]]; cbn; [done|..].
    + by rewrite andb_false_r.
    + by rewrite andb_false_r.
  - intros cls view rest Hf [k Hk] ->. unfold mbind, M_bind, gets.
    rewrite Hf, Hk. destruct s. cbv -[app]. by rewrite <- app_assoc.
Qed.

(** X8, on the dialog of the examples once a form was built: the view is
    the object 7, the one the default renderer laid out. *)
Lemma label_column_width_witness :
  let fd := [("notes", Example.text_area "Notes" 3)] in
  let s := final (_applyFormData Example.env (Some fd) Example.start) in
  let layout := RSub (RObj 7) "getLayout" in
  In (ECall layout "setColumnWidth" [JNum 0; JNum 100]) (log s) /\
  _applyLabelColumnWidth [JObj "qxl.dialog.FormRenderer" 7] (JNum 150) s
  = Ok tt (set_log
             (log s ++
              [ECall layout "setColumnWidth" [JNum 0; JNum 150];
               ECall layout "setColumnMaxWidth" [JNum 0; JNum 150]]) s) /\
  _applyLabelColumnWidth [] (JNum 150) s = Ok tt s.
Proof.
  intros fd s layout. split; [|split].
  - vm_compute. auto 30.
  - exact (proj2 (label_column_width [JObj "qxl.dialog.FormRenderer" 7]
                    (JNum 150) s)
             "qxl.dialog.FormRenderer" 7 [] eq_refl
             (ex_intro _ 1 eq_refl) eq_refl).
  - exact (proj1 (label_column_width [] (JNum 150) s)
             (or_intror (or_intror eq_refl))).
Defined.

(** ** Event handlers of a field *)

Lemma add_listener_step env cls o key handlers type s :
  try_catch
    (let h := Obj.get handlers type in
     func ← match h with
            | JStr code =>
                match js_eval env ("(" ++ code ++ ")") with
                | inr v => mret v
                | inl e => throw e
                end
            | JFun _ => mret h
            | _ => throw (Error "Event handler must be a string eval()'ed to a function (deprecated), or a function")
            end;
     call_on (JObj cls o) "addListener" [JStr type; func; JObj cls o])
    (fun _ =>
       call RThis "warn"
         [JStr ("Invalid '" ++ type ++
                "' event handler for form element '" ++ key ++ "'.")]) s
  = Ok tt (set_log (log s ++ [listener_event env cls o key handlers type]) s).
Proof.
  unfold listener_event, listener_of, try_catch. cbn zeta.
  unfold mbind, M_bind.
  destruct (Obj.get handlers type) as [| | | | |code| | |]; try reflexivity.
  destruct (js_eval env _) as [e|v]; reflexivity.
Qed.

Lemma add_listeners_loop env cls o key handlers types s :
  for_each types (fun type =>
    try_catch
      (let h := Obj.get handlers type in
       func ← match h with
              | JStr code =>
                  match js_eval env ("(" ++ code ++ ")") with
                  | inr v => mret v
                  | inl e => throw e
                  end
              | JFun _ => mret h
              | _ => throw (Error "Event handler must be a string eval()'ed to a function (deprecated), or a function")
              end;
       call_on (JObj cls o) "addListener" [JStr type; func; JObj cls o])
      (fun _ =>
         call RThis "warn"
           [JStr ("Invalid '" ++ type ++
                  "' event handler for form element '" ++ key ++ "'.")])) s
  = Ok tt (set_log
             (log s ++ map (listener_event env cls o key handlers) types) s).
Proof.
  revert s. induction types as [|type types IH]; intros s.
  - cbn. by rewrite set_log_nil.
  - cbn [for_each map]. unfold mbind at 1, M_bind at 1.
    rewrite add_listener_step, IH.
    by rewrite (set_log_set_log [_]).
Qed.

(** X9.  The event handlers of a field (lines 630-652) never make the
    build fail.  [fieldData.events] is gone through when it is a plain
    object, by its keys, and when it is an object of the toolkit, by the
    members that [for ... in] walks: [qx.lang.Type.isObject] holds for
    both.  Each key, in order, gives one call: [addListener] with the
    handler, when it is a function, or with what it evaluates to, when it
    is a string that evaluates; a warning in every other case.  For any
    other value of [events] nothing is called. *)
Theorem add_listeners_never_throws env props cls o key s :
  add_listeners env (JMap props) (JObj cls o) key s
  = Ok tt
      match Obj.get props "events" with
      | JMap handlers =>
          set_log
            (log s ++ map (listener_event env cls o key handlers)
                        (Obj.keys handlers)) s
      | JObj c e =>
          let members := members_of env c e in
          set_log
            (log s ++ map (listener_event env cls o key members)
                        (Obj.keys members)) s
      | _ => s
      end.
Proof.
  unfold add_listeners. cbn [get_prop].
  unfold mbind at 1, M_bind at 1, mret at 1, M_ret at 1.
  destruct (Obj.get props "events"); try reflexivity;
    cbn [isObject when for_in]; apply add_listeners_loop.
Qed.

(** ** [null] where an object is expected *)

Lemma throws_now {A B} R (m : M A) (f : A -> M B) :
  throws R m -> throws R (m ≫= f).
Proof.
  intros H s. destruct (H s) as (e & s' & E & Hs).
  exists e, s'. unfold mbind, M_bind. by rewrite E.
Qed.

Lemma throws_later {A B} R `{!PreOrder R} (m : M A) (f : A -> M B) :
  preserves R m -> (forall a, throws R (f a)) -> throws R (m ≫= f).
Proof.
  intros Hm Hf s. unfold mbind, M_bind. specialize (Hm s).
  destruct (m s) as [a s1|e s1]; cbn in Hm.
  - destruct (Hf a s1) as (e & s' & E & Hs).
    exists e, s'. split; [done|]. by etransitivity.
  - by exists e, s1.
Qed.

Lemma userdata_null props v :
  Obj.get props "userdata" = JNull ->
  throws eq (userdata_settings (JMap props) v).
Proof.
  intros Hu s. unfold userdata_settings. cbn [get_prop].
  unfold mbind, M_bind, mret, M_ret. rewrite Hu. cbn. by eexists _, _.
Qed.

Lemma set_if_defined_logs props cls o k setter s :
  exists l,
    set_if_defined (JMap props) (JObj cls o) k setter s
    = Ok tt (set_log (log s ++ l) s).
Proof.
  unfold set_if_defined. cbn [get_prop].
  unfold mbind, M_bind, mret, M_ret.
  destruct (is_undefined (Obj.get props k)); cbn.
  - exists []. by rewrite set_log_nil.
  - by eexists.
Qed.

(** X10.  [typeof null] is "object".  A field with [properties: null]
    gets [set(null)] called on its element (line 609).  A field with
    [userdata: null] cannot be built: [Object.keys(null)] throws a
    TypeError (line 621), so the lines that configure the element throw
    in every state, before the element is added to the form and recorded
    in [_formElements]. *)
Theorem null_is_an_object env handlers fieldType props key cls o :
  (Obj.get props "properties" = JNull ->
   forall s, exists l,
     widget_properties (JMap props) (JObj cls o) s
     = Ok tt (set_log (log s ++ l ++ [ECall (RObj o) "set" [JNull]]) s)) /\
  (Obj.get props "userdata" = JNull ->
   throws (same_on _formElements)
     (configure_field env handlers fieldType (JMap props) key (JObj cls o))).
Proof.
  split.
  - intros Hp s. unfold widget_properties.
    destruct (set_if_defined_logs props cls o "width" "setWidth" s)
      as [l1 E1].
    unfold mbind at 1, M_bind at 1. rewrite E1.
    destruct (set_if_defined_logs props cls o "placeholder" "setPlaceholder"
                (set_log (log s ++ l1) s)) as [l2 E2].
    unfold mbind at 1, M_bind at 1. rewrite E2, set_log_set_log.
    destruct (set_if_defined_logs props cls o "toolTipText" "setToolTipText"
                (set_log (log s ++ l1 ++ l2) s)) as [l3 E3].
    unfold mbind at 1, M_bind at 1. rewrite E3, set_log_set_log.
    destruct (set_if_defined_logs props cls o "enabled" "setEnabled"
                (set_log (log s ++ (l1 ++ l2) ++ l3) s)) as [l4 E4].
    unfold mbind at 1, M_bind at 1. rewrite E4, set_log_set_log.
    exists (((l1 ++ l2) ++ l3) ++ l4).
    rewrite <- (set_log_set_log _ [ECall (RObj o) "set" [JNull]]).
    generalize (set_log (log s ++ ((l1 ++ l2) ++ l3) ++ l4) s). intros s4.
    cbn [get_prop]. unfold mbind, M_bind, mret, M_ret. by rewrite Hp.
  - intros Hu. unfold configure_field.
    do 7 (apply throws_later; [exact _ | frame | intros ?]).
    apply throws_now. intros s.
    destruct (userdata_null props (JObj cls o) Hu s) as (e & s' & E & <-).
    by exists e, s.
Qed.

(** X10, on a text area with [userdata: null]. *)
Lemma null_is_an_object_witness :
  let props :=
    [("type", JStr "TextArea"); ("label", JStr "Notes");
     ("lines", JNum 3); ("userdata", JNull)] in
  exists e s1,
    configure_field Example.env TextArea._registration "textarea"
      (JMap props) "notes" (JObj "qx.ui.form.TextArea" 6) Example.start
    = Throw e s1 /\
    _formElements s1 = _formElements Example.start.
Proof.
  intros props.
  exact (proj2 (null_is_an_object Example.env TextArea._registration
                  "textarea" props "notes" "qx.ui.form.TextArea" 6)
           eq_refl Example.start).
Defined.

(** ** Validators that are not strings *)




(** ** A regular expression between slashes *)

Lemma substring_0_append p q :
  String.substring 0 (String.length p) (p ++ q) = p.
Proof.
  induction p as [|c p IH]; simpl; [by destruct q | by f_equal].
Qed.

Lemma length_append_1 p c :
  String.length (p ++ String c EmptyString) = S (String.length p).
Proof. induction p as [|d p IH]; simpl; [done | by f_equal]. Qed.

Lemma between_slashes p c :
  substr_1_len_minus_2 (String "/" (p ++ String c EmptyString)) = p.
Proof.
  unfold substr_1_len_minus_2. cbn [String.length].
  rewrite length_append_1. cbn [Nat.sub String.substring].
  rewrite Nat.sub_0_r. apply substring_0_append.
Qed.

(** X12.  A validator written as a pattern between slashes (lines
    533-537).  For every pattern [p], the string "/p/", when it names
    no member of [qx.util.Validate], gives the regular-expression
    validator of [p] itself and of the error message, when [p] compiles;
    when it does not, [new RegExp] throws and so does the build.  The
    last character is dropped whatever it is: flags are not read. *)
Theorem regexp_between_slashes env p c validation s :
  let v := String "/" (p ++ String c EmptyString) in
  truthy (qx_util_Validate env v) = false ->
  string_validator env v (JMap validation) s
  = if RegExp_compiles env p
    then Ok (VRegExp p (Obj.get validation "errorMessage")) s
    else Throw (SyntaxError "Invalid regular expression") s.
Proof.
  intros v Hm. unfold string_validator. rewrite Hm. subst v.
  cbn [charAt0 String.eqb Ascii.eqb Bool.eqb]. rewrite between_slashes.
  unfold mbind, M_bind.
  by destruct (RegExp_compiles env p).
Qed.

(** X12, on the pattern of an e-mail address with the flag "i": the
    slash before the flag ends up in the pattern. *)
Lemma regexp_between_slashes_witness :
  string_validator Example.env "/^\S+@\S+$/"
    (JMap [("errorMessage", JStr "Not an address")]) Example.start
  = Ok (VRegExp "^\S+@\S+$" (JStr "Not an address")) Example.start /\
  string_validator Example.env "/^\S+@\S+$/i" (JMap []) Example.start
  = Ok (VRegExp "^\S+@\S+$/" JUndefined) Example.start.
Proof.
  split.
  - exact (regexp_between_slashes Example.env "^\S+@\S+$" "/"
             [("errorMessage", JStr "Not an address")] Example.start
             eq_refl).
  - exact (regexp_between_slashes Example.env "^\S+@\S+$/" "i" []
             Example.start eq_refl).
Defined.

(** ** Registering and using handlers *)

(** X13.  Handlers that were registered are the ones a field gets, in
    any letter case: after [registerFormElementHandlers(fieldType,
    handlers)], a field whose type is [fieldType] up to the case of its
    letters is built by calling [handlers.initElement] on the dialog,
    with the down-cased type, the entry and the key.  What was
    registered for the other types is as it was; an earlier registration
    for the same type is replaced. *)
Theorem registered_handlers_are_used env fieldType h f fd key props type s :
  Obj.get h "initElement" = JFun f ->
  Obj.get fd key = JMap props ->
  Obj.get props "type" = JStr type ->
  toLowerCase type = toLowerCase fieldType ->
  let s1 := final (registerFormElementHandlers fieldType (JMap h) s) in
  let args := [JStr (toLowerCase fieldType); JMap props; JStr key] in
  _registeredFormElements s1 !! toLowerCase type = Some (JMap h) /\
  (forall other,
     toLowerCase other <> toLowerCase fieldType ->
     _registeredFormElements s1 !! toLowerCase other
     = _registeredFormElements s !! toLowerCase other) /\
  exists l,
    log (final (add_field env fd key s1))
    = log s ++ EInvoke f this_val args
                 (out_result (js_call env f this_val args s1)) :: l.
Proof.
  intros Hinit Hfd Hty Hlow s1 args.
  assert (Hreg : _registeredFormElements s1 !! toLowerCase type
                 = Some (JMap h)).
  { subst s1. rewrite registerFormElementHandlers_run. cbn.
    rewrite Hlow. apply lookup_insert_eq. }
  split; [done|]. split.
  - intros other Hne. subst s1. rewrite registerFormElementHandlers_run. cbn.
    by apply lookup_insert_ne.
  - destruct (add_field_registered env fd key props type h f s1
                Hfd Hty Hreg Hinit) as [l Hl].
    exists l. rewrite Hl. subst args. by rewrite Hlow.
Qed.

(** X13, on handlers registered for "Slider" and a field of type
    "SLIDER". *)
Lemma registered_handlers_are_used_witness :
  let h := [("initElement", JFun "user.slider.initElement")] in
  let props := [("type", JStr "SLIDER"); ("label", JStr "Volume")] in
  let s1 := final (registerFormElementHandlers "Slider" (JMap h)
                     Example.start) in
  exists r l,
    log (final (add_field Example.env [("volume", JMap props)] "volume" s1))
    = EInvoke "user.slider.initElement" this_val
        [JStr "slider"; JMap props; JStr "volume"] r :: l.
Proof.
  intros h props s1.
  destruct (registered_handlers_are_used Example.env "Slider" h
              "user.slider.initElement" [("volume", JMap props)] "volume"
              props "SLIDER" Example.start eq_refl eq_refl eq_refl eq_refl)
    as (_ & _ & l & Hl).
  eexists _, l. exact Hl.
Defined.

(** ** The form element classes of the sources *)






(** The call, once the loop has reached a key at which it throws. *)
Lemma applyFormData_throws_at env fd pre key post s0 s s1 e s2 :
  Obj.keys fd = pre ++ key :: post ->
  before_fields env fd s0 = Ok tt s ->
  for_each pre (add_field env fd) s = Ok tt s1 ->
  add_field env fd key s1 = Throw e s2 ->
  _applyFormData env (Some fd) s0 = Throw e s2.
Proof.
  intros Hkeys Hbefore Hpre Hkey.
  rewrite _applyFormData_stages, Hbefore.
  by rewrite (add_fields_reaches _ _ _ _ _ _ _ Hkeys Hpre), Hkey.
Qed.

(** X15.  A field of the group header class (GroupHeader.js).  The
    [initElement] of the class is bound to the [this] of its file, not
    to the dialog, so [this._form] is no form.  When the loop reaches a
    field whose type is registered with the handlers of the class, the
    dummy text field is made and marked as excluded, then the handler
    throws a TypeError and [_applyFormData] throws it: no group header
    is added, and nothing is recorded for the key. *)
Theorem group_header_throws env fd pre key post props type s0 s s1 :
  has_source_handlers env ->
  Obj.keys fd = pre ++ key :: post ->
  before_fields env fd s0 = Ok tt s ->
  for_each pre (add_field env fd) s = Ok tt s1 ->
  Obj.get fd key = JMap props ->
  Obj.get props "type" = JStr type ->
  _registeredFormElements s1 !! toLowerCase type
  = Some GroupHeader._registration ->
  let failure := TypeError "undefined has no properties" in
  exists s2,
    _applyFormData env (Some fd) s0 = Throw failure s2 /\
    log s2 = log s1 ++
             [EInvoke "GroupHeader.initElement" this_val
                [JStr (toLowerCase type); JMap props; JStr key]
                (inl failure);
              ENew (next_id s1) "qx.ui.form.TextField" [];
              ECall (RObj (next_id s1)) "setUserData"
                [JStr "excluded"; JBool true]] /\
    _formElements s2 = _formElements s1.
Proof.
  intros Henv Hkeys Hbefore Hpre Hfd Hty Hreg failure. subst failure.
  eexists. split; [|split].
  - eapply applyFormData_throws_at; [exact Hkeys|exact Hbefore|exact Hpre|].
    unfold add_field. rewrite Hfd. cbn [get_prop].
    unfold mbind at 1, M_bind at 1, mret at 1, M_ret at 1. rewrite Hty.
    unfold mbind at 1, M_bind at 1, gets at 1.
  rewrite (js_lookup_own _ _ _ Hreg).
    unfold mbind at 1, M_bind at 1. cbn [get_prop GroupHeader._registration].
    unfold mret at 1, M_ret at 1.
    change (Obj.get _ "initElement") with (JFun "GroupHeader.initElement").
    cbn [call_value]. unfold mbind at 1, M_bind at 1.
    rewrite invoke_run. cbn zeta.
    destruct (Henv this_val [JStr (toLowerCase type); JMap props; JStr key]
                s1) as (_ & _ & ->).
    reflexivity.
  - reflexivity.
  - reflexivity.
Qed.

(** X15, on a new dialog and a form with a group header after a text
    area. *)
Lemma group_header_throws_witness :
  let fd :=
    [("notes", Example.text_area "Notes" 3);
     ("address", JMap [("type", JStr "GroupHeader");
                       ("value", JStr "Address")])] in
  exists s2,
    _applyFormData Example.env (Some fd) Example.start
    = Throw (TypeError "undefined has no properties") s2 /\
    element_of s2 "notes" = Some (JObj "qx.ui.form.TextArea" 6) /\
    element_of s2 "address" = None.
Proof.
  intros fd.
  assert (Henv : has_source_handlers Example.env).
  { intros this args st. repeat split. }
  destruct (group_header_throws Example.env fd ["notes"] "address" []
              [("type", JStr "GroupHeader"); ("value", JStr "Address")]
              "GroupHeader" Example.start
              (final (before_fields Example.env fd Example.start))
              (final (add_field Example.env fd "notes"
                        (final (before_fields Example.env fd Example.start))))
              Henv eq_refl)
    as (s2 & H & _ & Hfe).
  - vm_compute. reflexivity.
  - vm_compute. reflexivity.
  - reflexivity.
  - reflexivity.
  - vm_compute. reflexivity.
  - exists s2. split; [exact H|].
    unfold element_of. rewrite Hfe. split; vm_compute; reflexivity.
Defined.

(** ** An async validator that gets no answer through *)

Lemma in_progress_stays proxy method message actions v :
  truthy message = false ->
  answers_without_tr actions ->
  AV.asyncInProgress v = true ->
  AV.run proxy method message v actions = (v, []).
Proof.
  intros Hm Hact Hv. induction Hact as [|a actions Ha _ IH]; [done|].
  cbn [AV.run].
  assert (AV.step proxy method message v a = (v, [])) as ->.
  { destruct a as [value|this_tr valid]; cbn.
    - unfold AV.validationFunc. by rewrite Hv.
    - subst this_tr. unfold AV.callback. by rewrite Hm. }
  by rewrite IH.
Qed.

(** X16.  The callback handed to the proxy (lines 572-575) is a plain
    function: its [this] is whatever the proxy calls it on.  With no
    [invalidMessage], it needs [this.tr]; when the proxy calls it on
    what has no [tr], it throws before [setValid] and before the
    in-progress flag is cleared.  So, from a fresh validator, the proxy
    is called for the first value that is validated and never again,
    and [setValid] is never called, whatever is validated and answered
    afterwards. *)
Theorem async_validator_gets_stuck proxy method message actions :
  truthy message = false ->
  answers_without_tr actions ->
  let result := AV.run proxy method message AV.fresh actions in
  AV.setValid_calls (fst result) = [] /\
  snd result
  = match first_validated actions with
    | Some value => [AV.proxy_call proxy method [value]]
    | None => []
    end.
Proof.
  intros Hm Hact. cbn zeta.
  induction Hact as [|a actions Ha Hact IH]; [done|].
  cbn [AV.run first_validated].
  destruct a as [value|this_tr valid].
  - cbn [AV.step]. unfold AV.validationFunc, AV.fresh.
    cbn [AV.asyncInProgress AV.setValid_calls negb].
    rewrite (in_progress_stays proxy method message actions
               {| AV.asyncInProgress := true; AV.setValid_calls := [] |}
               Hm Hact eq_refl).
    done.
  - subst this_tr. cbn [AV.step]. unfold AV.callback. rewrite Hm.
    destruct (AV.run proxy method message AV.fresh actions) as [v2 calls2].
    exact IH.
Qed.

(** X16, on three validations, each answered. *)
Lemma async_validator_gets_stuck_witness :
  let result :=
    AV.run "rpc.send" "checkEmail" JUndefined AV.fresh
      [AV.Validate (JStr "a"); AV.Answer None (JBool true);
       AV.Validate (JStr "ab"); AV.Answer None (JBool true);
       AV.Validate (JStr "abc"); AV.Answer None (JBool true)] in
  AV.setValid_calls (fst result) = [] /\
  snd result = [AV.proxy_call "rpc.send" "checkEmail" [JStr "a"]].
Proof.
  apply (async_validator_gets_stuck "rpc.send" "checkEmail" JUndefined
           [AV.Validate (JStr "a"); AV.Answer None (JBool true);
            AV.Validate (JStr "ab"); AV.Answer None (JBool true);
            AV.Validate (JStr "abc"); AV.Answer None (JBool true)]
           eq_refl).
  repeat constructor.
Defined.

(** ** The content of the dialog *)

#[global] Instance container_kept_frame : Frame container_kept.
Proof.
  split; [split |..]; unfold container_kept.
  - intros s. repeat split; try done. exists []. by rewrite app_nil_r.
  - intros s1 s2 s3 (?&?&?&l1&?) (?&?&?&l2&?).
    repeat split; try congruence; try lia.
    exists (l1 ++ l2). rewrite app_assoc. congruence.
  - intros s l. cbn. repeat split; try done. by exists l.
  - intros s k. cbn. repeat split; try done; try lia.
    exists []. by rewrite app_nil_r.
Qed.

Lemma calls_only_container_kept s s' : calls_only s s' -> container_kept s s'.
Proof.
  intros (l & k & ->). unfold container_kept. cbn.
  split; [done|]. split; [done|]. split; [lia|]. by exists l.
Qed.

Lemma preserves_call_hook R `{!Frame R} env properties k widget :
  preserves R (call_hook env properties k widget).
Proof. unfold call_hook. frame. Qed.

Lemma call_hook_returns env props k widget s :
  (forall f this args st,
     Obj.get props k = JFun f ->
     exists v, out_result (js_call env f this args st) = inr v) ->
  exists s', call_hook env (JMap props) k widget s = Ok tt s' /\
             calls_only s s'.
Proof.
  intros Hret.
  assert (exists s', call_hook env (JMap props) k widget s = Ok tt s')
    as [s' E].
  { unfold call_hook. cbn [get_prop].
    unfold mbind at 1, M_bind at 1, mret at 1, M_ret at 1.
    destruct (Obj.get props k) as [| |?|?| |?|f|? ?|?] eqn:Ek;
      try (by eexists).
    cbn [js_typeof String.eqb Ascii.eqb Bool.eqb when].
    change (String.eqb "function" "function") with true. cbn [when].
    unfold mbind at 1, M_bind at 1, mret at 1, M_ret at 1.
    cbn [call_value]. unfold mbind at 1, M_bind at 1.
    rewrite invoke_run. cbn zeta.
    destruct (Hret f (Obj.get props "context") [widget; this_val] s eq_refl)
      as [v ->].
    by eexists. }
  exists s'. split; [done|].
  eapply preserves_Ok; [|exact E]. apply preserves_call_hook. exact _.
Qed.

Lemma message_area_returns s :
  exists c m s',
    message_area s = Ok (c, m) s' /\ calls_only s s'.
Proof.
  assert (exists c m s', message_area s = Ok (c, m) s') as (c & m & s' & E).
  { destruct s. cbv -[app Nat.add]. by eexists _, _, _. }
  exists c, m, s'. split; [done|].
  eapply preserves_Ok; [|exact E]. unfold message_area. frame.
Qed.

Lemma form_area_run container s :
  exists s' l,
    form_area container s = Ok tt s' /\
    _formContainer s' = Some (next_id s + 1) /\
    next_id s' = next_id s + 3 /\
    log s' = log s ++ l /\
    In (ENew (next_id s + 1) "qx.ui.container.Composite" []) l.
Proof.
  destruct s as [? ? ? ? ? ? ? ? ? ? ? ? ? ? ? n lg].
  cbv -[app Nat.add]. rewrite <- !app_assoc. cbn [app].
  eexists _, _. split; [reflexivity|]. cbn.
  split; [done|]. split; [lia|]. split; [reflexivity|].
  right. by left.
Qed.

Lemma preserves_form_area R `{!Frame R} `{!Allows set_formContainer R}
    container :
  preserves R (form_area container).
Proof. unfold form_area. frame. Qed.

Lemma call_hook_function env props k widget f s :
  Obj.get props k = JFun f ->
  let ctx := Obj.get props "context" in
  let o := js_call env f ctx [widget; this_val] s in
  let s' :=
    set_log (log s ++ EInvoke f ctx [widget; this_val] (out_result o)
                        :: out_events o)
      (set_next_id (next_id s + out_created o) s) in
  call_hook env (JMap props) k widget s
  = match out_result o with
    | inr _ => Ok tt s'
    | inl e => Throw e s'
    end.
Proof.
  intros Hk. cbn zeta. unfold call_hook. cbn [get_prop].
  unfold mbind at 1, M_bind at 1, mret at 1, M_ret at 1. rewrite Hk.
  change (String.eqb (js_typeof (JFun f)) "function") with true.
  cbn [when].
  unfold mbind at 1, M_bind at 1, mret at 1, M_ret at 1.
  cbn [call_value]. unfold mbind at 1, M_bind at 1.
  rewrite invoke_run. cbn zeta.
  by destruct (out_result _).
Qed.

Lemma button_area_returns dialog container s :
  makes_buttons dialog ->
  exists cls o s',
    button_area dialog container s = Ok (JObj cls o) s' /\
    container_kept s s'.
Proof.
  intros (Hpane & Hok & Hcancel). unfold button_area.
  destruct (Hpane s) as (cls & o & s1 & E1 & K1).
  unfold mbind at 1, M_bind at 1. rewrite E1.
  unfold mbind at 1, M_bind at 1. cbn [call emit modify].
  unfold mbind at 1, M_bind at 1.
  match goal with
  | |- context [_createOkButton dialog ?st] =>
      destruct (Hok st) as (ok & s2 & E2 & K2)
  end.
  rewrite E2.
  unfold mbind at 1, M_bind at 1. cbn [call_on call emit modify].
  unfold mbind at 1, M_bind at 1.
  match goal with
  | |- context [_createCancelButton dialog ?st] =>
      destruct (Hcancel st) as (cancel & s3 & E3 & K3)
  end.
  rewrite E3.
  unfold mbind at 1, M_bind at 1. cbn [call_on call emit modify].
  eexists cls, o, _. split; [reflexivity|].
  etransitivity; [exact K1|].
  etransitivity; [apply frame_log|].
  etransitivity; [exact K2|].
  etransitivity; [apply frame_log|].
  etransitivity; [exact K3|].
  apply frame_log.
Qed.

(** The stages of [_createWidgetContent]: the state [s1] in which the
    function to call before the form is looked at, the states [s2] and
    [s3] around the making of the form container, the state [s4] after
    the function to call after the form. *)
Lemma createWidgetContent_stages env dialog props s :
  makes_buttons dialog ->
  hooks_return env props ->
  exists container message s1 s2 s3 s4 s',
    let container_val := JObj "qx.ui.container.Composite" container in
    (_formContainer s1 = _formContainer s /\
     setupFormRendererFunction s1
     = js_or (Obj.get props "setupFormRendererFunction")
         (setupFormRendererFunction s) /\
     next_id s <= next_id s1 /\
     exists l, log s1 = log s ++ l) /\
    call_hook env (JMap props) "beforeFormFunction" container_val s1
    = Ok tt s2 /\
    form_area container s2 = Ok tt s3 /\
    call_hook env (JMap props) "afterFormFunction" container_val s3
    = Ok tt s4 /\
    container_kept s4 s' /\
    _createWidgetContent env dialog (JMap props) s = Ok message s'.
Proof.
  intros Hdialog Hhooks. unfold _createWidgetContent.
  cbn [get_prop].
  unfold mbind at 1, M_bind at 1, mret at 1, M_ret at 1.
  set (s0 := final (when (truthy (Obj.get props "setupFormRendererFunction"))
                      (modify (set_setupFormRendererFunction
                                 (Obj.get props "setupFormRendererFunction")))
                      s)).
  assert (E0 : when (truthy (Obj.get props "setupFormRendererFunction"))
                 (modify (set_setupFormRendererFunction
                            (Obj.get props "setupFormRendererFunction"))) s
               = Ok tt s0).
  { subst s0. by destruct (truthy _). }
  assert (K0 : _formContainer s0 = _formContainer s /\
               setupFormRendererFunction s0
               = js_or (Obj.get props "setupFormRendererFunction")
                   (setupFormRendererFunction s) /\
               next_id s0 = next_id s /\ log s0 = log s).
  { subst s0. unfold js_or. by destruct (truthy _). }
  clearbody s0. unfold mbind at 1, M_bind at 1. rewrite E0.
  destruct (message_area_returns s0) as (container & message & s1 & E1 & K1).
  apply calls_only_container_kept in K1.
  unfold mbind at 1, M_bind at 1. rewrite E1.
  destruct (call_hook_returns env props "beforeFormFunction"
              (JObj "qx.ui.container.Composite" container) s1)
    as (s2 & E2 & _).
  { intros f this args st. apply Hhooks. by left. }
  unfold mbind at 1, M_bind at 1. rewrite E2.
  destruct (form_area_run container s2) as (s3 & l3 & E3 & _).
  unfold mbind at 1, M_bind at 1. rewrite E3.
  destruct (call_hook_returns env props "afterFormFunction"
              (JObj "qx.ui.container.Composite" container) s3)
    as (s4 & E4 & _).
  { intros f this args st. apply Hhooks. right. by left. }
  unfold mbind at 1, M_bind at 1. rewrite E4.
  destruct (button_area_returns dialog container s4 Hdialog)
    as (cls & pane & s5 & E5 & K5).
  unfold mbind at 1, M_bind at 1. rewrite E5.
  destruct (call_hook_returns env props "afterButtonsFunction"
              (JObj cls pane) s5)
    as (s6 & E6 & K6).
  { intros f this args st. apply Hhooks. right. right. by left. }
  apply calls_only_container_kept in K6.
  unfold mbind at 1, M_bind at 1. rewrite E6.
  unfold mbind at 1, M_bind at 1. cbn [call emit modify].
  unfold mret, M_ret.
  eexists container, message, s1, s2, s3, s4, _. cbn zeta.
  split; [|split; [done|split; [done|split; [done|split; [|reflexivity]]]]].
  - destruct K0 as (Hc0 & Hr0 & Hn0 & Hl0).
    destruct K1 as (Hc1 & Hr1 & Hn1 & l1 & Hl1).
    split; [congruence|]. split; [congruence|]. split; [lia|].
    exists l1. congruence.
  - etransitivity; [exact K5|]. etransitivity; [exact K6|]. apply frame_log.
Qed.

(** X17.  The content of the dialog (lines 351-410) and the form data.
    With the properties of the dialog in a map, hooks that return, and a
    dialog class whose pane and buttons are made without a failure and
    without assigning the form container, [_createWidgetContent]
    returns, and the form container is then a container made during the
    call; the function of the renderer is the one of the properties,
    when they have one.  From then on the form data can be applied:
    setting it to [null] returns. *)
Theorem createWidgetContent_ready env dialog props s :
  makes_buttons dialog ->
  hooks_return env props ->
  exists message c s',
    _createWidgetContent env dialog (JMap props) s = Ok message s' /\
    _formContainer s' = Some c /\
    next_id s <= c < next_id s' /\
    (exists l,
       log s' = log s ++ l /\
       In (ENew c "qx.ui.container.Composite" []) l) /\
    setupFormRendererFunction s'
    = js_or (Obj.get props "setupFormRendererFunction")
        (setupFormRendererFunction s) /\
    exists s'', _applyFormData env None s' = Ok tt s''.
Proof.
  intros Hdialog Hhooks.
  destruct (createWidgetContent_stages env dialog props s Hdialog Hhooks)
    as (container & message & s1 & s2 & s3 & s4 & s' &
        (Hc1 & Hr1 & Hn1 & l1 & Hl1) & E2 & E3 & E4 & K & E).
  cbn zeta in *.
  pose proof (preserves_Ok container_kept _ _ _ _
                (preserves_call_hook _ _ _ _ _) E2)
    as (_ & Hr2 & Hn2 & l2 & Hl2).
  destruct (form_area_run container s2)
    as (s3' & l3 & E3' & Hc3 & Hn3 & Hl3 & Hin3).
  rewrite E3 in E3'. injection E3' as <-.
  assert (Hr3 : setupFormRendererFunction s3 = setupFormRendererFunction s2).
  { exact (preserves_Ok (same_on setupFormRendererFunction) _ _ _ _
             (preserves_form_area _ container) E3). }
  pose proof (preserves_Ok container_kept _ _ _ _
                (preserves_call_hook _ _ _ _ _) E4)
    as (Hc4 & Hr4 & Hn4 & l4 & Hl4).
  destruct K as (Hc & Hr & Hn & l & Hl).
  assert (Hc' : _formContainer s' = Some (next_id s2 + 1))
    by (by rewrite Hc, Hc4).
  exists message, (next_id s2 + 1), s'.
  split; [done|]. split; [done|]. split; [lia|].
  split; [|split].
  - exists (l1 ++ l2 ++ l3 ++ l4 ++ l). split.
    + by rewrite Hl, Hl4, Hl3, Hl2, Hl1, <- !app_assoc.
    + apply in_or_app. right. apply in_or_app. right.
      apply in_or_app. by left.
  - by rewrite Hr, Hr4, Hr3, Hr2.
  - by apply (null_returns env s' (next_id s2 + 1)).
Qed.

Lemma example_dialog_makes_buttons : makes_buttons ExampleDialog.class.
Proof.
  split; [|split].
  - intros st. destruct st. cbv -[app Nat.add].
    eexists _, _, _. split; [reflexivity|].
    split; [done|]. split; [done|]. split; [lia|]. by eexists.
  - intros st. destruct st. cbv -[app Nat.add].
    eexists _, _. split; [reflexivity|].
    split; [done|]. split; [done|]. split; [lia|]. by eexists.
  - intros st. destruct st. cbv -[app Nat.add].
    eexists _, _. split; [reflexivity|].
    split; [done|]. split; [done|]. split; [lia|]. by eexists.
Qed.

(** X17, on the dialog class of the examples, with a function to call
    before the form. *)
Lemma createWidgetContent_ready_witness :
  let props :=
    [("beforeFormFunction", JFun "user.addLogo"); ("context", JNull)] in
  exists message c s' s'',
    _createWidgetContent Example.env ExampleDialog.class (JMap props)
      ExampleDialog.constructed = Ok message s' /\
    _formContainer s' = Some c /\
    _applyFormData Example.env None s' = Ok tt s''.
Proof.
  intros props.
  destruct (createWidgetContent_ready Example.env ExampleDialog.class props
              ExampleDialog.constructed)
    as (message & c & s' & E & Hc & _ & _ & _ & s'' & E').
  - exact example_dialog_makes_buttons.
  - intros k f this args st [<-|[<-|[<-|[]]]] Hget;
      try discriminate Hget.
    injection Hget as <-. by eexists.
  - exists message, c, s', s''.
    split; [exact E|]. split; [exact Hc|exact E'].
Defined.

(** X18.  The hooks around the form (lines 377-393).  The function to
    call before the form is called when the form container of the
    dialog is still the one it was, [null] in a new dialog; the form
    container is made after it returned; the function to call after the
    form is called when the new container is in place.  Both are called
    on the context of the properties, with the container of the content
    and the dialog. *)
Theorem hooks_around_the_form env dialog props before after s :
  makes_buttons dialog ->
  hooks_return env props ->
  Obj.get props "beforeFormFunction" = JFun before ->
  Obj.get props "afterFormFunction" = JFun after ->
  exists message s' container c s1 s3 l1 l2 l3,
    let args := [JObj "qx.ui.container.Composite" container; this_val] in
    let ctx := Obj.get props "context" in
    _createWidgetContent env dialog (JMap props) s = Ok message s' /\
    _formContainer s1 = _formContainer s /\
    _formContainer s3 = Some c /\
    _formContainer s' = Some c /\
    log s' = log s ++ l1
             ++ EInvoke before ctx args
                  (out_result (js_call env before ctx args s1)) :: l2
             ++ EInvoke after ctx args
                  (out_result (js_call env after ctx args s3)) :: l3 /\
    In (ENew c "qx.ui.container.Composite" []) l2.
Proof.
  intros Hdialog Hhooks Hbefore Hafter.
  destruct (createWidgetContent_stages env dialog props s Hdialog Hhooks)
    as (container & message & s1 & s2 & s3 & s4 & s' &
        (Hc1 & _ & _ & l1 & Hl1) & E2 & E3 & E4 & K & E).
  cbn zeta in *.
  rewrite (call_hook_function env props _ _ before s1 Hbefore) in E2.
  rewrite (call_hook_function env props _ _ after s3 Hafter) in E4.
  cbn zeta in *.
  destruct (form_area_run container s2)
    as (s3' & l3 & E3' & Hc3 & _ & Hl3 & Hin3).
  rewrite E3 in E3'. injection E3' as <-.
  destruct K as (Hc & _ & _ & l & Hl).
  destruct (out_result (js_call env before _ _ s1)) as [e|v] eqn:Eb;
    [discriminate E2|]. injection E2 as <-.
  destruct (out_result (js_call env after _ _ s3)) as [e|v'] eqn:Ea;
    [discriminate E4|]. injection E4 as <-.
  cbn in Hc3, Hl3, Hc, Hl.
  set (ctx := Obj.get props "context") in *.
  set (args := [JObj "qx.ui.container.Composite" container; this_val]) in *.
  exists message, s', container,
    (next_id s1 + out_created (js_call env before ctx args s1) + 1),
    s1, s3, l1,
    (out_events (js_call env before ctx args s1) ++ l3),
    (out_events (js_call env after ctx args s3) ++ l).
  subst ctx args. cbn zeta.
  split; [exact E|]. split; [exact Hc1|]. split; [exact Hc3|].
  split; [by rewrite Hc|]. split.
  - rewrite Hl, Hl3, Hl1, Eb, Ea. rewrite <- !app_assoc. cbn [app].
    by rewrite <- ?app_assoc.
  - apply in_or_app. right. exact Hin3.
Qed.

(** X18, on the dialog class of the examples. *)
Lemma hooks_around_the_form_witness :
  let props :=
    [("beforeFormFunction", JFun "user.addLogo");
     ("afterFormFunction", JFun "user.addNote")] in
  exists message s' container l1 r1 l2 r2 l3,
    let args := [JObj "qx.ui.container.Composite" container; this_val] in
    _createWidgetContent Example.env ExampleDialog.class (JMap props)
      ExampleDialog.constructed = Ok message s' /\
    log s' = l1 ++ EInvoke "user.addLogo" JUndefined args r1 :: l2
                ++ EInvoke "user.addNote" JUndefined args r2 :: l3.
Proof.
  intros props.
  destruct (hooks_around_the_form Example.env ExampleDialog.class props
              "user.addLogo" "user.addNote" ExampleDialog.constructed)
    as (message & s' & container & c & s1 & s3 & l1 & l2 & l3 &
        E & _ & _ & _ & Hl & _).
  - exact example_dialog_makes_buttons.
  - intros k f this args st [<-|[<-|[<-|[]]]] Hget;
      try discriminate Hget; injection Hget as <-; by eexists.
  - reflexivity.
  - reflexivity.
  - eexists message, s', container, l1, _, l2, _, l3.
    split; [exact E|exact Hl].
Defined.

(** ** The classes of the sources in the internal table *)

(** What is registered for a type stays, when the classes that name the
    type are listed under it. *)
Lemma registered_after_stays table registered k h :
  Forall (fun e => toLowerCase (cls_fieldType e.2) = k -> e.1 = k) table ->
  registered !! k = Some h ->
  registered_after table registered !! k = Some h.
Proof.
  intros Hkeys. revert registered.
  induction Hkeys as [|[k' cls] table Hk _ IH]; intros registered Hr; cbn.
  - done.
  - apply IH. unfold js_in. case_bool_decide as Hin; [done|].
    rewrite lookup_insert_ne; [done|].
    intros Heq. cbn in Hk. apply Hk in Heq. subst k'.
    apply Hin. unfold js_lookup. rewrite Hr. by eexists.
Qed.

(** A class listed under the type it names is registered for it, unless
    something is registered already. *)
Lemma registered_after_adds t1 k cls t2 registered :
  Forall (fun e => toLowerCase (cls_fieldType e.2) <> k) t1 ->
  inherited k = None ->
  toLowerCase (cls_fieldType cls) = k ->
  Forall (fun e => toLowerCase (cls_fieldType e.2) = k -> e.1 = k) t2 ->
  registered_after (t1 ++ (k, cls) :: t2) registered !! k
  = Some (default (cls_registration cls) (registered !! k)).
Proof.
  intros H1 Hi Hcls H2.
  destruct (registered !! k) as [h|] eqn:Hk; cbn [default].
  - apply registered_after_stays; [|done].
    apply Forall_app. split.
    + eapply Forall_impl; [exact H1|]. by intros [k' c] Hne Heq.
    + by constructor.
  - rewrite registered_after_app. cbn [registered_after].
    apply registered_after_stays; [done|].
    unfold js_in, js_lookup. rewrite bool_decide_eq_false_2.
    + rewrite Hcls. apply lookup_insert_eq.
    + rewrite (registered_after_None t1 registered k H1 Hk), Hi.
      by intros [? ?].
Qed.

(** X19.  The first [_init] and the two classes of the sources.  With
    the internal table of the source, and whatever the ten classes that
    are not among the sources are, as long as they do not name the field
    types "textarea" and "groupheader": after the first [_init] the
    handlers for "textarea" and for "groupheader" are those the user
    registered before, when there are some, and those of the TextArea
    and of the GroupHeader class otherwise. *)
Theorem source_classes_registered
    CheckBox ComboBox DateField Label List PasswordField RadioGroup
    SelectBox Spinner TextField s :
  _internalFormElements s =
    Some (internalFormElements CheckBox ComboBox DateField Label List
            PasswordField RadioGroup SelectBox Spinner TextField) ->
  Forall (fun c => toLowerCase (cls_fieldType c) <> "textarea" /\
                   toLowerCase (cls_fieldType c) <> "groupheader")
    [CheckBox; ComboBox; DateField; Label; List; PasswordField; RadioGroup;
     SelectBox; Spinner; TextField] ->
  let before := _registeredFormElements s in
  let after := _registeredFormElements (final (_init s)) in
  after !! "textarea"
  = Some (default TextArea._registration (before !! "textarea")) /\
  after !! "groupheader"
  = Some (default GroupHeader._registration (before !! "groupheader")).
Proof.
  intros Ht Hothers before after. subst before after.
  rewrite _init_run, Ht. cbn [final].
  unfold set_formElements, set_internalFormElements,
    set_registeredFormElements; cbn [_registeredFormElements].
  repeat match goal with
         | H : Forall _ (_ :: _) |- _ => inversion_clear H
         end.
  repeat match goal with H : _ /\ _ |- _ => destruct H end.
  split.
  - apply (registered_after_adds
      [("checkbox", CheckBox); ("combobox", ComboBox);
       ("datefield", DateField); ("groupheader", GroupHeader.class);
       ("label", Label); ("list", List); ("passwordfield", PasswordField);
       ("radiogroup", RadioGroup); ("selectbox", SelectBox);
       ("spiinner", Spinner)]
      "textarea" TextArea.class [("textfield", TextField)]).
    + repeat constructor; cbn; done.
    + reflexivity.
    + reflexivity.
    + repeat constructor; cbn; done.
  - apply (registered_after_adds
      [("checkbox", CheckBox); ("combobox", ComboBox);
       ("datefield", DateField)]
      "groupheader" GroupHeader.class
      [("label", Label); ("list", List); ("passwordfield", PasswordField);
       ("radiogroup", RadioGroup); ("selectbox", SelectBox);
       ("spiinner", Spinner); ("textarea", TextArea.class);
       ("textfield", TextField)]).
    + repeat constructor; cbn; done.
    + reflexivity.
    + reflexivity.
    + repeat constructor; cbn; done.
Qed.

(** X19, on a new dialog for which the user registered handlers for
    "TextArea". *)
Lemma source_classes_registered_witness :
  let user := JMap [("initElement", JFun "user.area.initElement")] in
  let s := final (registerFormElementHandlers "TextArea" user
                    Example.start) in
  _registeredFormElements (final (_init s)) !! "textarea" = Some user /\
  _registeredFormElements (final (_init s)) !! "groupheader"
  = Some GroupHeader._registration.
Proof.
  intros user s.
  refine (source_classes_registered _ _ _ _ _ _ _ _ _ _ s eq_refl _).
  repeat constructor; cbn; done.
Defined.

(** ** Handlers that are not functions *)

Lemma throws_value {A B} R (a : A) (f : A -> M B) :
  throws R (f a) -> throws R (mret a ≫= f).
Proof. intros H s. exact (H s). Qed.

(** X20.  The handlers of a registration are called without a test of
    what they are.  [initElement] is called whatever it is: when it is
    no function, the field throws a TypeError with nothing done for it.
    [postProcess] is called when the registration has the key (line
    613), not when it has a value: a registration with the key and no
    function under it makes the lines that configure an element throw,
    before the element is added to the form. *)
Theorem handlers_are_not_checked env h fd key props type cls o :
  (forall s,
     Obj.get fd key = JMap props ->
     Obj.get props "type" = JStr type ->
     _registeredFormElements s !! toLowerCase type = Some (JMap h) ->
     (forall f, Obj.get h "initElement" <> JFun f) ->
     add_field env fd key s = Throw (TypeError "is not a function") s) /\
  (Obj.has h "postProcess" = true ->
   (forall f, Obj.get h "postProcess" <> JFun f) ->
   throws (same_on _formElements)
     (configure_field env (JMap h) (toLowerCase type) (JMap props) key
        (JObj cls o))).
Proof.
  split.
  - intros s Hfd Hty Hreg Hinit. unfold add_field. rewrite Hfd.
    cbn [get_prop].
    unfold mbind at 1, M_bind at 1, mret at 1, M_ret at 1. rewrite Hty.
    unfold mbind at 1, M_bind at 1, gets at 1.
  rewrite (js_lookup_own _ _ _ Hreg).
    unfold mbind at 1, M_bind at 1. cbn [get_prop].
    unfold mret at 1, M_ret at 1.
    unfold mbind at 1, M_bind at 1.
    destruct (Obj.get h "initElement") as [| |?|?| |?|f|? ?|?] eqn:E;
      try reflexivity.
    by destruct (Hinit f).
  - intros Hhas Hpost. unfold configure_field.
    do 5 (apply throws_later; [exact _ | frame | intros ?]).
    cbn [has_prop]. apply throws_value. rewrite Hhas. cbn [when].
    apply throws_now. cbn [get_prop]. apply throws_value, throws_now.
    intros s.
    destruct (Obj.get h "postProcess") as [| |?|?| |?|f|? ?|?] eqn:E;
      try (by eexists _, s).
    by destruct (Hpost f).
Qed.

(** X20, on a registration whose [postProcess] is [undefined]. *)
Lemma handlers_are_not_checked_witness :
  let h := [("initElement", JFun "user.slider.initElement");
            ("postProcess", JUndefined)] in
  exists e s',
    configure_field Example.env (JMap h) "slider"
      (JMap [("type", JStr "Slider")]) "volume"
      (JObj "qx.ui.form.Slider" 6) Example.start = Throw e s' /\
    _formElements s' = _formElements Example.start.
Proof.
  intros h.
  refine (proj2 (handlers_are_not_checked Example.env h [] "volume"
                   [("type", JStr "Slider")] "Slider"
                   "qx.ui.form.Slider" 6) eq_refl _ Example.start).
  intros f. discriminate.
Defined.

(** ** The rows of a mobile form *)

Lemma place_one nativescroll item name :
  omap SP.placed (SP.place nativescroll item name) = [SP.widget item] /\
  omap SP.named (SP.place nativescroll item name) = [name] /\
  omap SP.shown_invalid (SP.place nativescroll item name) = [].
Proof.
  unfold SP.place.
  by destruct (SP.is_TextArea item), nativescroll,
    (SP.has_setPlaceholder item).
Qed.

Lemma add_from_rows nativescroll i items names :
  omap SP.placed (SP.add_from nativescroll i items names)
  = map SP.widget items /\
  omap SP.named (SP.add_from nativescroll i items names)
  = map (fun j => nth j names JUndefined) (seq i (length items)) /\
  omap SP.shown_invalid (SP.add_from nativescroll i items names)
  = map SP.widget (List.filter (fun item => negb (SP.isValid item)) items).
Proof.
  revert i. induction items as [|item items IH]; intros i; [done|].
  cbn [SP.add_from length seq map List.filter].
  destruct (IH (S i)) as (IH1 & IH2 & IH3).
  destruct (place_one nativescroll item (nth i names JUndefined))
    as (P1 & P2 & P3).
  rewrite !omap_app, P1, P2, P3, IH1, IH2, IH3.
  by destruct (SP.isValid item).
Qed.

(** X21.  The rows of a mobile form (TextArea.js, lines 113-146).
    [addItems] puts every item into a row once, in the order of the
    items; the item at the index [i] goes with the name at the index
    [i], as the label of the row or as the placeholder of the item, and
    with [undefined] when the names are fewer than the items; the error
    is shown for the items that are not valid, and for no other; the
    group header comes first, when there is a title. *)
Theorem addItems_rows nativescroll items names title :
  let calls := SP.addItems nativescroll items names title in
  omap SP.placed calls = map SP.widget items /\
  omap SP.named calls
  = map (fun i => nth i names JUndefined) (seq 0 (length items)) /\
  omap SP.shown_invalid calls
  = map SP.widget (List.filter (fun item => negb (SP.isValid item)) items) /\
  (SP.not_null title = true ->
   exists rest, calls = SP.addGroupHeader title :: rest) /\
  (SP.not_null title = false ->
   forall t, ~ In (SP.addGroupHeader t) calls).
Proof.
  cbn zeta. unfold SP.addItems.
  destruct (add_from_rows nativescroll 0 items names) as (H1 & H2 & H3).
  rewrite !omap_app, H1, H2, H3.
  destruct (SP.not_null title); cbn [omap app]; repeat split; try done.
  - intros _. by eexists.
  - intros _ t. clear. generalize 0.
    induction items as [|item items IH]; intros i; [by intros []|].
    cbn [SP.add_from]. rewrite !in_app_iff. intros [Hin|[Hin|Hin]].
    + unfold SP.place in Hin.
      destruct (SP.is_TextArea item), nativescroll,
        (SP.has_setPlaceholder item); cbn in Hin;
        repeat (destruct Hin as [Hin|Hin]; [discriminate|]); done.
    + destruct (SP.isValid item); cbn in Hin; [done|].
      by destruct Hin.
    + by apply (IH (S i)).
Qed.

(** ** The answers of the proxy *)

Lemma run_app proxy method message v a1 a2 :
  AV.run proxy method message v (a1 ++ a2)
  = let '(v1, calls1) := AV.run proxy method message v a1 in
    let '(v2, calls2) := AV.run proxy method message v1 a2 in
    (v2, calls1 ++ calls2).
Proof.
  revert v. induction a1 as [|a a1 IH]; intros v.
  - cbn. by destruct (AV.run proxy method message v a2).
  - cbn [app AV.run].
    destruct (AV.step proxy method message v a) as [v1 calls1].
    rewrite IH.
    destruct (AV.run proxy method message v1 a1) as [v2 calls2].
    destruct (AV.run proxy method message v2 a2) as [v3 calls3].
    by rewrite app_assoc.
Qed.

Lemma run_setValid_calls proxy method message v actions :
  AV.setValid_calls (fst (AV.run proxy method message v actions))
  = AV.setValid_calls v ++ omap (reported message) actions.
Proof.
  revert v. induction actions as [|a actions IH]; intros v.
  - cbn. by rewrite app_nil_r.
  - cbn [AV.run].
    destruct (AV.step proxy method message v a) as [v1 calls1] eqn:Es.
    specialize (IH v1).
    destruct (AV.run proxy method message v1 actions) as [v2 calls2].
    cbn [fst] in *. rewrite IH. clear IH.
    destruct a as [value|this_tr valid]; cbn in Es |- *.
    + unfold AV.validationFunc in Es.
      by destruct (AV.asyncInProgress v); injection Es as <- _.
    + unfold AV.callback in Es.
      destruct (truthy message); [|destruct this_tr as [tr|]];
        injection Es as <- _; cbn; by rewrite <- ?app_assoc.
Qed.

(** X22.  The answers of the proxy (lines 572-575).  Every answer that
    the callback can report is handed to [setValid], in the order of the
    answers, with the invalid message of the field, or with the
    translation of "Value is invalid" when the field has none; the
    message is handed over for a valid value as well.  The callback does
    not look at the in-progress flag: an answer that comes when nothing
    was asked is reported too.  After an answer that was reported the
    validator is free again: the next value is sent to the proxy. *)
Theorem answers_are_reported proxy method message actions :
  AV.setValid_calls (fst (AV.run proxy method message AV.fresh actions))
  = omap (reported message) actions /\
  (forall a value,
     is_Some (reported message a) ->
     snd (AV.run proxy method message AV.fresh
            (actions ++ [a; AV.Validate value]))
     = snd (AV.run proxy method message AV.fresh actions)
       ++ [AV.proxy_call proxy method [value]]).
Proof.
  split; [apply run_setValid_calls|].
  intros a value [r Hr]. rewrite run_app.
  destruct (AV.run proxy method message AV.fresh actions) as [v1 calls1].
  cbn [snd AV.run].
  destruct a as [v|this_tr valid]; [discriminate Hr|].
  cbn [AV.step]. cbn in Hr. unfold AV.callback.
  destruct (truthy message); [|destruct this_tr as [tr|]];
    try discriminate Hr; cbn; reflexivity.
Qed.
